(** * Clinical-trials dashboard: acquisition and normalisation pipeline

    A shallow embedding of the text canonicalisers, the year extractors,
    the browser extraction loop, the country canonicaliser and the
    subprocess runner of the repository, followed by the properties that
    its specification states about them.

    Python [str] values are sequences of Unicode code points; they are
    modelled as [list N].  The regular expressions of the source are kept
    as patterns and run by a small backtracking matcher, so that each
    pattern can be compared with the one written in the source. *)

From Stdlib Require Import ZArith NArith Lia.
From stdpp Require Import base list strings gmap.

Abbreviation pystr := (list N).

(** An ASCII literal as a Python string. *)
Definition str (s : string) : pystr :=
  (λ a, Ascii.N_of_ascii a) <$> String.list_ascii_of_string s.

(** ** Character classes of CPython's Unicode database

    [re]'s [\s], [\d] and [\w] on [str] patterns are [str.isspace],
    [str.isdecimal] and [str.isalnum] or an underscore; [int] reads every
    decimal digit through its decimal value.  The tables are those of
    Unicode 14.0 (CPython 3.11). *)
Module unicode.

Definition in_ranges (rs : list (N * N)) (c : N) : bool :=
  existsb (λ r, (r.1 <=? c)%N && (c <=? r.2)%N) rs.

Definition whitespace_ranges : list (N * N) := [
    (0x9, 0xD); (0x1C, 0x20); (0x85, 0x85); (0xA0, 0xA0); (0x1680, 0x1680); (0x2000, 0x200A);
    (0x2028, 0x2029); (0x202F, 0x202F); (0x205F, 0x205F); (0x3000, 0x3000)
  ]%N.

(** First code point of every block of ten decimal digits (category Nd). *)
Definition decimal_zeros : list N := [
    0x30; 0x660; 0x6F0; 0x7C0; 0x966; 0x9E6; 0xA66; 0xAE6; 0xB66; 0xBE6;
    0xC66; 0xCE6; 0xD66; 0xDE6; 0xE50; 0xED0; 0xF20; 0x1040; 0x1090; 0x17E0;
    0x1810; 0x1946; 0x19D0; 0x1A80; 0x1A90; 0x1B50; 0x1BB0; 0x1C40; 0x1C50; 0xA620;
    0xA8D0; 0xA900; 0xA9D0; 0xA9F0; 0xAA50; 0xABF0; 0xFF10; 0x104A0; 0x10D30; 0x11066;
    0x110F0; 0x11136; 0x111D0; 0x112F0; 0x11450; 0x114D0; 0x11650; 0x116C0; 0x11730; 0x118E0;
    0x11950; 0x11C50; 0x11D50; 0x11DA0; 0x16A60; 0x16AC0; 0x16B50; 0x1D7CE; 0x1D7D8; 0x1D7E2;
    0x1D7EC; 0x1D7F6; 0x1E140; 0x1E2F0; 0x1E950; 0x1FBF0
  ]%N.

Definition alnum_ranges : list (N * N) := [
    (0x30, 0x39); (0x41, 0x5A); (0x61, 0x7A); (0xAA, 0xAA); (0xB2, 0xB3); (0xB5, 0xB5);
    (0xB9, 0xBA); (0xBC, 0xBE); (0xC0, 0xD6); (0xD8, 0xF6); (0xF8, 0x2C1); (0x2C6, 0x2D1);
    (0x2E0, 0x2E4); (0x2EC, 0x2EC); (0x2EE, 0x2EE); (0x370, 0x374); (0x376, 0x377); (0x37A, 0x37D);
    (0x37F, 0x37F); (0x386, 0x386); (0x388, 0x38A); (0x38C, 0x38C); (0x38E, 0x3A1); (0x3A3, 0x3F5);
    (0x3F7, 0x481); (0x48A, 0x52F); (0x531, 0x556); (0x559, 0x559); (0x560, 0x588); (0x5D0, 0x5EA);
    (0x5EF, 0x5F2); (0x620, 0x64A); (0x660, 0x669); (0x66E, 0x66F); (0x671, 0x6D3); (0x6D5, 0x6D5);
    (0x6E5, 0x6E6); (0x6EE, 0x6FC); (0x6FF, 0x6FF); (0x710, 0x710); (0x712, 0x72F); (0x74D, 0x7A5);
    (0x7B1, 0x7B1); (0x7C0, 0x7EA); (0x7F4, 0x7F5); (0x7FA, 0x7FA); (0x800, 0x815); (0x81A, 0x81A);
    (0x824, 0x824); (0x828, 0x828); (0x840, 0x858); (0x860, 0x86A); (0x870, 0x887); (0x889, 0x88E);
    (0x8A0, 0x8C9); (0x904, 0x939); (0x93D, 0x93D); (0x950, 0x950); (0x958, 0x961); (0x966, 0x96F);
    (0x971, 0x980); (0x985, 0x98C); (0x98F, 0x990); (0x993, 0x9A8); (0x9AA, 0x9B0); (0x9B2, 0x9B2);
    (0x9B6, 0x9B9); (0x9BD, 0x9BD); (0x9CE, 0x9CE); (0x9DC, 0x9DD); (0x9DF, 0x9E1); (0x9E6, 0x9F1);
    (0x9F4, 0x9F9); (0x9FC, 0x9FC); (0xA05, 0xA0A); (0xA0F, 0xA10); (0xA13, 0xA28); (0xA2A, 0xA30);
    (0xA32, 0xA33); (0xA35, 0xA36); (0xA38, 0xA39); (0xA59, 0xA5C); (0xA5E, 0xA5E); (0xA66, 0xA6F);
    (0xA72, 0xA74); (0xA85, 0xA8D); (0xA8F, 0xA91); (0xA93, 0xAA8); (0xAAA, 0xAB0); (0xAB2, 0xAB3);
    (0xAB5, 0xAB9); (0xABD, 0xABD); (0xAD0, 0xAD0); (0xAE0, 0xAE1); (0xAE6, 0xAEF); (0xAF9, 0xAF9);
    (0xB05, 0xB0C); (0xB0F, 0xB10); (0xB13, 0xB28); (0xB2A, 0xB30); (0xB32, 0xB33); (0xB35, 0xB39);
    (0xB3D, 0xB3D); (0xB5C, 0xB5D); (0xB5F, 0xB61); (0xB66, 0xB6F); (0xB71, 0xB77); (0xB83, 0xB83);
    (0xB85, 0xB8A); (0xB8E, 0xB90); (0xB92, 0xB95); (0xB99, 0xB9A); (0xB9C, 0xB9C); (0xB9E, 0xB9F);
    (0xBA3, 0xBA4); (0xBA8, 0xBAA); (0xBAE, 0xBB9); (0xBD0, 0xBD0); (0xBE6, 0xBF2); (0xC05, 0xC0C);
    (0xC0E, 0xC10); (0xC12, 0xC28); (0xC2A, 0xC39); (0xC3D, 0xC3D); (0xC58, 0xC5A); (0xC5D, 0xC5D);
    (0xC60, 0xC61); (0xC66, 0xC6F); (0xC78, 0xC7E); (0xC80, 0xC80); (0xC85, 0xC8C); (0xC8E, 0xC90);
    (0xC92, 0xCA8); (0xCAA, 0xCB3); (0xCB5, 0xCB9); (0xCBD, 0xCBD); (0xCDD, 0xCDE); (0xCE0, 0xCE1);
    (0xCE6, 0xCEF); (0xCF1, 0xCF2); (0xD04, 0xD0C); (0xD0E, 0xD10); (0xD12, 0xD3A); (0xD3D, 0xD3D);
    (0xD4E, 0xD4E); (0xD54, 0xD56); (0xD58, 0xD61); (0xD66, 0xD78); (0xD7A, 0xD7F); (0xD85, 0xD96);
    (0xD9A, 0xDB1); (0xDB3, 0xDBB); (0xDBD, 0xDBD); (0xDC0, 0xDC6); (0xDE6, 0xDEF); (0xE01, 0xE30);
    (0xE32, 0xE33); (0xE40, 0xE46); (0xE50, 0xE59); (0xE81, 0xE82); (0xE84, 0xE84); (0xE86, 0xE8A);
    (0xE8C, 0xEA3); (0xEA5, 0xEA5); (0xEA7, 0xEB0); (0xEB2, 0xEB3); (0xEBD, 0xEBD); (0xEC0, 0xEC4);
    (0xEC6, 0xEC6); (0xED0, 0xED9); (0xEDC, 0xEDF); (0xF00, 0xF00); (0xF20, 0xF33); (0xF40, 0xF47);
    (0xF49, 0xF6C); (0xF88, 0xF8C); (0x1000, 0x102A); (0x103F, 0x1049); (0x1050, 0x1055); (0x105A, 0x105D);
    (0x1061, 0x1061); (0x1065, 0x1066); (0x106E, 0x1070); (0x1075, 0x1081); (0x108E, 0x108E); (0x1090, 0x1099);
    (0x10A0, 0x10C5); (0x10C7, 0x10C7); (0x10CD, 0x10CD); (0x10D0, 0x10FA); (0x10FC, 0x1248); (0x124A, 0x124D);
    (0x1250, 0x1256); (0x1258, 0x1258); (0x125A, 0x125D); (0x1260, 0x1288); (0x128A, 0x128D); (0x1290, 0x12B0);
    (0x12B2, 0x12B5); (0x12B8, 0x12BE); (0x12C0, 0x12C0); (0x12C2, 0x12C5); (0x12C8, 0x12D6); (0x12D8, 0x1310);
    (0x1312, 0x1315); (0x1318, 0x135A); (0x1369, 0x137C); (0x1380, 0x138F); (0x13A0, 0x13F5); (0x13F8, 0x13FD);
    (0x1401, 0x166C); (0x166F, 0x167F); (0x1681, 0x169A); (0x16A0, 0x16EA); (0x16EE, 0x16F8); (0x1700, 0x1711);
    (0x171F, 0x1731); (0x1740, 0x1751); (0x1760, 0x176C); (0x176E, 0x1770); (0x1780, 0x17B3); (0x17D7, 0x17D7);
    (0x17DC, 0x17DC); (0x17E0, 0x17E9); (0x17F0, 0x17F9); (0x1810, 0x1819); (0x1820, 0x1878); (0x1880, 0x1884);
    (0x1887, 0x18A8); (0x18AA, 0x18AA); (0x18B0, 0x18F5); (0x1900, 0x191E); (0x1946, 0x196D); (0x1970, 0x1974);
    (0x1980, 0x19AB); (0x19B0, 0x19C9); (0x19D0, 0x19DA); (0x1A00, 0x1A16); (0x1A20, 0x1A54); (0x1A80, 0x1A89);
    (0x1A90, 0x1A99); (0x1AA7, 0x1AA7); (0x1B05, 0x1B33); (0x1B45, 0x1B4C); (0x1B50, 0x1B59); (0x1B83, 0x1BA0);
    (0x1BAE, 0x1BE5); (0x1C00, 0x1C23); (0x1C40, 0x1C49); (0x1C4D, 0x1C7D); (0x1C80, 0x1C88); (0x1C90, 0x1CBA);
    (0x1CBD, 0x1CBF); (0x1CE9, 0x1CEC); (0x1CEE, 0x1CF3); (0x1CF5, 0x1CF6); (0x1CFA, 0x1CFA); (0x1D00, 0x1DBF);
    (0x1E00, 0x1F15); (0x1F18, 0x1F1D); (0x1F20, 0x1F45); (0x1F48, 0x1F4D); (0x1F50, 0x1F57); (0x1F59, 0x1F59);
    (0x1F5B, 0x1F5B); (0x1F5D, 0x1F5D); (0x1F5F, 0x1F7D); (0x1F80, 0x1FB4); (0x1FB6, 0x1FBC); (0x1FBE, 0x1FBE);
    (0x1FC2, 0x1FC4); (0x1FC6, 0x1FCC); (0x1FD0, 0x1FD3); (0x1FD6, 0x1FDB); (0x1FE0, 0x1FEC); (0x1FF2, 0x1FF4);
    (0x1FF6, 0x1FFC); (0x2070, 0x2071); (0x2074, 0x2079); (0x207F, 0x2089); (0x2090, 0x209C); (0x2102, 0x2102);
    (0x2107, 0x2107); (0x210A, 0x2113); (0x2115, 0x2115); (0x2119, 0x211D); (0x2124, 0x2124); (0x2126, 0x2126);
    (0x2128, 0x2128); (0x212A, 0x212D); (0x212F, 0x2139); (0x213C, 0x213F); (0x2145, 0x2149); (0x214E, 0x214E);
    (0x2150, 0x2189); (0x2460, 0x249B); (0x24EA, 0x24FF); (0x2776, 0x2793); (0x2C00, 0x2CE4); (0x2CEB, 0x2CEE);
    (0x2CF2, 0x2CF3); (0x2CFD, 0x2CFD); (0x2D00, 0x2D25); (0x2D27, 0x2D27); (0x2D2D, 0x2D2D); (0x2D30, 0x2D67);
    (0x2D6F, 0x2D6F); (0x2D80, 0x2D96); (0x2DA0, 0x2DA6); (0x2DA8, 0x2DAE); (0x2DB0, 0x2DB6); (0x2DB8, 0x2DBE);
    (0x2DC0, 0x2DC6); (0x2DC8, 0x2DCE); (0x2DD0, 0x2DD6); (0x2DD8, 0x2DDE); (0x2E2F, 0x2E2F); (0x3005, 0x3007);
    (0x3021, 0x3029); (0x3031, 0x3035); (0x3038, 0x303C); (0x3041, 0x3096); (0x309D, 0x309F); (0x30A1, 0x30FA);
    (0x30FC, 0x30FF); (0x3105, 0x312F); (0x3131, 0x318E); (0x3192, 0x3195); (0x31A0, 0x31BF); (0x31F0, 0x31FF);
    (0x3220, 0x3229); (0x3248, 0x324F); (0x3251, 0x325F); (0x3280, 0x3289); (0x32B1, 0x32BF); (0x3400, 0x4DBF);
    (0x4E00, 0xA48C); (0xA4D0, 0xA4FD); (0xA500, 0xA60C); (0xA610, 0xA62B); (0xA640, 0xA66E); (0xA67F, 0xA69D);
    (0xA6A0, 0xA6EF); (0xA717, 0xA71F); (0xA722, 0xA788); (0xA78B, 0xA7CA); (0xA7D0, 0xA7D1); (0xA7D3, 0xA7D3);
    (0xA7D5, 0xA7D9); (0xA7F2, 0xA801); (0xA803, 0xA805); (0xA807, 0xA80A); (0xA80C, 0xA822); (0xA830, 0xA835);
    (0xA840, 0xA873); (0xA882, 0xA8B3); (0xA8D0, 0xA8D9); (0xA8F2, 0xA8F7); (0xA8FB, 0xA8FB); (0xA8FD, 0xA8FE);
    (0xA900, 0xA925); (0xA930, 0xA946); (0xA960, 0xA97C); (0xA984, 0xA9B2); (0xA9CF, 0xA9D9); (0xA9E0, 0xA9E4);
    (0xA9E6, 0xA9FE); (0xAA00, 0xAA28); (0xAA40, 0xAA42); (0xAA44, 0xAA4B); (0xAA50, 0xAA59); (0xAA60, 0xAA76);
    (0xAA7A, 0xAA7A); (0xAA7E, 0xAAAF); (0xAAB1, 0xAAB1); (0xAAB5, 0xAAB6); (0xAAB9, 0xAABD); (0xAAC0, 0xAAC0);
    (0xAAC2, 0xAAC2); (0xAADB, 0xAADD); (0xAAE0, 0xAAEA); (0xAAF2, 0xAAF4); (0xAB01, 0xAB06); (0xAB09, 0xAB0E);
    (0xAB11, 0xAB16); (0xAB20, 0xAB26); (0xAB28, 0xAB2E); (0xAB30, 0xAB5A); (0xAB5C, 0xAB69); (0xAB70, 0xABE2);
    (0xABF0, 0xABF9); (0xAC00, 0xD7A3); (0xD7B0, 0xD7C6); (0xD7CB, 0xD7FB); (0xF900, 0xFA6D); (0xFA70, 0xFAD9);
    (0xFB00, 0xFB06); (0xFB13, 0xFB17); (0xFB1D, 0xFB1D); (0xFB1F, 0xFB28); (0xFB2A, 0xFB36); (0xFB38, 0xFB3C);
    (0xFB3E, 0xFB3E); (0xFB40, 0xFB41); (0xFB43, 0xFB44); (0xFB46, 0xFBB1); (0xFBD3, 0xFD3D); (0xFD50, 0xFD8F);
    (0xFD92, 0xFDC7); (0xFDF0, 0xFDFB); (0xFE70, 0xFE74); (0xFE76, 0xFEFC); (0xFF10, 0xFF19); (0xFF21, 0xFF3A);
    (0xFF41, 0xFF5A); (0xFF66, 0xFFBE); (0xFFC2, 0xFFC7); (0xFFCA, 0xFFCF); (0xFFD2, 0xFFD7); (0xFFDA, 0xFFDC);
    (0x10000, 0x1000B); (0x1000D, 0x10026); (0x10028, 0x1003A); (0x1003C, 0x1003D); (0x1003F, 0x1004D); (0x10050, 0x1005D);
    (0x10080, 0x100FA); (0x10107, 0x10133); (0x10140, 0x10178); (0x1018A, 0x1018B); (0x10280, 0x1029C); (0x102A0, 0x102D0);
    (0x102E1, 0x102FB); (0x10300, 0x10323); (0x1032D, 0x1034A); (0x10350, 0x10375); (0x10380, 0x1039D); (0x103A0, 0x103C3);
    (0x103C8, 0x103CF); (0x103D1, 0x103D5); (0x10400, 0x1049D); (0x104A0, 0x104A9); (0x104B0, 0x104D3); (0x104D8, 0x104FB);
    (0x10500, 0x10527); (0x10530, 0x10563); (0x10570, 0x1057A); (0x1057C, 0x1058A); (0x1058C, 0x10592); (0x10594, 0x10595);
    (0x10597, 0x105A1); (0x105A3, 0x105B1); (0x105B3, 0x105B9); (0x105BB, 0x105BC); (0x10600, 0x10736); (0x10740, 0x10755);
    (0x10760, 0x10767); (0x10780, 0x10785); (0x10787, 0x107B0); (0x107B2, 0x107BA); (0x10800, 0x10805); (0x10808, 0x10808);
    (0x1080A, 0x10835); (0x10837, 0x10838); (0x1083C, 0x1083C); (0x1083F, 0x10855); (0x10858, 0x10876); (0x10879, 0x1089E);
    (0x108A7, 0x108AF); (0x108E0, 0x108F2); (0x108F4, 0x108F5); (0x108FB, 0x1091B); (0x10920, 0x10939); (0x10980, 0x109B7);
    (0x109BC, 0x109CF); (0x109D2, 0x10A00); (0x10A10, 0x10A13); (0x10A15, 0x10A17); (0x10A19, 0x10A35); (0x10A40, 0x10A48);
    (0x10A60, 0x10A7E); (0x10A80, 0x10A9F); (0x10AC0, 0x10AC7); (0x10AC9, 0x10AE4); (0x10AEB, 0x10AEF); (0x10B00, 0x10B35);
    (0x10B40, 0x10B55); (0x10B58, 0x10B72); (0x10B78, 0x10B91); (0x10BA9, 0x10BAF); (0x10C00, 0x10C48); (0x10C80, 0x10CB2);
    (0x10CC0, 0x10CF2); (0x10CFA, 0x10D23); (0x10D30, 0x10D39); (0x10E60, 0x10E7E); (0x10E80, 0x10EA9); (0x10EB0, 0x10EB1);
    (0x10F00, 0x10F27); (0x10F30, 0x10F45); (0x10F51, 0x10F54); (0x10F70, 0x10F81); (0x10FB0, 0x10FCB); (0x10FE0, 0x10FF6);
    (0x11003, 0x11037); (0x11052, 0x1106F); (0x11071, 0x11072); (0x11075, 0x11075); (0x11083, 0x110AF); (0x110D0, 0x110E8);
    (0x110F0, 0x110F9); (0x11103, 0x11126); (0x11136, 0x1113F); (0x11144, 0x11144); (0x11147, 0x11147); (0x11150, 0x11172);
    (0x11176, 0x11176); (0x11183, 0x111B2); (0x111C1, 0x111C4); (0x111D0, 0x111DA); (0x111DC, 0x111DC); (0x111E1, 0x111F4);
    (0x11200, 0x11211); (0x11213, 0x1122B); (0x11280, 0x11286); (0x11288, 0x11288); (0x1128A, 0x1128D); (0x1128F, 0x1129D);
    (0x1129F, 0x112A8); (0x112B0, 0x112DE); (0x112F0, 0x112F9); (0x11305, 0x1130C); (0x1130F, 0x11310); (0x11313, 0x11328);
    (0x1132A, 0x11330); (0x11332, 0x11333); (0x11335, 0x11339); (0x1133D, 0x1133D); (0x11350, 0x11350); (0x1135D, 0x11361);
    (0x11400, 0x11434); (0x11447, 0x1144A); (0x11450, 0x11459); (0x1145F, 0x11461); (0x11480, 0x114AF); (0x114C4, 0x114C5);
    (0x114C7, 0x114C7); (0x114D0, 0x114D9); (0x11580, 0x115AE); (0x115D8, 0x115DB); (0x11600, 0x1162F); (0x11644, 0x11644);
    (0x11650, 0x11659); (0x11680, 0x116AA); (0x116B8, 0x116B8); (0x116C0, 0x116C9); (0x11700, 0x1171A); (0x11730, 0x1173B);
    (0x11740, 0x11746); (0x11800, 0x1182B); (0x118A0, 0x118F2); (0x118FF, 0x11906); (0x11909, 0x11909); (0x1190C, 0x11913);
    (0x11915, 0x11916); (0x11918, 0x1192F); (0x1193F, 0x1193F); (0x11941, 0x11941); (0x11950, 0x11959); (0x119A0, 0x119A7);
    (0x119AA, 0x119D0); (0x119E1, 0x119E1); (0x119E3, 0x119E3); (0x11A00, 0x11A00); (0x11A0B, 0x11A32); (0x11A3A, 0x11A3A);
    (0x11A50, 0x11A50); (0x11A5C, 0x11A89); (0x11A9D, 0x11A9D); (0x11AB0, 0x11AF8); (0x11C00, 0x11C08); (0x11C0A, 0x11C2E);
    (0x11C40, 0x11C40); (0x11C50, 0x11C6C); (0x11C72, 0x11C8F); (0x11D00, 0x11D06); (0x11D08, 0x11D09); (0x11D0B, 0x11D30);
    (0x11D46, 0x11D46); (0x11D50, 0x11D59); (0x11D60, 0x11D65); (0x11D67, 0x11D68); (0x11D6A, 0x11D89); (0x11D98, 0x11D98);
    (0x11DA0, 0x11DA9); (0x11EE0, 0x11EF2); (0x11FB0, 0x11FB0); (0x11FC0, 0x11FD4); (0x12000, 0x12399); (0x12400, 0x1246E);
    (0x12480, 0x12543); (0x12F90, 0x12FF0); (0x13000, 0x1342E); (0x14400, 0x14646); (0x16800, 0x16A38); (0x16A40, 0x16A5E);
    (0x16A60, 0x16A69); (0x16A70, 0x16ABE); (0x16AC0, 0x16AC9); (0x16AD0, 0x16AED); (0x16B00, 0x16B2F); (0x16B40, 0x16B43);
    (0x16B50, 0x16B59); (0x16B5B, 0x16B61); (0x16B63, 0x16B77); (0x16B7D, 0x16B8F); (0x16E40, 0x16E96); (0x16F00, 0x16F4A);
    (0x16F50, 0x16F50); (0x16F93, 0x16F9F); (0x16FE0, 0x16FE1); (0x16FE3, 0x16FE3); (0x17000, 0x187F7); (0x18800, 0x18CD5);
    (0x18D00, 0x18D08); (0x1AFF0, 0x1AFF3); (0x1AFF5, 0x1AFFB); (0x1AFFD, 0x1AFFE); (0x1B000, 0x1B122); (0x1B150, 0x1B152);
    (0x1B164, 0x1B167); (0x1B170, 0x1B2FB); (0x1BC00, 0x1BC6A); (0x1BC70, 0x1BC7C); (0x1BC80, 0x1BC88); (0x1BC90, 0x1BC99);
    (0x1D2E0, 0x1D2F3); (0x1D360, 0x1D378); (0x1D400, 0x1D454); (0x1D456, 0x1D49C); (0x1D49E, 0x1D49F); (0x1D4A2, 0x1D4A2);
    (0x1D4A5, 0x1D4A6); (0x1D4A9, 0x1D4AC); (0x1D4AE, 0x1D4B9); (0x1D4BB, 0x1D4BB); (0x1D4BD, 0x1D4C3); (0x1D4C5, 0x1D505);
    (0x1D507, 0x1D50A); (0x1D50D, 0x1D514); (0x1D516, 0x1D51C); (0x1D51E, 0x1D539); (0x1D53B, 0x1D53E); (0x1D540, 0x1D544);
    (0x1D546, 0x1D546); (0x1D54A, 0x1D550); (0x1D552, 0x1D6A5); (0x1D6A8, 0x1D6C0); (0x1D6C2, 0x1D6DA); (0x1D6DC, 0x1D6FA);
    (0x1D6FC, 0x1D714); (0x1D716, 0x1D734); (0x1D736, 0x1D74E); (0x1D750, 0x1D76E); (0x1D770, 0x1D788); (0x1D78A, 0x1D7A8);
    (0x1D7AA, 0x1D7C2); (0x1D7C4, 0x1D7CB); (0x1D7CE, 0x1D7FF); (0x1DF00, 0x1DF1E); (0x1E100, 0x1E12C); (0x1E137, 0x1E13D);
    (0x1E140, 0x1E149); (0x1E14E, 0x1E14E); (0x1E290, 0x1E2AD); (0x1E2C0, 0x1E2EB); (0x1E2F0, 0x1E2F9); (0x1E7E0, 0x1E7E6);
    (0x1E7E8, 0x1E7EB); (0x1E7ED, 0x1E7EE); (0x1E7F0, 0x1E7FE); (0x1E800, 0x1E8C4); (0x1E8C7, 0x1E8CF); (0x1E900, 0x1E943);
    (0x1E94B, 0x1E94B); (0x1E950, 0x1E959); (0x1EC71, 0x1ECAB); (0x1ECAD, 0x1ECAF); (0x1ECB1, 0x1ECB4); (0x1ED01, 0x1ED2D);
    (0x1ED2F, 0x1ED3D); (0x1EE00, 0x1EE03); (0x1EE05, 0x1EE1F); (0x1EE21, 0x1EE22); (0x1EE24, 0x1EE24); (0x1EE27, 0x1EE27);
    (0x1EE29, 0x1EE32); (0x1EE34, 0x1EE37); (0x1EE39, 0x1EE39); (0x1EE3B, 0x1EE3B); (0x1EE42, 0x1EE42); (0x1EE47, 0x1EE47);
    (0x1EE49, 0x1EE49); (0x1EE4B, 0x1EE4B); (0x1EE4D, 0x1EE4F); (0x1EE51, 0x1EE52); (0x1EE54, 0x1EE54); (0x1EE57, 0x1EE57);
    (0x1EE59, 0x1EE59); (0x1EE5B, 0x1EE5B); (0x1EE5D, 0x1EE5D); (0x1EE5F, 0x1EE5F); (0x1EE61, 0x1EE62); (0x1EE64, 0x1EE64);
    (0x1EE67, 0x1EE6A); (0x1EE6C, 0x1EE72); (0x1EE74, 0x1EE77); (0x1EE79, 0x1EE7C); (0x1EE7E, 0x1EE7E); (0x1EE80, 0x1EE89);
    (0x1EE8B, 0x1EE9B); (0x1EEA1, 0x1EEA3); (0x1EEA5, 0x1EEA9); (0x1EEAB, 0x1EEBB); (0x1F100, 0x1F10C); (0x1FBF0, 0x1FBF9);
    (0x20000, 0x2A6DF); (0x2A700, 0x2B738); (0x2B740, 0x2B81D); (0x2B820, 0x2CEA1); (0x2CEB0, 0x2EBE0); (0x2F800, 0x2FA1D);
    (0x30000, 0x3134A)
  ]%N.

Definition isspace (c : N) : bool := in_ranges whitespace_ranges c.

Definition decimal (c : N) : option N :=
  (λ z, c - z)%N <$> find (λ z, (z <=? c)%N && (c <? z + 10)%N) decimal_zeros.

Definition isdecimal (c : N) : bool :=
  match decimal c with Some _ => true | None => false end.

Definition isalnum (c : N) : bool := in_ranges alnum_ranges c.

(** [\w] *)
Definition isword (c : N) : bool := isalnum c || (c =? 0x5F)%N.

(** Lower case of an ASCII letter, any other code point unchanged. *)
Definition lower_ascii (c : N) : N :=
  if (0x41 <=? c)%N && (c <=? 0x5A)%N then (c + 32)%N else c.

(** [str.lower] of one code point.  Apart from the ASCII capitals only
    U+212A (Kelvin sign) and U+0130 lower to something that contains an
    ASCII character; every other code point is left as it is, which
    cannot change whether an ASCII needle occurs in the lowered text. *)
Definition lower (c : N) : pystr :=
  if (c =? 0x212A)%N then [0x6B%N]
  else if (c =? 0x130)%N then [0x69%N; 0x307%N]
  else [lower_ascii c].

End unicode.

(** ** The [str] methods the source calls *)
Module py.

(** Truth value of a string: [if s], [not s]. *)
Definition truthy (s : pystr) : bool :=
  match s with [] => false | _ :: _ => true end.

(** Truth value of an optional string ([None] is false). *)
Definition truthy_opt (o : option pystr) : bool :=
  match o with Some s => truthy s | None => false end.

(** [s.replace(old, new)] for a one-character [old]. *)
Definition replace (old : N) (new : pystr) (s : pystr) : pystr :=
  c ← s; if (c =? old)%N then new else [c].

Fixpoint lstrip (s : pystr) : pystr :=
  match s with
  | c :: s' => if unicode.isspace c then lstrip s' else s
  | [] => []
  end.

(** [s.rstrip()]: what is left of the tail, and the head unless it is
    white space with nothing left after it. *)
Fixpoint rstrip (s : pystr) : pystr :=
  match s with
  | c :: s' =>
      match rstrip s' with
      | [] => if unicode.isspace c then [] else [c]
      | r => c :: r
      end
  | [] => []
  end.

(** [s.strip()] *)
Definition strip (s : pystr) : pystr := rstrip (lstrip s).

(** [s.lower()] *)
Definition lower (s : pystr) : pystr := c ← s; unicode.lower c.

Fixpoint startswith (s p : pystr) : bool :=
  match p, s with
  | [], _ => true
  | a :: p', c :: s' => (c =? a)%N && startswith s' p'
  | _ :: _, [] => false
  end.

(** [needle in s] *)
Fixpoint contains (needle s : pystr) : bool :=
  startswith s needle ||
  match s with
  | _ :: s' => contains needle s'
  | [] => false
  end.

(** [int(s)] for a string of decimal digits, most significant first. *)
Definition int (s : pystr) : Z :=
  foldl (λ acc c, acc * 10 + Z.of_N (default 0%N (unicode.decimal c)))%Z 0%Z s.

(** [s.title()] on ASCII text: a letter that follows a letter is
    lowered, any other letter is raised (code points outside ASCII are
    taken as uncased). *)
Fixpoint title_from (after_letter : bool) (s : pystr) : pystr :=
  match s with
  | c :: s' =>
      let low := unicode.lower_ascii c in
      let letter := (0x61 <=? low)%N && (low <=? 0x7A)%N in
      (if letter then (if after_letter then low else low - 32)%N else c)
        :: title_from letter s'
  | [] => []
  end.

Definition title_ascii (s : pystr) : pystr := title_from false s.

(** [xs[:m]] for a Python integer [m]: a negative bound counts from the
    end. *)
Definition slice_to {A} (xs : list A) (m : Z) : list A :=
  if (0 <=? m)%Z then take (Z.to_nat m) xs
  else take (length xs - Z.to_nat (- m)) xs.

End py.

(** ** Regular expressions

    A pattern is a sequence of items; [matcher] is the backtracking
    matcher of [re] on the items that the source's patterns use.  The
    result of a match is the matched text ([m.group(0)]) and the text of
    the capturing group ([m.group(1)]). *)
Module re.

Inductive item : Type :=
  | Bound                                (* \b *)
  | Class (p : N → bool)                 (* one character of a class, or a literal *)
  | Many (p : N → bool) (lo : nat)       (* greedy  p{lo,}  *)
  | Alt (ws : list pystr)                (* w1|w2|..  over literal words *)
  | GOpen                                (* (  of group 1 *)
  | GClose.                              (* )  of group 1 *)

Record rmatch : Type := Match { group0 : pystr; group1 : pystr }.

Definition word_at (o : option N) : bool :=
  match o with Some c => unicode.isword c | None => false end.

(** [\b] holds between [prev] and the head of [s]. *)
Definition boundary (prev : option N) (s : pystr) : bool :=
  xorb (word_at prev) (word_at (head s)).

Definition consume (ing : bool) (cs : pystr) (m : rmatch) : rmatch :=
  Match (cs ++ group0 m) (if ing then cs ++ group1 m else group1 m).

Fixpoint strip_prefix (w s : pystr) : option pystr :=
  match w, s with
  | [], _ => Some s
  | a :: w', c :: s' => if (c =? a)%N then strip_prefix w' s' else None
  | _ :: _, [] => None
  end.

(** The character before the rest, once [w] has been passed. *)
Definition after_word (prev : option N) (w : pystr) : option N :=
  from_option Some prev (last w).

(** Greedy [p{lo,}] followed by [k]: take a character while one can, and
    give back one at a time when what follows does not match. *)
Fixpoint many (p : N → bool) (ing : bool) (k : option N → pystr → option rmatch)
    (s : pystr) (lo : nat) (prev : option N) : option rmatch :=
  let stop := match lo with O => k prev s | S _ => None end in
  match s with
  | c :: s' =>
      if p c then
        match many p ing k s' (pred lo) (Some c) with
        | Some m => Some (consume ing [c] m)
        | None => stop
        end
      else stop
  | [] => stop
  end.

(** [w1|w2|..] followed by [k]: the first alternative after which [k]
    matches. *)
Fixpoint alts (ing : bool) (k : option N → pystr → option rmatch)
    (prev : option N) (s : pystr) (ws : list pystr) : option rmatch :=
  match ws with
  | w :: ws' =>
      match strip_prefix w s with
      | Some s' =>
          match k (after_word prev w) s' with
          | Some m => Some (consume ing w m)
          | None => alts ing k prev s ws'
          end
      | None => alts ing k prev s ws'
      end
  | [] => None
  end.

(** [matcher its ing prev s]: match the items [its] at the head of [s],
    where [prev] is the character before it and [ing] tells whether
    group 1 is open. *)
Fixpoint matcher (its : list item) : bool → option N → pystr → option rmatch :=
  match its with
  | [] => λ _ _ _, Some (Match [] [])
  | Bound :: its' => λ ing prev s,
      if boundary prev s then matcher its' ing prev s else None
  | Class p :: its' => λ ing prev s,
      match s with
      | c :: s' =>
          if p c then consume ing [c] <$> matcher its' ing (Some c) s' else None
      | [] => None
      end
  | Many p lo :: its' => λ ing prev s, many p ing (matcher its' ing) s lo prev
  | Alt ws :: its' => λ ing prev s, alts ing (matcher its' ing) prev s ws
  | GOpen :: its' => λ _ prev s, matcher its' true prev s
  | GClose :: its' => λ _ prev s, matcher its' false prev s
  end.

(** Leftmost match at or after the head of [s]. *)
Fixpoint search_from (its : list item) (prev : option N) (s : pystr) : option rmatch :=
  match matcher its false prev s with
  | Some m => Some m
  | None =>
      match s with
      | c :: s' => search_from its (Some c) s'
      | [] => None
      end
  end.

(** [re.search(pattern, s)] *)
Definition search (its : list item) (s : pystr) : option rmatch :=
  search_from its None s.

(** [re.sub(pattern, repl, s)] for a pattern that cannot match the empty
    string (the two patterns substituted in the source cannot): [skip]
    counts the characters of the current match still to be passed. *)
Fixpoint sub_from (its : list item) (repl : pystr) (prev : option N)
    (skip : nat) (s : pystr) : pystr :=
  match s with
  | c :: s' =>
      match skip with
      | S k => sub_from its repl (Some c) k s'
      | O =>
          match matcher its false prev s with
          | Some (Match (_ :: w) _) => repl ++ sub_from its repl (Some c) (length w) s'
          | _ => c :: sub_from its repl (Some c) 0 s'
          end
      end
  | [] => []
  end.

Definition sub (its : list item) (repl s : pystr) : pystr :=
  sub_from its repl None 0 s.

(** Character classes and literals. *)
Definition s_ : N → bool := unicode.isspace.
Definition d_ : N → bool := unicode.isdecimal.
Definition lit (a : N) : N → bool := λ c, (c =? a)%N.

(** A literal letter under [re.IGNORECASE]; N, C and T have no case
    variant outside ASCII. *)
Definition ilit (a : N) : N → bool :=
  λ c, (unicode.lower_ascii c =? unicode.lower_ascii a)%N.

Definition range (lo hi : N) : N → bool := λ c, (lo <=? c)%N && (c <=? hi)%N.

End re.

(** * analysis/playwright_scraper.py: text canonicalisation *)
Module playwright_scraper.

(** [[\u200B-\u200F]] *)
Definition ZERO_WIDTH : list re.item := [re.Class (re.range 0x200B 0x200F)].

(** [\s+] *)
Definition WHITESPACE_RUN : list re.item := [re.Many re.s_ 1].

(** [\bNCT\s*(\d{4,})\b] with [re.IGNORECASE] *)
Definition NCT_PATTERN : list re.item :=
  [re.Bound; re.Class (re.ilit 0x4E); re.Class (re.ilit 0x43); re.Class (re.ilit 0x54);
   re.Many re.s_ 0; re.GOpen; re.Many re.d_ 4; re.GClose; re.Bound].

(** [\b(19|20)\d{2}\b] *)
Definition PLAUSIBLE_YEAR : list re.item :=
  [re.Bound; re.GOpen; re.Alt [str "19"; str "20"]; re.GClose;
   re.Class re.d_; re.Class re.d_; re.Bound].

(** [(\d{4})] *)
Definition FOUR_DIGITS : list re.item :=
  [re.GOpen; re.Class re.d_; re.Class re.d_; re.Class re.d_; re.Class re.d_; re.GClose].

Definition _clean_text (val : option pystr) : option pystr :=
  match val with
  | None => None
  | Some s =>
      let s := py.replace 0xFEFF [] (py.replace 0xA0 (str " ") s) in
      let s := re.sub ZERO_WIDTH [] s in
      let s := py.strip (re.sub WHITESPACE_RUN (str " ") s) in
      Some s
  end.

Definition _canonical_nct (val : option pystr) : option pystr :=
  match _clean_text val with
  | None => None
  | Some s =>
      if negb (py.truthy s) then None
      else match re.search NCT_PATTERN s with
           | Some m => Some (str "NCT" ++ re.group1 m)
           | None => Some s
           end
  end.

Definition _extract_year (text : option pystr) : option Z :=
  match text with
  | None => None
  | Some t =>
      if negb (py.truthy t) then None
      else match re.search PLAUSIBLE_YEAR t with
           | Some m => Some (py.int (re.group0 m))
           | None =>
               match re.search FOUR_DIGITS t with
               | Some m2 => Some (py.int (re.group1 m2))
               | None => None
               end
           end
  end.



(** ** The browser, as the run observes it

    The pipeline is sequential, so the rendering surface is the sequence
    of result-list snapshots that the pagination loop scans and the
    detail view that each candidate opens. *)

(** One object returned by the script evaluated on [.nct-id]. *)
Record raw_item : Type := Raw {
  r_nct : option pystr;
  r_url : option pystr;
  r_country : option pystr;
  r_briefTitle : option pystr }.

(** A candidate: the dict built by [_pairs_from_search_page]. *)
Record candidate : Type := Candidate {
  it_nctId : option pystr;
  it_url : option pystr;
  it_briefTitle : option pystr;
  it_country : option pystr }.

(** An output record, one line of the Run Artifact. *)
Record record : Type := Record_ {
  nctId : pystr;
  briefTitle : option pystr;
  startYear : option Z;
  country : option pystr }.

(** [get_attribute] either raises or gives the attribute, if any. *)
Inductive attribute : Type :=
  | AttrRaises
  | Attr (v : option pystr).

(** The [[aria-label="Next page"]] control: absent, or present with its
    [aria-disabled] attribute and whether clicking it succeeds. *)
Inductive next_control : Type :=
  | NoNext
  | Next (aria_disabled : attribute) (click_ok : bool).

Record snapshot : Type := Snapshot {
  nct_id_visible : bool;                 (* wait_for_selector(".nct-id") returned *)
  evaluated : option (list raw_item);    (* eval_on_selector_all; None when it raises *)
  next_btn : next_control }.

(** What opening a detail view gives: [goto] or the extraction raises,
    or the title chain resolves to [title] and the overview field, when
    it is found, holds [overview]. *)
Inductive detail_view : Type :=
  | DetailRaises
  | Detail (title : option pystr) (overview : option pystr).

Record browser : Type := Browser {
  results : nat → snapshot;              (* the n-th scan of the result list *)
  detail : nat → pystr → detail_view }.  (* the n-th candidate, at its url *)

Definition _pairs_from_search_page (page : snapshot) : list candidate :=
  if negb (nct_id_visible page) then []
  else
    (λ r, Candidate (_canonical_nct (r_nct r)) (r_url r)
                    (_clean_text (r_briefTitle r)) (_clean_text (r_country r)))
      <$> default [] (evaluated page).

(** A line printed on the combined output. *)
Inductive diagnostic : Type :=
  | WARN_TITLE_NONE (nct_id url : pystr).

(** A call either returns or lets an exception escape. *)
Inductive outcome (A : Type) : Type :=
  | Returned (a : A)
  | Raised.
Arguments Returned {A} a.
Arguments Raised {A}.

Record run : Type := Run {
  artifact : list record;                (* the lines written to output_path *)
  count : Z;                             (* the value returned by scrape *)
  printed : list diagnostic }.

Definition len {A} (xs : list A) : Z := Z.of_nat (length xs).

(** The [for it in _pairs_from_search_page(page)] loop. *)
Fixpoint scan (max_results : Z) (items pairs : list candidate) (seen : gset pystr)
    : list candidate * gset pystr :=
  match items with
  | [] => (pairs, seen)
  | it :: items' =>
      match it_nctId it with
      | Some nct =>
          if negb (py.truthy nct) || bool_decide (nct ∈ seen) then
            scan max_results items' pairs seen
          else
            let pairs := pairs ++ [it] in
            let seen := seen ∪ {[nct]} in
            if (max_results <=? len pairs)%Z then (pairs, seen)
            else scan max_results items' pairs seen
      | None => scan max_results items' pairs seen
      end
  end.

(** [aria_disabled and aria_disabled.lower() == "true"]; a raising
    [get_attribute] is passed over. *)
Definition reports_disabled (a : attribute) : bool :=
  match a with
  | Attr (Some v) => py.truthy v && bool_decide (py.lower v = str "true")
  | Attr None => false
  | AttrRaises => false
  end.

(** The [while len(pairs) < max_results] loop; [n] counts the scans
    done.  [None] when the loop is still running after [fuel] rounds. *)
Fixpoint paginate (fuel : nat) (max_results : Z) (b : browser) (n : nat)
    (pairs : list candidate) (seen : gset pystr) : option (list candidate) :=
  match fuel with
  | O => None
  | S fuel' =>
      if (len pairs <? max_results)%Z then
        let '(pairs, seen) :=
          scan max_results (_pairs_from_search_page (results b n)) pairs seen in
        if (max_results <=? len pairs)%Z then Some pairs
        else
          match next_btn (results b n) with
          | NoNext => Some pairs
          | Next aria click_ok =>
              if reports_disabled aria then Some pairs
              else if click_ok then paginate fuel' max_results b (S n) pairs seen
              else Some pairs
          end
      else Some pairs
  end.

(** [brief_title and "unknown status" in brief_title.lower()] *)
Definition unknown_status (brief_title : option pystr) : bool :=
  match brief_title with
  | Some t => py.truthy t && py.contains (str "unknown status") (py.lower t)
  | None => false
  end.

(** [a or b] on optional strings. *)
Definition or_else (a b : option pystr) : option pystr :=
  if py.truthy_opt a then a else b.

(** The [for it in pairs[:max_results]] loop; [n] is the position of
    the head of [its]. *)
Fixpoint visit (b : browser) (n : nat) (its : list candidate)
    (records : list record) (out : list diagnostic)
    : outcome (list record * list diagnostic) :=
  match its with
  | [] => Returned (records, out)
  | it :: its' =>
      match it_nctId it, it_url it with
      | Some nct_id, Some url =>
          if negb (py.truthy nct_id) || negb (py.truthy url) then
            visit b (S n) its' records out
          else
            match detail b n url with
            | DetailRaises => Raised
            | Detail brief_title overview =>
                let start_year := overview ≫= (λ t, _extract_year (_clean_text (Some t))) in
                if unknown_status brief_title then visit b (S n) its' records out
                else
                  let final_title := or_else brief_title (it_briefTitle it) in
                  let out :=
                    if negb (py.truthy_opt final_title)
                    then out ++ [WARN_TITLE_NONE nct_id url] else out in
                  visit b (S n) its'
                    (records ++ [Record_ nct_id final_title start_year (it_country it)]) out
            end
      | _, _ => visit b (S n) its' records out
      end
  end.

(** The candidates collected by the pagination loop. *)
Definition collect (fuel : nat) (max_results : Z) (b : browser) : option (list candidate) :=
  paginate fuel max_results b 0 [] ∅.

Definition scrape (fuel : nat) (max_results : Z) (b : browser) : option (outcome run) :=
  match collect fuel max_results b with
  | None => None
  | Some pairs =>
      match visit b 0 (py.slice_to pairs max_results) [] [] with
      | Raised => Some Raised
      | Returned (records, out) =>
          let written := py.slice_to records max_results in
          Some (Returned (Run written (len written) out))
      end
  end.

End playwright_scraper.

(** * analysis/api_client.py: start-year extraction *)
Module api_client.

(** The raw [date] value of the payload: absent, a string, or a list. *)
Inductive value : Type :=
  | VNone
  | VStr (s : pystr)
  | VList (xs : list pystr).

(** [(\d{4})] *)
Definition FOUR_DIGITS : list re.item :=
  [re.GOpen; re.Class re.d_; re.Class re.d_; re.Class re.d_; re.Class re.d_; re.GClose].

(** [str(value)] after the first element has replaced a non-empty list;
    an empty list prints as [[]]. *)
Definition to_str (v : value) : pystr :=
  match v with
  | VStr s => s
  | VList (x :: _) => x
  | VList [] => str "[]"
  | VNone => str "None"
  end.

Definition _extract_year (v : value) : option Z :=
  match v with
  | VNone => None
  | _ =>
      match re.search FOUR_DIGITS (to_str v) with
      | Some m => Some (py.int (re.group1 m))
      | None => None
      end
  end.

End api_client.

(** * analysis/geo.py: country canonicalisation *)
Module geo.

(** A library call returns or raises. *)
Inductive raising (A : Type) : Type :=
  | Ret (a : A)
  | Raises.
Arguments Ret {A} a.
Arguments Raises {A}.

Definition bind {A B} (m : raising A) (k : A → raising B) : raising B :=
  match m with Ret a => k a | Raises => Raises end.

(** [try: body  except Exception: handler] *)
Definition try_except {A} (body handler : raising A) : raising A :=
  match body with Ret a => Ret a | Raises => handler end.

(** What the function uses of its environment: [pycountry.countries],
    each call giving the [name] of the countries found or raising
    [LookupError], and [str.title]. *)
Record environment : Type := Environment {
  lookup : pystr → raising pystr;
  search_fuzzy : pystr → raising (list pystr);
  title : pystr → pystr }.

Definition _MANUAL_COUNTRY_MAP : gmap pystr pystr :=
  list_to_map [
    (str "USA", str "United States");
    (str "U.S.", str "United States");
    (str "U.S.A.", str "United States");
    (str "US", str "United States");
    (str "UK", str "United Kingdom");
    (str "U.K.", str "United Kingdom");
    (str "England", str "United Kingdom");
    (str "Korea, Republic of", str "South Korea");
    (str "People's Republic of China", str "China");
    (str "PRC", str "China");
    (str "Great Britain", str "United Kingdom") ].

Definition canonicalize_country (env : environment) (name : option pystr)
    : raising (option pystr) :=
  match name with
  | None => Ret None
  | Some name =>
      if negb (py.truthy name) then Ret None
      else
        let n := py.strip name in
        if negb (py.truthy n) then Ret None
        else
          match _MANUAL_COUNTRY_MAP !! n with
          | Some v => Ret (Some v)
          | None =>
              let fallback := Ret (Some (title env n)) in
              try_except
                (bind (lookup env n) (λ c, Ret (Some c)))
                (try_except
                   (bind (search_fuzzy env n) (λ found,
                      match found with
                      | first :: _ => Ret (Some first)
                      | [] => fallback
                      end))
                   fallback)
          end
  end.

(** Applying the function to its own result, as the dashboard does when
    it canonicalises an already canonicalised column. *)
Definition canonicalize_twice (env : environment) (name : option pystr)
    : raising (option pystr) :=
  bind (canonicalize_country env name) (canonicalize_country env).

End geo.

(** * analysis/playwright_runner.py: the supervised child process *)
Module playwright_runner.

(** The child as the runner can observe it.  Times are milliseconds
    since [start]; the runner's own steps take no time. *)
Record child : Type := Child {
  stdout : list (Z * pystr);   (* each line, with the time it can be read *)
  closes_at : Z;               (* end of file on the pipe *)
  exits_at : Z;                (* the time the child exits when left alone *)
  exit_code : Z;
  wait_error : pystr }.        (* text of the exception raised by proc.wait *)

Definition KILLED : pystr := str "Process killed due to timeout.".
Definition SIGKILL : Z := 9.

(** [line.rstrip("\n")] *)
Fixpoint rstrip_newline (line : pystr) : pystr :=
  match line with
  | c :: line' =>
      match rstrip_newline line' with
      | [] => if (c =? 0x0A)%N then [] else [c]
      | r => c :: r
      end
  | [] => []
  end.

(** [timeout and elapsed > timeout], the timeout being in seconds. *)
Definition expired (timeout : option Z) (now : Z) : bool :=
  match timeout with
  | Some t => negb (t =? 0)%Z && (t * 1000 <? now)%Z
  | None => false
  end.

(** The [for line in proc.stdout] loop: reading blocks until the next
    line is there; the timeout is looked at after a line has been read.
    The result tells whether the loop was left by [break]. *)
Fixpoint read_lines (timeout : option Z) (now : Z) (lines : list (Z * pystr))
    (logs : list pystr) : bool * Z * list pystr :=
  match lines with
  | [] => (false, now, logs)
  | (at_, line) :: lines' =>
      let now := Z.max now at_ in
      let logs := logs ++ [rstrip_newline line] in
      if expired timeout now then (true, now, logs ++ [KILLED])
      else read_lines timeout now lines' logs
  end.

(** (returncode, elapsed in milliseconds, logs_lines).  A killed child
    that had not exited reports the negated signal number; a child still
    running five seconds after the end of its output makes [proc.wait]
    raise, and its [returncode] stays undetermined. *)
Definition run_playwright_subprocess (c : child) (timeout : option Z)
    : Z * Z * list pystr :=
  let '(killed, now, logs) := read_lines timeout 0 (stdout c) [] in
  if killed then
    if (exits_at c <=? now)%Z then (exit_code c, now, logs)
    else (- SIGKILL, now, logs)%Z
  else
    let now := Z.max now (closes_at c) in
    if (exits_at c <=? now + 5000)%Z then (exit_code c, Z.max now (exits_at c), logs)
    else
      (-1, now + 5000,
       logs ++ [str "Exception while running playwright scraper: " ++ wait_error c])%Z.

End playwright_runner.

(** * analysis/api_client.py: the records of a payload *)
Module api_records.
Import geo.

(** A decoded JSON value.  Of a number the code uses its truth value and
    what [str] prints of it. *)
#[warnings="-register-all"]
Inductive json : Type :=
  | JNull
  | JBool (b : bool)
  | JNum (nonzero : bool) (text : pystr)
  | JStr (s : pystr)
  | JList (xs : list json)
  | JDict (items : list (pystr * json)).

(** Truth value: [if v], [a or b]. *)
Definition truthy (v : json) : bool :=
  match v with
  | JNull => false
  | JBool b => b
  | JNum nonzero _ => nonzero
  | JStr s => py.truthy s
  | JList xs => match xs with [] => false | _ :: _ => true end
  | JDict items => match items with [] => false | _ :: _ => true end
  end.

Fixpoint item (key : pystr) (items : list (pystr * json)) : option json :=
  match items with
  | (k, v) :: items' => if decide (k = key) then Some v else item key items'
  | [] => None
  end.

(** [d.get(key, default)]: only a dict has the method. *)
Definition get (d : json) (key : string) (default : json) : raising json :=
  match d with
  | JDict items => Ret (from_option id default (item (str key) items))
  | _ => Raises
  end.

(** [a or b], the second operand evaluated only when it is needed. *)
Definition or_ (a : json) (b : raising json) : raising json :=
  if truthy a then Ret a else b.

(** The record built for one study. *)
Record record : Type := Record_ {
  nctId : json;
  briefTitle : json;
  startYear : option Z;
  country : json }.

(** The argument of [_extract_year]: [py_str] is [str], which the
    function applies to what is neither absent nor a list, and to the
    first element of a list. *)
Definition date_value (py_str : json → pystr) (v : json) : api_client.value :=
  match v with
  | JNull => api_client.VNone
  | JStr s => api_client.VStr s
  | JList xs => api_client.VList (py_str <$> xs)
  | _ => api_client.VStr (py_str v)
  end.

Definition EMPTY : json := JDict [].

(** [s.get("protocolSection", {}).get(module, {})] *)
Definition section (s : json) (module : string) : raising json :=
  bind (get s "protocolSection" EMPTY) (λ ps, get ps module EMPTY).

(** [locs[0].get("country")] when [locs] is a non-empty list whose first
    element is a dict, [None] otherwise. *)
Definition first_country (locs : json) : raising json :=
  match locs with
  | JList (JDict first :: _) => get (JDict first) "country" JNull
  | _ => Ret JNull
  end.

(** The body of the loop over the studies. *)
Definition study_record (py_str : json → pystr) (s : json) : raising record :=
  bind (section s "identificationModule") (λ ident,
  bind (section s "designModule") (λ design,
  bind (bind (get ident "nctId" JNull) (λ a, or_ a (get ident "id" JNull))) (λ nct_id,
  bind (bind (get ident "briefTitle" JNull) (λ a, or_ a (get ident "officialTitle" JNull)))
       (λ brief_title,
  bind (bind (section s "contactsLocationsModule") (λ m,
        bind (get m "locations" JNull) (λ l, or_ l (Ret (JList []))))) (λ locs,
  bind (first_country locs) (λ country,
  bind (bind (section s "statusModule") (λ m,
        bind (get m "startDateStruct" EMPTY) (λ d, get d "date" JNull))) (λ start_date,
  Ret (Record_ nct_id brief_title
         (api_client._extract_year (date_value py_str start_date)) country)))))))).

Fixpoint each (py_str : json → pystr) (studies : list json) : raising (list record) :=
  match studies with
  | [] => Ret []
  | s :: studies' =>
      bind (study_record py_str s) (λ r,
      bind (each py_str studies') (λ rs, Ret (r :: rs)))
  end.

(** [for s in payload.get("studies", [])] with the records it appends:
    a list is gone through; a dict or a string is gone through by its
    keys or characters, none of which has [get]; nothing else can be
    iterated. *)
Definition records (py_str : json → pystr) (payload : json) : raising (list record) :=
  bind (get payload "studies" (JList [])) (λ studies,
    match studies with
    | JList xs => each py_str xs
    | JDict [] => Ret []
    | JStr [] => Ret []
    | _ => Raises
    end).

End api_records.

(** * Vocabulary of the statements *)
Module spec.

(** The longest prefix of [s] in the class [p], and what follows it. *)
Fixpoint run (p : N → bool) (s : pystr) : pystr :=
  match s with
  | c :: s' => if p c then c :: run p s' else []
  | [] => []
  end.

Fixpoint after (p : N → bool) (s : pystr) : pystr :=
  match s with
  | c :: s' => if p c then after p s' else s
  | [] => []
  end.

(** Every run of white space replaced by one space; [in_run] tells
    whether the character before was white space. *)
Fixpoint squeeze (in_run : bool) (s : pystr) : pystr :=
  match s with
  | c :: s' =>
      if unicode.isspace c then
        if in_run then squeeze true s' else 0x20%N :: squeeze true s'
      else c :: squeeze false s'
  | [] => []
  end.

(** The first steps of [_clean_text]: no-break spaces become spaces,
    byte-order marks and zero-width characters go. *)
Definition stage1 (s : pystr) : pystr :=
  filter (λ c, re.range 0x200B 0x200F c = false)
         (py.replace 0xFEFF [] (py.replace 0xA0 (str " ") s)).

(** A character that [_clean_text] leaves where it is. *)
Definition plain (c : N) : bool :=
  negb (unicode.isspace c) && negb (re.range 0x200B 0x200F c) && negb (c =? 0xFEFF)%N.

(** A character that is neither zero-width nor a byte-order mark, and
    such a character that, if it is white space, is the space itself. *)
Definition kept (c : N) : bool :=
  negb (re.range 0x200B 0x200F c) && negb (c =? 0xFEFF)%N.

Definition settled (c : N) : bool :=
  kept c && (negb (unicode.isspace c) || (c =? 0x20)%N).

(** No two white-space characters stand side by side; [after_space]
    tells whether the character before was one. *)
Fixpoint isolated (after_space : bool) (s : pystr) : bool :=
  match s with
  | c :: s' =>
      if unicode.isspace c then negb after_space && isolated true s'
      else isolated false s'
  | [] => true
  end.

(** The match of the identifier pattern at the head of [s], read off
    the text: the three letters, the white space, the digits. *)
Definition nct_at (prev : option N) (s : pystr) : option re.rmatch :=
  match s with
  | n :: c :: t :: s3 =>
      let ws := run re.s_ s3 in
      let digits := run re.d_ (after re.s_ s3) in
      let rest := after re.d_ (after re.s_ s3) in
      if re.boundary prev s && re.ilit 0x4E n && re.ilit 0x43 c && re.ilit 0x54 t
         && bool_decide (4 ≤ length digits) && re.boundary (last digits) rest
      then Some (re.Match ([n; c; t] ++ ws ++ digits) digits)
      else None
  | _ => None
  end.

(** [digits] is the number of an identifier that stands in [t]: after
    a word boundary the letters N, C, T in either case, white space or
    none, then four or more decimal digits up to a word boundary. *)
Definition nct_occurrence (t digits : pystr) : Prop :=
  ∃ pre n c t' ws post,
    t = pre ++ [n; c; t'] ++ ws ++ digits ++ post ∧
    re.ilit 0x4E n = true ∧ re.ilit 0x43 c = true ∧ re.ilit 0x54 t' = true ∧
    Forall (λ x, unicode.isspace x = true) ws ∧
    Forall (λ x, unicode.isdecimal x = true) digits ∧
    4 ≤ length digits ∧
    re.word_at (last pre) = false ∧ re.word_at (head post) = false.

(** The form [NCT] followed by one or more digits. *)
Definition nct_form (r : pystr) : Prop :=
  ∃ digits, r = str "NCT" ++ digits ∧ digits ≠ [] ∧
            Forall (λ x, unicode.isdecimal x = true) digits.

(** The rule in the words of the specification: the first place where
    N, C, T in either case are followed by one or more digits. *)
Fixpoint nct_then_digits (s : pystr) : option pystr :=
  match s with
  | n :: s' =>
      match s' with
      | c :: t :: s3 =>
          if re.ilit 0x4E n && re.ilit 0x43 c && re.ilit 0x54 t && py.truthy (run re.d_ s3)
          then Some (run re.d_ s3) else nct_then_digits s'
      | _ => None
      end
  | [] => None
  end.

Definition canonical_nct_as_stated (val : option pystr) : option pystr :=
  match playwright_scraper._clean_text val with
  | None => None
  | Some s =>
      if negb (py.truthy s) then None
      else match nct_then_digits s with
           | Some digits => Some (str "NCT" ++ digits)
           | None => Some s
           end
  end.

(** The first four consecutive decimal digits of [s]. *)
Fixpoint first_four_digits (s : pystr) : option pystr :=
  match s with
  | a :: s' =>
      match s' with
      | b :: c :: d :: _ =>
          if re.d_ a && re.d_ b && re.d_ c && re.d_ d then Some [a; b; c; d]
          else first_four_digits s'
      | _ => None
      end
  | [] => None
  end.

(** The token [a b c d] is 19xx or 20xx and stands between word
    boundaries: [prev] is the character before it, [rest] the text after. *)
Definition stands_alone (prev : option N) (a b c d : N) (rest : pystr) : bool :=
  negb (re.word_at prev)
  && (bool_decide ([a; b] = str "19") || bool_decide ([a; b] = str "20"))
  && re.d_ c && re.d_ d && negb (re.word_at (head rest)).

(** The first token of [s] that stands alone so; [prev] is the
    character before [s]. *)
Fixpoint standalone_year (prev : option N) (s : pystr) : option pystr :=
  match s with
  | a :: s' =>
      match s' with
      | b :: c :: d :: rest =>
          if stands_alone prev a b c d rest then Some [a; b; c; d]
          else standalone_year (Some a) s'
      | _ => None
      end
  | [] => None
  end.

Section run_vocabulary.
Import playwright_scraper.

(** The identifiers of [pairs] are pairwise distinct, present and all in
    the seen-set. *)
Definition distinct_seen (pairs : list candidate) (seen : gset pystr) : Prop :=
  NoDup (it_nctId <$> pairs) ∧
  ∀ it, it ∈ pairs → ∃ nct, it_nctId it = Some nct ∧ nct ∈ seen.

(** [r] is the record of the candidate at position [i] of [its]. *)
Definition emitted_from (b : browser) (n : nat) (its : list candidate) (r : record) : Prop :=
  ∃ i it url brief_title overview,
    its !! i = Some it ∧ it_nctId it = Some (nctId r) ∧
    it_url it = Some url ∧ py.truthy url = true ∧
    detail b (n + i) url = Detail brief_title overview ∧
    unknown_status brief_title = false ∧
    briefTitle r = or_else brief_title (it_briefTitle it).

Definition warned_from (its : list candidate) (d : diagnostic) : Prop :=
  match d with
  | WARN_TITLE_NONE nct_id url =>
      ∃ it, it ∈ its ∧ it_nctId it = Some nct_id ∧ it_url it = Some url ∧ py.truthy url = true
  end.

End run_vocabulary.

(** [needle] occurs in [t] in some letter case: a stretch of [t] lowers,
    character by character, to [needle]. *)
Definition contains_anycase (needle t : pystr) : Prop :=
  ∃ pre mid post, t = pre ++ mid ++ post ∧
                  Forall2 (λ c a, unicode.lower c = [a]) mid needle.

(** The title of the emitted record: the detail-view title when there
    is one, otherwise the title of the result list. *)
Definition resolved_title (detail_title list_title : option pystr) : option pystr :=
  playwright_scraper.or_else detail_title list_title.

(** What the specification asks of a run whose child outlives the
    timeout [t] (seconds): a failed status, an elapsed time near [t]
    (here: before the child's own end) and the line of the kill. *)
Definition timeout_enforced (c : playwright_runner.child) (t : Z)
    (r : Z * Z * list pystr) : Prop :=
  let '(returncode, elapsed, logs) := r in
  returncode ≠ 0%Z ∧ (elapsed < playwright_runner.exits_at c)%Z ∧
  playwright_runner.KILLED ∈ logs.

End spec.

(** * Concrete inputs *)
Module samples.
Import playwright_scraper.

Definition item (nct : string) (url : option string) (title : option string) : raw_item :=
  Raw (Some (str nct)) (str <$> url) (Some (str "United States")) (str <$> title).

(** A result list of one page, whose detail views all give [view]. *)
Definition one_page (items : list raw_item) (view : detail_view) : browser :=
  Browser (λ _, Snapshot true (Some items) NoNext) (λ _ _, view).

(** Three results, one of them listed twice. *)
Definition listing : browser :=
  one_page
    [ item "NCT00000001" (Some "/study/NCT00000001") (Some "First");
      item "nct 00000001" (Some "/study/NCT00000001") (Some "First");
      item "NCT00000002" (Some "/study/NCT00000002") (Some "Second");
      item "NCT00000003" (Some "/study/NCT00000003") (Some "Third") ]
    (Detail (Some (str "Detail title")) (Some (str "2014-03"))).

(** The marker stands in the title of the result list only; the detail
    view resolves no title. *)
Definition marked_in_list : browser :=
  one_page
    [ item "NCT00000001" (Some "/study/NCT00000001") (Some "Aspirin (Unknown status)") ]
    (Detail None None).

(** The marker stands in the detail-view title. *)
Definition marked_in_detail : browser :=
  one_page
    [ item "NCT00000001" (Some "/study/NCT00000001") (Some "Aspirin") ]
    (Detail (Some (str "Aspirin [UNKNOWN Status]")) None).

(** The first result has no link; the second has one. *)
Definition unlinked_first : browser :=
  one_page
    [ item "NCT00000001" None None;
      item "NCT00000002" (Some "/study/NCT00000002") (Some "Second") ]
    (Detail (Some (str "Second")) None).

(** A result whose identifier element holds no NCT number. *)
Definition odd_identifier : browser :=
  one_page [ item "study NCT123" (Some "/study/x") (Some "Odd") ] (Detail None None).

(** An excerpt of pycountry: four countries, each found under its codes
    and names in any case; nothing else is found. *)
Definition countries : list (list pystr * pystr) := [
  ([str "kr"; str "kor"; str "410"; str "korea, republic of"], str "Korea, Republic of");
  ([str "gb"; str "gbr"; str "826"; str "united kingdom";
    str "united kingdom of great britain and northern ireland"], str "United Kingdom");
  ([str "us"; str "usa"; str "840"; str "united states";
    str "united states of america"], str "United States");
  ([str "cn"; str "chn"; str "156"; str "china";
    str "people's republic of china"], str "China") ].

Definition pycountry_excerpt : geo.environment :=
  geo.Environment
    (λ n, match find (λ e, bool_decide (py.lower n ∈ e.1)) countries with
          | Some e => geo.Ret e.2
          | None => geo.Raises
          end)
    (λ _, geo.Raises)
    py.title_ascii.

(** A child that prints nothing, sleeps ten seconds and exits with 0. *)
Definition sleeper : playwright_runner.child :=
  playwright_runner.Child [] 10000 10000 0 [].

(** A child that prints a line every half second for ten seconds. *)
Definition chatty : playwright_runner.child :=
  playwright_runner.Child
    ((λ n, (500 * Z.of_nat n, str "tick" ++ [0x0A%N])%Z) <$> seq 1 20) 10000 10000 0 [].

End samples.

(** * Vocabulary of the further properties *)
Module vocabulary.

Section of_the_run.
Import playwright_scraper.

(** Where a collected candidate comes from: a scanned snapshot gave it,
    with an identifier that is not empty. *)
Definition scanned (b : browser) (it : candidate) : Prop :=
  (∃ n, it ∈ _pairs_from_search_page (results b n)) ∧
  ∃ nct, it_nctId it = Some nct ∧ nct ≠ [].

(** The snapshot ends the pagination: no control, a control that
    reports itself disabled, or one whose click fails. *)
Definition last_page (page : snapshot) : Prop :=
  match next_btn page with
  | NoNext => True
  | Next aria click_ok => reports_disabled aria = true ∨ click_ok = false
  end.

(** The candidate can be visited: it has an identifier and a link. *)
Definition linked (it : candidate) : Prop :=
  py.truthy_opt (it_nctId it) = true ∧ py.truthy_opt (it_url it) = true.

(** The record has the identifier and the country of one of the
    candidates, and a start year read by [_extract_year], if any. *)
Definition record_from (its : list candidate) (r : record) : Prop :=
  (∃ it, it ∈ its ∧ it_nctId it = Some (nctId r) ∧ country r = it_country it) ∧
  (startYear r = None ∨ ∃ text, startYear r = _extract_year text).

(** The record has no title: [not final_title]. *)
Definition untitled (r : record) : Prop := py.truthy_opt (briefTitle r) = false.

(** [val] is the text of an identifier element of the result list: the
    [nct] of an object that the script evaluated on a snapshot returned,
    the [.nct-id] selector having been waited for with success. *)
Definition identifier_element (b : browser) (val : option pystr) : Prop :=
  ∃ n raw, nct_id_visible (results b n) = true ∧
           raw ∈ default [] (evaluated (results b n)) ∧ r_nct raw = val.

(** Four or more decimal digits. *)
Definition four_or_more_digits (digits : pystr) : Prop :=
  4 ≤ length digits ∧ Forall (λ x, unicode.isdecimal x = true) digits.

End of_the_run.

Section of_the_runner.
Import playwright_runner.

(** The time at which the last of [lines] has been read, reading from
    [now] on. *)
Definition read_until (now : Z) (lines : list (Z * pystr)) : Z :=
  foldl (λ now l, Z.max now l.1) now lines.

(** No timeout: [None], or 0. *)
Definition falsy (timeout : option Z) : Prop := timeout = None ∨ timeout = Some 0%Z.

(** No line is read late: at the time each line can be read, counted
    from the start, the test [timeout and elapsed > timeout] fails. *)
Definition on_time (timeout : option Z) (lines : list (Z * pystr)) : Prop :=
  Forall (λ l, expired timeout (Z.max 0 l.1) = false) lines.

End of_the_runner.

Section of_the_payload.
Import api_records.

Definition absent_or_dict (o : option json) : Prop :=
  match o with
  | None | Some (JDict _) => True
  | Some _ => False
  end.

(** The study is an object, and so is each of the sections that the
    code goes through, where it is present. *)
Definition well_nested (s : json) : Prop :=
  match s with
  | JDict items =>
      match item (str "protocolSection") items with
      | None => True
      | Some (JDict ps) =>
          absent_or_dict (item (str "identificationModule") ps) ∧
          absent_or_dict (item (str "contactsLocationsModule") ps) ∧
          match item (str "statusModule") ps with
          | None => True
          | Some (JDict sm) => absent_or_dict (item (str "startDateStruct") sm)
          | Some _ => False
          end
      | Some _ => False
      end
  | _ => False
  end.

End of_the_payload.

End vocabulary.

(** * Further concrete inputs *)
Module more_samples.
Import playwright_scraper api_records.


(** The result list of [samples.listing], with a third detail view that
    raises. *)
Definition third_raises : browser :=
  Browser (results samples.listing)
          (λ n _, if decide (n = 2) then DetailRaises else Detail None None).

(** [str] on the values that the examples pass to it: scalars. *)
Definition str_of (v : json) : pystr :=
  match v with
  | JNull => str "None"
  | JBool true => str "True"
  | JBool false => str "False"
  | JNum _ text => text
  | JStr s => s
  | JList _ => str "[]"
  | JDict _ => str "{}"
  end.

Definition dict (items : list (string * json)) : json :=
  JDict ((λ kv, (str kv.1, kv.2)) <$> items).

(** A study with every section. *)
Definition full_study : json :=
  dict [("protocolSection", dict [
    ("identificationModule", dict [
       ("nctId", JStr (str "NCT00000001")); ("briefTitle", JStr (str "Aspirin"))]);
    ("statusModule", dict [
       ("startDateStruct", dict [("date", JStr (str "2014-03"))])]);
    ("contactsLocationsModule", dict [
       ("locations", JList [dict [("country", JStr (str "France"))];
                            dict [("country", JStr (str "Spain"))]])])])].

(** A study without locations and without a start date. *)
Definition bare_study : json :=
  dict [("protocolSection", dict [
    ("identificationModule", dict [("id", JStr (str "NCT00000002"))])])].

(** A study whose protocolSection is null. *)
Definition null_study : json := dict [("protocolSection", JNull)].

Definition payload (studies : list json) : json := dict [("studies", JList studies)].

End more_samples.

(** * Properties *)

(** ** Slices and lists *)

Lemma slice_to_take {A} (xs : list A) (m : Z) : ∃ k, py.slice_to xs m = take k xs.
Proof. unfold py.slice_to. destruct (0 <=? m)%Z; eauto. Qed.

Lemma slice_to_sublist {A} (xs : list A) (m : Z) : py.slice_to xs m `sublist_of` xs.
Proof. destruct (slice_to_take xs m) as [k ->]. apply sublist_take. Qed.

Lemma slice_to_elem_of {A} (xs : list A) (m : Z) x : x ∈ py.slice_to xs m → x ∈ xs.
Proof.
  intros H. eapply elem_of_submseteq; [exact H |].
  apply sublist_submseteq, slice_to_sublist.
Qed.

Lemma NoDup_fmap_eq {A B} (f : A → B) (l : list A) x y :
  NoDup (f <$> l) → x ∈ l → y ∈ l → f x = f y → x = y.
Proof.
  induction l as [| a l IH]; intros Hnd Hx Hy Hf; [inversion Hx |].
  rewrite fmap_cons in Hnd. apply NoDup_cons in Hnd as [Hnotin Hnd].
  apply elem_of_cons in Hx as [-> | Hx]; apply elem_of_cons in Hy as [-> | Hy]; auto.
  - exfalso. apply Hnotin. rewrite Hf. apply list_elem_of_fmap. eauto.
  - exfalso. apply Hnotin. rewrite <- Hf. apply list_elem_of_fmap. eauto.
Qed.

(** ** The pagination loop keeps the identifiers of the candidates apart *)
Section collecting.
Import playwright_scraper spec.

Lemma distinct_seen_empty : distinct_seen [] ∅.
Proof. split; [constructor | intros it H; inversion H]. Qed.

Lemma distinct_seen_add pairs seen it nct :
  distinct_seen pairs seen → it_nctId it = Some nct → nct ∉ seen →
  distinct_seen (pairs ++ [it]) (seen ∪ {[nct]}).
Proof.
  intros [Hnd Hin] Hit Hfresh. split.
  - rewrite fmap_app. apply NoDup_app. split_and!; [done | | apply NoDup_singleton].
    intros o Ho Hsingle. apply list_elem_of_fmap in Ho as (it' & -> & Hit').
    simpl in Hsingle. apply list_elem_of_singleton in Hsingle.
    destruct (Hin it' Hit') as (nct' & Hnct' & Hseen). congruence.
  - intros it' Hit'. apply elem_of_app in Hit' as [Hold | Hnew].
    + destruct (Hin it' Hold) as (nct' & ? & ?). exists nct'. split; [done | set_solver].
    + apply list_elem_of_singleton in Hnew as ->. exists nct. split; [done | set_solver].
Qed.

Lemma scan_distinct max_results items : ∀ pairs seen pairs' seen',
  distinct_seen pairs seen →
  scan max_results items pairs seen = (pairs', seen') →
  distinct_seen pairs' seen'.
Proof.
  induction items as [| it items IH]; intros pairs seen pairs' seen' Hinv Hscan; simpl in Hscan.
  - by inversion Hscan; subst.
  - destruct (it_nctId it) as [nct |] eqn:Hnct; [| by eapply IH].
    destruct (negb (py.truthy nct) || bool_decide (nct ∈ seen)) eqn:Hskip; [by eapply IH |].
    apply orb_false_elim in Hskip as [_ Hfresh]. apply bool_decide_eq_false in Hfresh.
    pose proof (distinct_seen_add _ _ _ _ Hinv Hnct Hfresh) as Hinv'.
    destruct (max_results <=? len (pairs ++ [it]))%Z; [by inversion Hscan; subst | by eapply IH].
Qed.

Lemma paginate_distinct fuel max_results b : ∀ n pairs seen pairs',
  distinct_seen pairs seen →
  paginate fuel max_results b n pairs seen = Some pairs' →
  ∃ seen', distinct_seen pairs' seen'.
Proof.
  induction fuel as [| fuel IH]; intros n pairs seen pairs' Hinv Hrun; simpl in Hrun; [done |].
  destruct (len pairs <? max_results)%Z; [| inversion Hrun; subst; eauto].
  destruct (scan _ _ pairs seen) as [pairs1 seen1] eqn:Hscan.
  pose proof (scan_distinct _ _ _ _ _ _ Hinv Hscan) as Hinv1.
  destruct (max_results <=? len pairs1)%Z; [inversion Hrun; subst; eauto |].
  destruct (next_btn _) as [| aria click_ok]; [inversion Hrun; subst; eauto |].
  destruct (reports_disabled aria); [inversion Hrun; subst; eauto |].
  destruct click_ok; [by eapply IH | inversion Hrun; subst; eauto].
Qed.

Lemma collect_distinct fuel max_results b pairs :
  collect fuel max_results b = Some pairs → NoDup (it_nctId <$> pairs).
Proof.
  intros Hrun. destruct (paginate_distinct _ _ _ _ _ _ _ distinct_seen_empty Hrun) as [? [? _]].
  done.
Qed.

(** ** What the detail loop emits *)

Lemma emitted_from_cons b n it its r :
  emitted_from b (S n) its r → emitted_from b n (it :: its) r.
Proof.
  intros (i & it' & url & t & ov & Hi & ?). exists (S i), it', url, t, ov.
  replace (n + S i) with (S n + i) by lia. done.
Qed.

Lemma warned_from_cons it its d : warned_from its d → warned_from (it :: its) d.
Proof. destruct d. intros (it' & ? & ?). exists it'. split; [by right | done]. Qed.

Lemma visit_emits b its : ∀ n records out records' out',
  visit b n its records out = Returned (records', out') →
  ∃ added warned,
    records' = records ++ added ∧ out' = out ++ warned ∧
    (Some ∘ nctId <$> added) `sublist_of` (it_nctId <$> its) ∧
    Forall (emitted_from b n its) added ∧ Forall (warned_from its) warned.
Proof.
  induction its as [| it its IH]; intros n records out records' out' Hrun; simpl in Hrun.
  - inversion Hrun; subst. exists [], []. rewrite !app_nil_r. split_and!; done.
  - assert (Hskip : visit b (S n) its records out = Returned (records', out') →
      ∃ added warned,
        records' = records ++ added ∧ out' = out ++ warned ∧
        (Some ∘ nctId <$> added) `sublist_of` (it_nctId <$> it :: its) ∧
        Forall (emitted_from b n (it :: its)) added ∧ Forall (warned_from (it :: its)) warned).
    { intros Hrest. destruct (IH _ _ _ _ _ Hrest) as (added & warned & -> & -> & Hsub & Hem & Hw).
      exists added, warned. split_and!; [done | done | | |].
      - rewrite fmap_cons. by apply sublist_cons.
      - eapply Forall_impl; [exact Hem | intros r; apply emitted_from_cons].
      - eapply Forall_impl; [exact Hw | intros d; apply warned_from_cons]. }
    destruct (it_nctId it) as [nct_id |] eqn:Hnct; [| by apply Hskip].
    destruct (it_url it) as [url |] eqn:Hurl; [| by apply Hskip].
    destruct (negb (py.truthy nct_id) || negb (py.truthy url)) eqn:Hfalsy; [by apply Hskip |].
    apply orb_false_elim in Hfalsy as [_ Hurl_ok]. apply negb_false_iff in Hurl_ok.
    destruct (detail b n url) as [| brief_title overview] eqn:Hdetail; [done |].
    destruct (unknown_status brief_title) eqn:Hmark; [by apply Hskip |].
    destruct (IH _ _ _ _ _ Hrun) as (added & warned & -> & -> & Hsub & Hem & Hw).
    set (r := Record_ nct_id (or_else brief_title (it_briefTitle it)) _ (it_country it)).
    assert (Hr : emitted_from b n (it :: its) r).
    { exists 0, it, url, brief_title, overview. rewrite Nat.add_0_r. by split_and!. }
    exists (r :: added),
      ((if negb (py.truthy_opt (or_else brief_title (it_briefTitle it)))
        then [WARN_TITLE_NONE nct_id url] else []) ++ warned).
    split_and!.
    + by rewrite <- app_assoc.
    + destruct (negb (py.truthy_opt _)); [by rewrite <- app_assoc | done].
    + rewrite !fmap_cons, Hnct. by apply sublist_skip.
    + constructor; [done |].
      eapply Forall_impl; [exact Hem | intros r'; apply emitted_from_cons].
    + apply Forall_app. split.
      * destruct (negb (py.truthy_opt _)); [| done].
        constructor; [| done]. exists it. split_and!; [by left | done..].
      * eapply Forall_impl; [exact Hw | intros d; apply warned_from_cons].
Qed.

(** A run that returns, taken apart. *)
Lemma scrape_returned fuel max_results b out :
  scrape fuel max_results b = Some (Returned out) →
  ∃ pairs records,
    collect fuel max_results b = Some pairs ∧
    visit b 0 (py.slice_to pairs max_results) [] [] = Returned (records, printed out) ∧
    artifact out = py.slice_to records max_results ∧
    count out = len (artifact out).
Proof.
  unfold scrape. intros Hrun.
  destruct (collect fuel max_results b) as [pairs |]; [| done].
  destruct (visit _ _ _ _ _) as [[records out'] |] eqn:Hvisit; [| done].
  inversion Hrun; subst; simpl. eauto 10.
Qed.

End collecting.

(** ** The output of a run *)
Section output.
Import playwright_scraper spec.

Lemma artifact_elem_of fuel max_results b out r :
  scrape fuel max_results b = Some (Returned out) → r ∈ artifact out →
  ∃ pairs, collect fuel max_results b = Some pairs ∧
           emitted_from b 0 (py.slice_to pairs max_results) r.
Proof.
  intros Hrun Hr.
  destruct (scrape_returned _ _ _ _ Hrun) as (pairs & records & Hcollect & Hvisit & Hart & _).
  destruct (visit_emits _ _ _ _ _ _ _ Hvisit) as (added & warned & Hrec & _ & _ & Hem & _).
  simpl in Hrec. subst records. exists pairs. split; [done |].
  rewrite Hart in Hr. apply slice_to_elem_of in Hr.
  by eapply Forall_forall in Hem.
Qed.

Lemma printed_elem_of fuel max_results b out d :
  scrape fuel max_results b = Some (Returned out) → d ∈ printed out →
  ∃ pairs, collect fuel max_results b = Some pairs ∧
           warned_from (py.slice_to pairs max_results) d.
Proof.
  intros Hrun Hd.
  destruct (scrape_returned _ _ _ _ Hrun) as (pairs & records & Hcollect & Hvisit & _).
  destruct (visit_emits _ _ _ _ _ _ _ Hvisit) as (added & warned & _ & Hout & _ & _ & Hw).
  simpl in Hout. exists pairs. split; [done |].
  rewrite Hout in Hd. by eapply Forall_forall in Hw.
Qed.

(** C5: the identifiers of the records that one run writes are pairwise
    distinct. *)
Theorem scrape_ids_distinct fuel max_results b out :
  scrape fuel max_results b = Some (Returned out) →
  NoDup (nctId <$> artifact out).
Proof.
  intros Hrun.
  destruct (scrape_returned _ _ _ _ Hrun) as (pairs & records & Hcollect & Hvisit & Hart & _).
  destruct (visit_emits _ _ _ _ _ _ _ Hvisit) as (added & warned & Hrec & _ & Hsub & _).
  simpl in Hrec. subst records. rewrite Hart.
  eapply sublist_NoDup; [| apply fmap_sublist, slice_to_sublist].
  apply (NoDup_fmap_1 Some). rewrite <- list_fmap_compose.
  eapply sublist_NoDup; [| exact Hsub].
  eapply sublist_NoDup; [| apply fmap_sublist, slice_to_sublist].
  by eapply collect_distinct.
Qed.

Lemma scrape_ids_distinct_witness :
  ∃ out, scrape 5 10 samples.listing = Some (Returned out) ∧
         length (artifact out) = 3 ∧ NoDup (nctId <$> artifact out).
Proof.
  eexists. split; [vm_compute; reflexivity |]. split; [reflexivity |].
  apply (scrape_ids_distinct 5 10 samples.listing). vm_compute; reflexivity.
Defined.

(** The test of the source holds of every title in which the marker
    stands in some letter case. *)
Lemma lower_app s1 s2 : py.lower (s1 ++ s2) = py.lower s1 ++ py.lower s2.
Proof. unfold py.lower. apply bind_app. Qed.

Lemma lower_stretch mid needle :
  Forall2 (λ c a, unicode.lower c = [a]) mid needle → py.lower mid = needle.
Proof.
  induction 1 as [| c a mid needle Hc _ IH]; [done |].
  unfold py.lower in *. rewrite bind_cons, Hc, IH. done.
Qed.

Lemma startswith_app p s : py.startswith (p ++ s) p = true.
Proof. induction p as [| a p IH]; [by destruct s |]. simpl. by rewrite N.eqb_refl. Qed.

Lemma contains_here needle s : py.startswith s needle = true → py.contains needle s = true.
Proof. intros H. destruct s; cbn [py.contains]; by rewrite H. Qed.

Lemma contains_app needle pre post :
  py.contains needle (pre ++ needle ++ post) = true.
Proof.
  induction pre as [| c pre IH].
  - rewrite app_nil_l. apply contains_here, startswith_app.
  - cbn [app py.contains]. rewrite IH. apply orb_true_r.
Qed.

Lemma unknown_status_anycase t :
  contains_anycase (str "unknown status") t → unknown_status (Some t) = true.
Proof.
  intros (pre & mid & post & -> & Hmid). unfold unknown_status.
  rewrite !lower_app, (lower_stretch _ _ Hmid), contains_app, andb_true_r.
  apply Forall2_length in Hmid. by destruct pre, mid.
Qed.

(** C6, as the code has it: a candidate whose detail view resolves a
    title that contains "unknown status" in some letter case leaves no
    record in the output. *)
Theorem unknown_status_detail_excluded fuel max_results b pairs out i it nct url t overview :
  collect fuel max_results b = Some pairs →
  scrape fuel max_results b = Some (Returned out) →
  py.slice_to pairs max_results !! i = Some it →
  it_nctId it = Some nct → it_url it = Some url →
  detail b i url = Detail (Some t) overview →
  contains_anycase (str "unknown status") t →
  nct ∉ (nctId <$> artifact out).
Proof.
  intros Hcollect Hrun Hi Hnct Hurl Hdetail Hmark Hin.
  apply list_elem_of_fmap in Hin as (r & -> & Hr).
  destruct (artifact_elem_of _ _ _ _ _ Hrun Hr) as (pairs' & Hcollect' & Hem).
  assert (pairs' = pairs) as -> by congruence.
  destruct Hem as (j & it' & url' & t' & ov' & Hj & Hnct' & Hurl' & _ & Hdetail' & Hkeep & _).
  assert (Hnd : NoDup (it_nctId <$> py.slice_to pairs max_results)).
  { eapply sublist_NoDup; [by eapply collect_distinct | apply fmap_sublist, slice_to_sublist]. }
  assert (j = i) as ->.
  { eapply NoDup_lookup; [exact Hnd | |]; rewrite list_lookup_fmap.
    - rewrite Hj. simpl. by rewrite Hnct'.
    - rewrite Hi. simpl. by rewrite Hnct. }
  assert (it' = it) as -> by congruence.
  assert (url' = url) as -> by congruence.
  simpl in Hdetail'. rewrite Hdetail in Hdetail'. inversion Hdetail'; subst.
  by rewrite (unknown_status_anycase _ Hmark) in Hkeep.
Qed.

Lemma unknown_status_detail_excluded_witness :
  ∃ out, scrape 5 10 samples.marked_in_detail = Some (Returned out) ∧
         str "NCT00000001" ∉ (nctId <$> artifact out).
Proof.
  eexists. split; [vm_compute; reflexivity |].
  eapply (unknown_status_detail_excluded 5 10%Z samples.marked_in_detail _ _ 0);
    [vm_compute; reflexivity | vm_compute; reflexivity | reflexivity | reflexivity
    | reflexivity | reflexivity |].
  exists (str "Aspirin ["), (str "UNKNOWN Status"), (str "]").
  split; [reflexivity |]. repeat constructor.
Defined.

(** C6 fails as stated: the marker in the title of the result list does
    not exclude the candidate when the detail view resolves no title, and
    the record goes out under that title. *)
Lemma unknown_status_list_title_emitted :
  ∃ it out r t,
    collect 5 10 samples.marked_in_list = Some [it] ∧
    scrape 5 10 samples.marked_in_list = Some (Returned out) ∧
    r ∈ artifact out ∧
    resolved_title None (it_briefTitle it) = Some t ∧
    contains_anycase (str "unknown status") t ∧
    briefTitle r = Some t.
Proof.
  eexists _, _, _, _. split; [vm_compute; reflexivity |].
  split; [vm_compute; reflexivity |].
  split; [apply list_elem_of_singleton; reflexivity |].
  split; [reflexivity |]. split; [| reflexivity].
  exists (str "Aspirin ("), (str "Unknown status"), (str ")").
  split; [reflexivity |]. repeat constructor.
Qed.

(** C10: a collected candidate without a link leaves neither a record
    nor a diagnostic line, and a run can so return fewer records than it
    collected candidates although the result list held enough linked
    results. *)
Theorem unlinked_candidate_dropped :
  (∀ fuel max_results b pairs out it nct,
     collect fuel max_results b = Some pairs →
     scrape fuel max_results b = Some (Returned out) →
     it ∈ pairs → it_nctId it = Some nct → py.truthy_opt (it_url it) = false →
     (nct ∉ (nctId <$> artifact out)) ∧ (∀ url, WARN_TITLE_NONE nct url ∉ printed out)) ∧
  (∃ fuel max_results b pairs out,
     collect fuel max_results b = Some pairs ∧
     scrape fuel max_results b = Some (Returned out) ∧
     (count out < len pairs)%Z ∧
     (max_results ≤ len (filter (λ it, py.truthy_opt (it_url it) = true)
                                (_pairs_from_search_page (results b 0))))%Z).
Proof.
  split.
  - intros fuel max_results b pairs out it nct Hcollect Hrun Hit Hnct Hurl.
    pose proof (collect_distinct _ _ _ _ Hcollect) as Hnd.
    assert (Hsame : ∀ it', it' ∈ py.slice_to pairs max_results →
                           it_nctId it' = Some nct → it' = it).
    { intros it' Hit' Hnct'. eapply (NoDup_fmap_eq it_nctId); [exact Hnd | | done | congruence].
      by eapply slice_to_elem_of. }
    split.
    + intros Hin. apply list_elem_of_fmap in Hin as (r & -> & Hr).
      destruct (artifact_elem_of _ _ _ _ _ Hrun Hr) as (pairs' & Hcollect' & Hem).
      assert (pairs' = pairs) as -> by congruence.
      destruct Hem as (j & it' & url' & _ & _ & Hj & Hnct' & Hurl' & Hok & _).
      apply list_elem_of_lookup_2 in Hj.
      rewrite (Hsame it' Hj Hnct') in Hurl'. rewrite Hurl' in Hurl. simpl in Hurl. congruence.
    + intros url Hd.
      destruct (printed_elem_of _ _ _ _ _ Hrun Hd) as (pairs' & Hcollect' & Hw).
      assert (pairs' = pairs) as -> by congruence.
      destruct Hw as (it' & Hit' & Hnct' & Hurl' & Hok).
      rewrite (Hsame it' Hit' Hnct') in Hurl'. rewrite Hurl' in Hurl. simpl in Hurl. congruence.
  - exists 5, 1%Z, samples.unlinked_first. eexists _, _.
    split; [vm_compute; reflexivity |]. split; [vm_compute; reflexivity |].
    split; vm_compute; congruence.
Qed.

Lemma unlinked_candidate_dropped_witness :
  ∃ pairs out,
    collect 5 1 samples.unlinked_first = Some pairs ∧
    scrape 5 1 samples.unlinked_first = Some (Returned out) ∧
    (str "NCT00000001" ∉ (nctId <$> artifact out)) ∧
    (∀ url, WARN_TITLE_NONE (str "NCT00000001") url ∉ printed out).
Proof.
  eexists _, _. split; [vm_compute; reflexivity |]. split; [vm_compute; reflexivity |].
  eapply (proj1 unlinked_candidate_dropped 5 1%Z samples.unlinked_first);
    [vm_compute; reflexivity | vm_compute; reflexivity
    | apply list_elem_of_singleton; reflexivity | reflexivity | reflexivity].
Defined.

End output.

(** ** The runner *)
Section runner.
Import playwright_runner.

(** The timeout is looked at only when a line has been read: a child
    that prints nothing is never killed, whatever the timeout. *)
Lemma silent_child_never_killed c timeout :
  stdout c = [] →
  let '(returncode, elapsed, logs) := run_playwright_subprocess c timeout in
  (KILLED ∉ logs) ∧ (closes_at c ≤ Z.max 0 elapsed)%Z.
Proof.
  intros Hsilent. unfold run_playwright_subprocess. rewrite Hsilent. simpl.
  destruct (exits_at c <=? Z.max 0 (closes_at c) + 5000)%Z.
  - split; [apply not_elem_of_nil | lia].
  - split; [| lia]. intros Hin. apply list_elem_of_singleton in Hin.
    apply (f_equal (λ s, take 3 s)) in Hin. vm_compute in Hin. discriminate.
Qed.

(** C1, at a timeout of one second and a child that prints nothing and
    exits with 0 after ten seconds: the runner returns status 0 after
    ten seconds with an empty log, none of which the claim allows. *)
Theorem silent_child_outlives_timeout :
  run_playwright_subprocess samples.sleeper (Some 1%Z) = (0, 10000, [])%Z ∧
  ¬ spec.timeout_enforced samples.sleeper 1
      (run_playwright_subprocess samples.sleeper (Some 1%Z)).
Proof.
  split; [reflexivity |]. intros (Hfailed & _). by apply Hfailed.
Qed.

End runner.

(** ** Country canonicalisation *)
Section country.
Import geo.

Lemma canonicalize_country_returns env name : ∃ r, canonicalize_country env name = Ret r.
Proof.
  unfold canonicalize_country. destruct name as [name |]; [| eauto].
  destruct (negb (py.truthy name)); [eauto |].
  destruct (negb (py.truthy (py.strip name))); [eauto |].
  destruct (_MANUAL_COUNTRY_MAP !! py.strip name); [eauto |].
  destruct (lookup env (py.strip name)); simpl; [eauto |].
  destruct (search_fuzzy env (py.strip name)) as [[| first found] |]; simpl; eauto.
Qed.

Lemma canonicalize_country_fixes env y :
  y ≠ [] → py.strip y = y → _MANUAL_COUNTRY_MAP !! y = None → lookup env y = Ret y →
  canonicalize_country env (Some y) = Ret (Some y).
Proof.
  intros Hne Hstrip Hmanual Hlookup. unfold canonicalize_country.
  rewrite Hstrip, Hmanual, Hlookup. by destruct y.
Qed.

(** C9: the function always returns, a string or absent, but it is not
    idempotent: the ISO code KR is resolved to pycountry's own name
    "Korea, Republic of", a key of the alias table, which the function
    rewrites to "South Korea" when it is applied to its result. *)
Theorem canonicalize_country_not_idempotent :
  (∀ env name, ∃ r, canonicalize_country env name = Ret r) ∧
  canonicalize_country samples.pycountry_excerpt (Some (str "KR"))
    = Ret (Some (str "Korea, Republic of")) ∧
  canonicalize_twice samples.pycountry_excerpt (Some (str "KR"))
    = Ret (Some (str "South Korea")) ∧
  canonicalize_twice samples.pycountry_excerpt (Some (str "KR"))
    ≠ canonicalize_country samples.pycountry_excerpt (Some (str "KR")).
Proof.
  split_and!; [apply canonicalize_country_returns | vm_compute; reflexivity
              | vm_compute; reflexivity | vm_compute; discriminate].
Qed.

End country.

(** ** Character classes *)
Section classes.
Import unicode.

Lemma in_ranges_true rs c :
  in_ranges rs c = true ↔ ∃ r, r ∈ rs ∧ (r.1 ≤ c ≤ r.2)%N.
Proof.
  unfold in_ranges. rewrite existsb_exists. split.
  - intros (r & Hr & Hc). exists r. split; [by apply list_elem_of_In |].
    apply andb_true_iff in Hc as [H1 H2]. apply N.leb_le in H1, H2. lia.
  - intros (r & Hr & Hc). exists r. split; [by apply list_elem_of_In |].
    apply andb_true_iff. split; apply N.leb_le; lia.
Qed.

Lemma decimal_block c v :
  decimal c = Some v → ∃ z, z ∈ decimal_zeros ∧ (z ≤ c < z + 10)%N ∧ v = (c - z)%N.
Proof.
  unfold decimal. destruct (find _ _) as [z |] eqn:Hfind; [| done].
  intros [= <-]. apply find_some in Hfind as [Hz Hc].
  exists z. split; [by apply list_elem_of_In |].
  apply andb_true_iff in Hc as [H1 H2]. apply N.leb_le in H1. apply N.ltb_lt in H2. done.
Qed.

Lemma isdecimal_block c :
  isdecimal c = true → ∃ z, z ∈ decimal_zeros ∧ (z ≤ c < z + 10)%N.
Proof.
  unfold isdecimal. destruct (decimal c) as [v |] eqn:Hv; [| done].
  intros _. destruct (decimal_block _ _ Hv) as (z & ? & ? & _). eauto.
Qed.

Lemma decimal_value_small c v : decimal c = Some v → (v < 10)%N.
Proof. intros H. destruct (decimal_block _ _ H) as (z & _ & ? & ->). lia. Qed.

(** Every block of decimal digits lies inside a range of [isalnum], and
    away from white space, the zero-width marks and the byte-order mark. *)
Lemma decimal_blocks_alnum :
  forallb (λ z, existsb (λ r, (r.1 <=? z)%N && (z + 9 <=? r.2)%N) alnum_ranges)
          decimal_zeros = true.
Proof. vm_compute. reflexivity. Qed.

Lemma decimal_blocks_apart :
  forallb (λ z, forallb (λ r, (r.2 <? z)%N || (z + 9 <? r.1)%N)
                        ((0x200B, 0x200F) :: (0xFEFF, 0xFEFF) :: whitespace_ranges)%N)
          decimal_zeros = true.
Proof. vm_compute. reflexivity. Qed.

Lemma isdecimal_isword c : isdecimal c = true → isword c = true.
Proof.
  intros (z & Hz & Hc)%isdecimal_block.
  pose proof decimal_blocks_alnum as H. rewrite forallb_forall in H.
  specialize (H z ltac:(by apply list_elem_of_In)).
  apply existsb_exists in H as (r & Hr & Hzr).
  apply andb_true_iff in Hzr as [H1 H2]. apply N.leb_le in H1, H2.
  unfold isword. apply orb_true_iff. left. apply in_ranges_true.
  exists r. split; [by apply list_elem_of_In | lia].
Qed.

Lemma isdecimal_apart c r :
  isdecimal c = true →
  r ∈ ((0x200B, 0x200F) :: (0xFEFF, 0xFEFF) :: whitespace_ranges)%N →
  ¬ (r.1 ≤ c ≤ r.2)%N.
Proof.
  intros (z & Hz & Hc)%isdecimal_block Hr.
  pose proof decimal_blocks_apart as H. rewrite forallb_forall in H.
  specialize (H z ltac:(by apply list_elem_of_In)). rewrite forallb_forall in H.
  specialize (H r ltac:(by apply list_elem_of_In)).
  apply orb_true_iff in H as [H | H]; apply N.ltb_lt in H; lia.
Qed.

Lemma isdecimal_not_space c : isdecimal c = true → isspace c = false.
Proof.
  intros Hc. apply not_true_is_false. intros (r & Hr & Hin)%in_ranges_true.
  eapply isdecimal_apart; [exact Hc | | exact Hin]. by do 2 right.
Qed.

Lemma isdecimal_plain c : isdecimal c = true → spec.plain c = true.
Proof.
  intros Hc. unfold spec.plain, re.range.
  rewrite (isdecimal_not_space _ Hc). simpl.
  apply andb_true_iff. split; apply negb_true_iff, not_true_is_false.
  - intros [H1 H2]%andb_true_iff. apply N.leb_le in H1, H2.
    eapply (isdecimal_apart c (0x200B, 0x200F)%N); [done | by left | simpl; lia].
  - intros H%N.eqb_eq.
    eapply (isdecimal_apart c (0xFEFF, 0xFEFF)%N); [done | by right; left | simpl; lia].
Qed.

Lemma isword_not_decimal c : isword c = false → isdecimal c = false.
Proof.
  intros Hw. apply not_true_is_false. intros Hd.
  by rewrite (isdecimal_isword _ Hd) in Hw.
Qed.

(** The letters of the identifier under [re.IGNORECASE]. *)
Lemma ilit_cases a c :
  re.ilit a c = true → (0x41 ≤ a ≤ 0x5A)%N → c = a ∨ c = (a + 32)%N.
Proof.
  unfold re.ilit, lower_ascii. intros H Ha. apply N.eqb_eq in H.
  replace ((0x41 <=? a)%N && (a <=? 0x5A)%N) with true in H
    by (symmetry; apply andb_true_iff; split; apply N.leb_le; lia).
  destruct ((0x41 <=? c)%N && (c <=? 0x5A)%N) eqn:Hc; [left; lia | by right].
Qed.

Lemma ilit_N_word c : re.ilit 0x4E c = true → isword c = true.
Proof. intros H. destruct (ilit_cases _ _ H) as [-> | ->]; [lia | |]; by vm_compute. Qed.

Lemma ilit_plain a c :
  re.ilit a c = true → (0x41 ≤ a ≤ 0x5A)%N → spec.plain c = true.
Proof.
  intros H Ha. unfold spec.plain, re.range.
  assert (0x41 ≤ c ≤ 0x7A)%N as Hc by (destruct (ilit_cases _ _ H Ha) as [-> | ->]; lia).
  apply andb_true_iff. split; [apply andb_true_iff; split |]; apply negb_true_iff, not_true_is_false.
  - intros (r & Hr & Hin)%in_ranges_true. revert Hin.
    unfold whitespace_ranges in Hr. repeat (apply elem_of_cons in Hr as [-> | Hr]; [simpl; lia |]).
    inversion Hr.
  - intros [H1 H2]%andb_true_iff. apply N.leb_le in H1. lia.
  - intros H1%N.eqb_eq. lia.
Qed.

End classes.

(** ** The matcher *)
Section matching.
Import re spec.

Lemma run_after p s : run p s ++ after p s = s.
Proof. induction s as [| c s IH]; [done |]. simpl. destruct (p c); [by rewrite <- IH at 3 | done]. Qed.

Lemma run_all p s : Forall (λ c, p c = true) (run p s).
Proof. induction s as [| c s IH]; [done |]. simpl. destruct (p c) eqn:E; by constructor. Qed.

Lemma after_head p s c : head (after p s) = Some c → p c = false.
Proof.
  induction s as [| a s IH]; [done |]. simpl. destruct (p a) eqn:E; [done |].
  by intros [= <-].
Qed.

Lemma run_app p w s :
  Forall (λ c, p c = true) w → (∀ c, head s = Some c → p c = false) →
  run p (w ++ s) = w ∧ after p (w ++ s) = s.
Proof.
  intros Hw Hs. induction Hw as [| a w Ha _ [IH1 IH2]]; simpl.
  - destruct s as [| c s]; [done |]. simpl. by rewrite (Hs c).
  - by rewrite Ha, IH1, IH2.
Qed.

Lemma consume_nil ing m : consume ing [] m = m.
Proof. by destruct m, ing. Qed.

Lemma consume_consume ing u v m :
  consume ing u (consume ing v m) = consume ing (u ++ v) m.
Proof. destruct m, ing; unfold consume; simpl; by rewrite <- !app_assoc. Qed.

Lemma after_word_cons prev c w : after_word prev (c :: w) = after_word (Some c) w.
Proof. unfold after_word. rewrite last_cons. by destruct (last w). Qed.

Lemma after_word_app prev u v : after_word prev (u ++ v) = after_word (after_word prev u) v.
Proof.
  revert prev. induction u as [| c u IH]; intros prev; [done |].
  by rewrite <- app_comm_cons, !after_word_cons.
Qed.

Lemma after_word_last prev w : w ≠ [] → after_word prev w = last w.
Proof. unfold after_word. intros H. destruct (last w) eqn:E; [done |]. by apply last_None in E. Qed.

(** Greedy repetition: the whole run is taken when what follows
    matches after it. *)
Lemma many_longest p ing k w : ∀ rest lo prev m,
  Forall (λ c, p c = true) w → (∀ c, head rest = Some c → p c = false) →
  lo ≤ length w → k (after_word prev w) rest = Some m →
  many p ing k (w ++ rest) lo prev = Some (consume ing w m).
Proof.
  induction w as [| c w IH]; intros rest lo prev m Hw Hrest Hlo Hk.
  - simpl in *. assert (lo = 0) as -> by lia. rewrite consume_nil.
    destruct rest as [| c rest]; simpl; [done |]. by rewrite (Hrest c).
  - apply Forall_cons in Hw as [Hc Hw]. simpl. rewrite Hc.
    rewrite after_word_cons in Hk.
    rewrite (IH rest (pred lo) (Some c) m); [| done | done | simpl in Hlo; lia | done].
    by rewrite consume_consume.
Qed.

(** Greedy repetition fails when what follows matches after no
    admissible part of the run. *)
Lemma many_none p ing k w : ∀ rest lo prev,
  Forall (λ c, p c = true) w → (∀ c, head rest = Some c → p c = false) →
  (∀ w1 w2, w = w1 ++ w2 → lo ≤ length w1 → k (after_word prev w1) (w2 ++ rest) = None) →
  many p ing k (w ++ rest) lo prev = None.
Proof.
  induction w as [| c w IH]; intros rest lo prev Hw Hrest Hk.
  - simpl. assert (match lo with 0 => k prev rest | S _ => None end = None) as Hstop.
    { destruct lo; [| done]. apply (Hk [] []); [done | simpl; lia]. }
    destruct rest as [| c rest]; simpl; [done |]. by rewrite (Hrest c).
  - apply Forall_cons in Hw as [Hc Hw]. simpl. rewrite Hc.
    rewrite (IH rest (pred lo) (Some c)); [| done | done |].
    + destruct lo; [| done]. apply (Hk [] (c :: w)); [done | simpl; lia].
    + intros w1 w2 -> Hlo. rewrite <- (after_word_cons prev).
      apply (Hk (c :: w1) w2); [done | simpl; lia].
Qed.

(** A search result is a match at some place of the text, and a failed
    search means no match at any place. *)
Lemma search_from_Some its : ∀ s prev m,
  search_from its prev s = Some m →
  ∃ pre s', s = pre ++ s' ∧ matcher its false (after_word prev pre) s' = Some m.
Proof.
  induction s as [| c s IH]; intros prev m; simpl.
  - destruct (matcher its false prev []) eqn:E; [| done].
    intros [= <-]. by exists [], [].
  - destruct (matcher its false prev (c :: s)) eqn:E.
    + intros [= <-]. by exists [], (c :: s).
    + intros (pre & s' & -> & Hm)%IH. exists (c :: pre), s'.
      by rewrite after_word_cons.
Qed.

Lemma search_from_None its pre : ∀ s prev,
  search_from its prev (pre ++ s) = None →
  matcher its false (after_word prev pre) s = None.
Proof.
  induction pre as [| c pre IH]; intros s prev; simpl.
  - intros H. change (after_word prev []) with prev.
    destruct (matcher its false prev s) eqn:E; [| done].
    destruct s; simpl in H; rewrite E in H; done.
  - destruct (matcher its false prev (c :: pre ++ s)); [done |].
    rewrite after_word_cons. apply IH.
Qed.

Lemma search_from_fails its : ∀ s prev,
  (∀ pre s', s = pre ++ s' → matcher its false (after_word prev pre) s' = None) →
  search_from its prev s = None.
Proof.
  induction s as [| c s IH]; intros prev Hnone; simpl.
  - pose proof (Hnone [] [] eq_refl) as H. change (after_word prev []) with prev in H.
    by rewrite H.
  - pose proof (Hnone [] (c :: s) eq_refl) as H. change (after_word prev []) with prev in H.
    rewrite H. apply IH.
    intros pre s' ->. rewrite <- (after_word_cons prev). by apply (Hnone (c :: pre) s').
Qed.

End matching.

(** ** The identifier pattern *)
Section identifier.
Import re playwright_scraper spec.

Lemma isspace_not_decimal c : unicode.isspace c = true → unicode.isdecimal c = false.
Proof.
  intros Hs. apply not_true_is_false. intros Hd.
  by rewrite (isdecimal_not_space _ Hd) in Hs.
Qed.

Lemma last_is_elem {A} (w : list A) x : last w = Some x → x ∈ w.
Proof. intros (w' & ->)%last_Some. apply elem_of_app. right. by left. Qed.

(** After four digits or more, a word boundary cannot stand before
    another digit. *)
Lemma digits_close prev digits rest w1 w2 :
  Forall (λ c, d_ c = true) digits →
  digits = w1 ++ w2 → 4 ≤ length w1 →
  (bool_decide (4 ≤ length digits) && boundary (last digits) rest = false) →
  matcher [GClose; Bound] true (after_word prev w1) (w2 ++ rest) = None.
Proof.
  intros Hd -> Hlen Hcond.
  change (matcher [GClose; Bound] true (after_word prev w1) (w2 ++ rest))
    with (if boundary (after_word prev w1) (w2 ++ rest) then Some (Match [] []) else None).
  assert (w1 ≠ []) as Hne by (intros ->; simpl in Hlen; lia).
  rewrite (after_word_last _ _ Hne).
  destruct w2 as [| c w2].
  - rewrite app_nil_r in *. simpl.
    rewrite bool_decide_true in Hcond by done. simpl in Hcond. by rewrite Hcond.
  - apply Forall_app in Hd as [Hd1 Hd2]. apply Forall_cons in Hd2 as [Hc _].
    destruct (last w1) as [x |] eqn:Hx; [| by apply last_None in Hx].
    apply last_is_elem in Hx. rewrite Forall_forall in Hd1.
    unfold boundary. simpl.
    by rewrite (isdecimal_isword x (Hd1 x Hx)), (isdecimal_isword c Hc).
Qed.

Lemma digits_tail prev s4 :
  many d_ true (matcher [GClose; Bound] true) s4 4 prev =
  if bool_decide (4 ≤ length (run d_ s4)) && boundary (last (run d_ s4)) (after d_ s4)
  then Some (Match (run d_ s4) (run d_ s4)) else None.
Proof.
  rewrite <- (run_after d_ s4) at 1.
  destruct (bool_decide _ && _) eqn:Hcond.
  - apply andb_true_iff in Hcond as [Hlen%bool_decide_eq_true Hb].
    rewrite (many_longest d_ true _ _ _ _ _ (Match [] []));
      [| apply run_all | apply after_head | exact Hlen |].
    + unfold consume. simpl. by rewrite app_nil_r.
    + rewrite after_word_last by (intros E; rewrite E in Hlen; simpl in Hlen; lia).
      change (matcher [GClose; Bound] true (last (run d_ s4)) (after d_ s4))
        with (if boundary (last (run d_ s4)) (after d_ s4) then Some (Match [] []) else None).
      by rewrite Hb.
  - apply many_none; [apply run_all | apply after_head |].
    intros w1 w2 Hsplit Hlen. eapply digits_close; [apply run_all | done..].
Qed.

Lemma nct_tail prev s3 :
  many s_ false (matcher [GOpen; Many d_ 4; GClose; Bound] false) s3 0 prev =
  let digits := run d_ (after s_ s3) in
  if bool_decide (4 ≤ length digits) && boundary (last digits) (after d_ (after s_ s3))
  then Some (Match (run s_ s3 ++ digits) digits) else None.
Proof.
  cbv zeta. rewrite <- (run_after s_ s3) at 1.
  assert (Hk : ∀ prev' s4, matcher [GOpen; Many d_ 4; GClose; Bound] false prev' s4
               = many d_ true (matcher [GClose; Bound] true) s4 4 prev') by done.
  destruct (bool_decide _ && _) eqn:Hcond.
  - rewrite (many_longest s_ false _ _ _ _ _
               (Match (run d_ (after s_ s3)) (run d_ (after s_ s3))));
      [| apply run_all | apply after_head | lia |].
    + unfold consume. simpl. reflexivity.
    + by rewrite Hk, digits_tail, Hcond.
  - apply many_none; [apply run_all | apply after_head |].
    intros w1 w2 Hsplit _. rewrite Hk. destruct w2 as [| c w2].
    + by rewrite app_nil_l, digits_tail, Hcond.
    + assert (s_ c = true) as Hc.
      { pose proof (run_all s_ s3) as Hall. rewrite Hsplit in Hall.
        apply Forall_app in Hall as [_ Hall]. by apply Forall_cons in Hall as [? _]. }
      rewrite <- app_comm_cons. cbn [many].
      replace (d_ c) with false by (symmetry; by apply isspace_not_decimal). done.
Qed.

Lemma matcher_nct prev s : matcher NCT_PATTERN false prev s = nct_at prev s.
Proof.
  unfold nct_at. destruct s as [| n [| c [| t s3]]].
  - simpl. by destruct (boundary prev []).
  - simpl. destruct (boundary prev [n]); [| done]. by destruct (ilit 78 n).
  - simpl. destruct (boundary prev _); [| done]. destruct (ilit 78 n); [| done].
    by destruct (ilit 67 c).
  - change (matcher NCT_PATTERN false prev (n :: c :: t :: s3)) with
      (if boundary prev (n :: c :: t :: s3) then
         if ilit 0x4E n then
           consume false [n] <$>
             (if ilit 0x43 c then
                consume false [c] <$>
                  (if ilit 0x54 t then
                     consume false [t] <$>
                       many s_ false (matcher [GOpen; Many d_ 4; GClose; Bound] false) s3 0 (Some t)
                   else None)
              else None)
         else None
       else None).
    rewrite nct_tail. cbv zeta.
    destruct (boundary prev _); [| done]. destruct (ilit 78 n); [| done].
    destruct (ilit 67 c); [| done]. destruct (ilit 84 t); [| done]. simpl.
    by destruct (bool_decide _ && _).
Qed.

End identifier.

(** ** Text cleanup *)
Section cleanup.
Import re playwright_scraper spec.

Lemma sub_class p s : ∀ prev,
  sub_from [Class p] [] prev 0 s = filter (λ c, p c = false) s.
Proof.
  induction s as [| c s IH]; intros prev; [done |].
  cbn [sub_from matcher]. destruct (p c) eqn:Hc; simpl.
  - rewrite filter_cons_False by (by rewrite Hc). apply IH.
  - rewrite filter_cons_True by done. f_equal. apply IH.
Qed.

Lemma matcher_run p prev s :
  matcher [Many p 1] false prev s =
  match run p s with [] => None | w => Some (Match w []) end.
Proof.
  change (matcher [Many p 1] false prev s)
    with (many p false (λ _ _, Some (Match [] [])) s 1 prev).
  rewrite <- (run_after p s) at 1. destruct (run p s) as [| c w] eqn:Hrun.
  - apply many_none; [done | apply after_head |].
    intros w1 w2 Hsplit Hlen. symmetry in Hsplit. apply app_eq_nil in Hsplit as [-> _].
    simpl in Hlen. lia.
  - rewrite (many_longest p false _ _ _ _ _ (Match [] []));
      [| rewrite <- Hrun; apply run_all | apply after_head | simpl; lia | done].
    unfold consume. simpl. by rewrite app_nil_r.
Qed.

Lemma sub_whitespace s : ∀ prev,
  sub_from WHITESPACE_RUN (str " ") prev 0 s = squeeze false s ∧
  sub_from WHITESPACE_RUN (str " ") prev (length (run s_ s)) s = squeeze true s.
Proof.
  unfold WHITESPACE_RUN. induction s as [| c s IH]; intros prev; [done |].
  destruct (IH (Some c)) as [IH0 IH1].
  cbn [sub_from run squeeze]. rewrite matcher_run. cbn [run].
  unfold s_ in *. destruct (unicode.isspace c) eqn:Hc; simpl.
  - split; [f_equal |]; apply IH1.
  - rewrite IH0. done.
Qed.

Lemma clean_text_eq s :
  _clean_text (Some s) = Some (py.strip (squeeze false (stage1 s))).
Proof.
  unfold _clean_text, stage1, sub, ZERO_WIDTH.
  by rewrite sub_class, (proj1 (sub_whitespace _ None)).
Qed.

Lemma replace_none old new s :
  Forall (λ c, c ≠ old) s → py.replace old new s = s.
Proof.
  unfold py.replace. induction 1 as [| c s Hc _ IH]; [done |].
  rewrite bind_cons, IH. apply N.eqb_neq in Hc. by rewrite Hc.
Qed.

Lemma stage1_kept s : Forall (λ c, kept c = true) (stage1 s).
Proof.
  unfold stage1, py.replace. apply Forall_forall. intros c Hc.
  apply list_elem_of_filter in Hc as [Hzw Hc]. unfold kept. rewrite Hzw. simpl.
  apply negb_true_iff, N.eqb_neq. intros ->.
  apply list_elem_of_bind in Hc as (c' & Hc & _).
  destruct (c' =? 0xFEFF)%N eqn:E; [inversion Hc |].
  apply list_elem_of_singleton in Hc as <-. by apply N.eqb_neq in E.
Qed.

Lemma stage1_settled s : Forall (λ c, settled c = true) s → stage1 s = s.
Proof.
  intros Hs. unfold stage1. rewrite !replace_none.
  - induction Hs as [| c s Hc _ IH]; [done |].
    apply andb_true_iff in Hc as [Hk _].
    apply andb_true_iff in Hk as [Hzw _]. apply negb_true_iff in Hzw.
    by rewrite filter_cons_True, IH.
  - eapply Forall_impl; [exact Hs |]. intros c Hc ->. by vm_compute in Hc.
  - rewrite replace_none; (eapply Forall_impl; [exact Hs |]); intros c Hc ->; by vm_compute in Hc.
Qed.

Lemma squeeze_settled s : ∀ b,
  Forall (λ c, kept c = true) s → Forall (λ c, settled c = true) (squeeze b s).
Proof.
  induction s as [| c s IH]; intros b Hs; [done |].
  apply Forall_cons in Hs as [Hc Hs]. simpl.
  destruct (unicode.isspace c) eqn:Hsp.
  - destruct b; [by apply IH |]. constructor; [done | by apply IH].
  - constructor; [| by apply IH]. unfold settled. by rewrite Hc, Hsp.
Qed.

Lemma squeeze_isolated s : ∀ b, isolated b (squeeze b s) = true.
Proof.
  induction s as [| c s IH]; intros b; [done |]. simpl.
  destruct (unicode.isspace c) eqn:Hsp.
  - destruct b; [apply IH |]. simpl. apply IH.
  - simpl. rewrite Hsp. apply IH.
Qed.

Lemma squeeze_fixed s : ∀ b,
  Forall (λ c, settled c = true) s → isolated b s = true → squeeze b s = s.
Proof.
  induction s as [| c s IH]; intros b Hs Hiso; [done |].
  apply Forall_cons in Hs as [Hc Hs]. simpl in *.
  destruct (unicode.isspace c) eqn:Hsp.
  - apply andb_true_iff in Hiso as [Hb Hiso]. apply negb_true_iff in Hb as ->.
    unfold settled in Hc. rewrite Hsp in Hc. apply andb_true_iff in Hc as [_ Hc].
    simpl in Hc. apply N.eqb_eq in Hc as ->. f_equal. by apply IH.
  - f_equal. by apply IH.
Qed.

Lemma isolated_weaken b s : isolated b s = true → isolated false s = true.
Proof.
  destruct s as [| c s]; [done |]. simpl. destruct (unicode.isspace c); [| done].
  by intros [_ ->]%andb_true_iff.
Qed.

Lemma lstrip_isolated s : ∀ b, isolated b s = true → isolated false (py.lstrip s) = true.
Proof.
  induction s as [| c s IH]; intros b Hiso; [done |]. simpl in *.
  destruct (unicode.isspace c) eqn:Hsp.
  - apply andb_true_iff in Hiso as [_ Hiso]. by eapply IH.
  - simpl. by rewrite Hsp.
Qed.

Lemma rstrip_isolated s : ∀ b, isolated b s = true → isolated b (py.rstrip s) = true.
Proof.
  induction s as [| c s IH]; intros b Hiso; [done |]. simpl in *.
  destruct (unicode.isspace c) eqn:Hsp.
  - apply andb_true_iff in Hiso as [Hb Hiso]. specialize (IH _ Hiso).
    destruct (py.rstrip s) as [| a r]; [done |]. simpl. rewrite Hsp, Hb. exact IH.
  - specialize (IH _ Hiso).
    destruct (py.rstrip s) as [| a r]; simpl; by rewrite Hsp.
Qed.

Lemma lstrip_Forall (P : N → Prop) s : Forall P s → Forall P (py.lstrip s).
Proof.
  induction 1 as [| c s Hc Hs IH]; [done |]. simpl.
  destruct (unicode.isspace c); [done | by constructor].
Qed.

Lemma rstrip_Forall (P : N → Prop) s : Forall P s → Forall P (py.rstrip s).
Proof.
  induction 1 as [| c s Hc Hs IH]; [done |]. simpl.
  destruct (py.rstrip s) as [| a r]; [| by constructor].
  destruct (unicode.isspace c); [done | by constructor].
Qed.

Lemma rstrip_rstrip s : py.rstrip (py.rstrip s) = py.rstrip s.
Proof.
  induction s as [| c s IH]; [done |]. simpl.
  destruct (py.rstrip s) as [| a r] eqn:Hr.
  - destruct (unicode.isspace c) eqn:Hsp; [done |]. simpl. by rewrite Hsp.
  - cbn [py.rstrip]. cbn [py.rstrip] in IH. by rewrite IH.
Qed.

Lemma lstrip_head s c : head (py.lstrip s) = Some c → unicode.isspace c = false.
Proof.
  induction s as [| a s IH]; [done |]. simpl.
  destruct (unicode.isspace a) eqn:Hsp; [done |]. by intros [= <-].
Qed.

Lemma lstrip_fixed s :
  (∀ c, head s = Some c → unicode.isspace c = false) → py.lstrip s = s.
Proof. destruct s as [| c s]; [done |]. intros H. simpl. by rewrite (H c). Qed.

Lemma rstrip_head s : py.rstrip s = [] ∨ head (py.rstrip s) = head s.
Proof.
  destruct s as [| c s]; [by left |]. simpl.
  destruct (py.rstrip s); [| by right].
  destruct (unicode.isspace c); [by left | by right].
Qed.

Lemma strip_strip s : py.strip (py.strip s) = py.strip s.
Proof.
  unfold py.strip. rewrite (lstrip_fixed (py.rstrip _)); [apply rstrip_rstrip |].
  intros c Hc. destruct (rstrip_head (py.lstrip s)) as [E | E].
  - by rewrite E in Hc.
  - rewrite E in Hc. by eapply lstrip_head.
Qed.

Lemma rstrip_fixed s :
  Forall (λ c, unicode.isspace c = false) s → py.rstrip s = s.
Proof.
  induction 1 as [| c s Hc _ IH]; [done |]. simpl. rewrite IH, Hc. by destruct s.
Qed.

(** A text that is settled, without neighbouring spaces and stripped is
    left as it is. *)
Lemma clean_text_fixed t :
  Forall (λ c, settled c = true) t → isolated false t = true → py.strip t = t →
  _clean_text (Some t) = Some t.
Proof.
  intros Hs Hiso Hstrip.
  by rewrite clean_text_eq, (stage1_settled _ Hs), (squeeze_fixed _ _ Hs Hiso), Hstrip.
Qed.

Lemma clean_text_tidy s t :
  _clean_text (Some s) = Some t →
  Forall (λ c, settled c = true) t ∧ isolated false t = true ∧ py.strip t = t.
Proof.
  rewrite clean_text_eq. intros [= <-]. split_and!.
  - apply rstrip_Forall, lstrip_Forall, squeeze_settled, stage1_kept.
  - apply rstrip_isolated. eapply lstrip_isolated, squeeze_isolated.
  - apply strip_strip.
Qed.

Lemma clean_text_clean s t :
  _clean_text (Some s) = Some t → _clean_text (Some t) = Some t.
Proof. intros (? & ? & ?)%clean_text_tidy. by apply clean_text_fixed. Qed.

Lemma plain_settled c : plain c = true → settled c = true ∧ unicode.isspace c = false.
Proof.
  unfold plain, settled, kept.
  intros [[Hsp%negb_true_iff Hzw]%andb_true_iff Hbom]%andb_true_iff.
  by rewrite Hsp, Hzw, Hbom.
Qed.

Lemma clean_text_plain s :
  Forall (λ c, plain c = true) s → _clean_text (Some s) = Some s.
Proof.
  intros Hs.
  assert (Forall (λ c, unicode.isspace c = false) s) as Hns.
  { eapply Forall_impl; [exact Hs |]. intros c Hc. by apply plain_settled. }
  apply clean_text_fixed.
  - eapply Forall_impl; [exact Hs |]. intros c Hc. by apply plain_settled.
  - clear Hs. induction Hns as [| c s Hc _ IH]; [done |]. simpl. by rewrite Hc.
  - unfold py.strip. rewrite lstrip_fixed; [by apply rstrip_fixed |].
    intros c Hc. destruct Hns as [| a s Ha _]; [done |]. by inversion Hc; subst.
Qed.

End cleanup.

(** ** Identifier canonicalisation *)
Section canonical.
Import re playwright_scraper spec.

Lemma after_word_None pre : after_word None pre = last pre.
Proof. unfold after_word. by destruct (last pre). Qed.

Lemma boundary_after_word prev s c :
  unicode.isword c = true →
  boundary prev (c :: s) = true → word_at prev = false.
Proof. unfold boundary. simpl. intros ->. by destruct (word_at prev). Qed.

Lemma boundary_before_end x rest :
  unicode.isword x = true →
  boundary (Some x) rest = true → word_at (head rest) = false.
Proof. unfold boundary. simpl. intros ->. by destruct (word_at (head rest)). Qed.

(** What a match of the pattern consists of. *)
Lemma nct_at_Some prev s m :
  nct_at prev s = Some m →
  ∃ n c t ws post,
    s = [n; c; t] ++ ws ++ group1 m ++ post ∧
    ilit 0x4E n = true ∧ ilit 0x43 c = true ∧ ilit 0x54 t = true ∧
    Forall (λ x, unicode.isspace x = true) ws ∧
    Forall (λ x, unicode.isdecimal x = true) (group1 m) ∧
    4 ≤ length (group1 m) ∧
    word_at prev = false ∧ word_at (head post) = false.
Proof.
  unfold nct_at. destruct s as [| n [| c [| t s3]]]; [done.. |].
  cbv zeta. destruct (boundary prev _ && _ && _ && _ && _ && _) eqn:Hcond; [| done].
  intros [= <-]. simpl.
  apply andb_true_iff in Hcond as [Hcond Hend].
  apply andb_true_iff in Hcond as [Hcond Hlen%bool_decide_eq_true].
  apply andb_true_iff in Hcond as [Hcond Ht].
  apply andb_true_iff in Hcond as [Hcond Hc].
  apply andb_true_iff in Hcond as [Hstart Hn].
  exists n, c, t, (run s_ s3), (after d_ (after s_ s3)).
  assert (Hd : Forall (λ x, unicode.isdecimal x = true) (run d_ (after s_ s3))) by apply run_all.
  split_and!; try done.
  - by rewrite !run_after.
  - apply run_all.
  - apply (boundary_after_word prev (c :: t :: s3) n); [by apply ilit_N_word | done].
  - destruct (last (run d_ (after s_ s3))) as [x |] eqn:Hx.
    + apply (boundary_before_end x); [| done].
      apply isdecimal_isword. rewrite Forall_forall in Hd. by apply Hd, last_is_elem.
    + apply last_None in Hx. rewrite Hx in Hlen. simpl in Hlen. lia.
Qed.

(** Where an identifier stands, the pattern matches. *)
Lemma nct_at_occurrence prev n c t ws digits post :
  ilit 0x4E n = true → ilit 0x43 c = true → ilit 0x54 t = true →
  Forall (λ x, unicode.isspace x = true) ws →
  Forall (λ x, unicode.isdecimal x = true) digits →
  4 ≤ length digits →
  word_at prev = false → word_at (head post) = false →
  nct_at prev ([n; c; t] ++ ws ++ digits ++ post)
    = Some (Match ([n; c; t] ++ ws ++ digits) digits).
Proof.
  intros Hn Hc Ht Hws Hd Hlen Hprev Hpost.
  assert (Hne : digits ≠ []) by (intros ->; simpl in Hlen; lia).
  destruct (run_app s_ ws (digits ++ post)) as [Hrun1 Hafter1]; [done | |].
  { intros x Hx. destruct digits as [| a digits]; [done |]. simpl in Hx.
    inversion Hx; subst. apply Forall_cons in Hd as [Ha _].
    by apply isdecimal_not_space. }
  destruct (run_app d_ digits post) as [Hrun2 Hafter2]; [done | |].
  { intros x Hx. rewrite Hx in Hpost. simpl in Hpost. by apply isword_not_decimal. }
  unfold nct_at. cbn [app]. cbv zeta. rewrite Hrun1, Hafter1, Hrun2, Hafter2.
  rewrite Hn, Hc, Ht, bool_decide_true by done.
  assert (boundary prev (n :: c :: t :: ws ++ digits ++ post) = true) as ->.
  { unfold boundary. simpl. by rewrite Hprev, (ilit_N_word n Hn). }
  assert (boundary (last digits) post = true) as ->; [| done].
  destruct (last digits) as [x |] eqn:Hx; [| by apply last_None in Hx].
  unfold boundary. rewrite Hpost. simpl.
  rewrite isdecimal_isword; [done |]. rewrite Forall_forall in Hd. by apply Hd, last_is_elem.
Qed.

Lemma search_nct_Some t m :
  search NCT_PATTERN t = Some m → nct_occurrence t (group1 m).
Proof.
  intros (pre & s' & -> & Hm)%search_from_Some.
  rewrite matcher_nct, after_word_None in Hm.
  destruct (nct_at_Some _ _ _ Hm) as (n & c & t' & ws & post & -> & ? & ? & ? & ? & ? & ? & ? & ?).
  exists pre, n, c, t', ws, post. by split_and!.
Qed.

Lemma search_nct_None t digits :
  search NCT_PATTERN t = None → ¬ nct_occurrence t digits.
Proof.
  intros Hnone (pre & n & c & t' & ws & post & -> & ? & ? & ? & ? & ? & ? & ? & ?).
  apply search_from_None in Hnone.
  rewrite matcher_nct, after_word_None in Hnone.
  by rewrite nct_at_occurrence in Hnone.
Qed.

(** An identifier in canonical form is left as it is. *)
Lemma canonical_nct_of_form digits :
  Forall (λ x, unicode.isdecimal x = true) digits → 4 ≤ length digits →
  _canonical_nct (Some (str "NCT" ++ digits)) = Some (str "NCT" ++ digits).
Proof.
  intros Hd Hlen. unfold _canonical_nct. rewrite clean_text_plain.
  - change (py.truthy (str "NCT" ++ digits)) with true. cbn [negb].
    assert (search NCT_PATTERN (str "NCT" ++ digits)
            = Some (Match (str "NCT" ++ digits) digits)) as ->; [| done].
    unfold search.
    assert (Hm : matcher NCT_PATTERN false None (str "NCT" ++ digits)
                 = Some (Match (str "NCT" ++ digits) digits)).
    { rewrite matcher_nct.
      pose proof (nct_at_occurrence None 0x4E 0x43 0x54 [] digits []) as H.
      rewrite app_nil_r in H. apply H; done. }
    change (str "NCT" ++ digits) with (0x4E :: 0x43 :: 0x54 :: digits)%N in *.
    cbn [search_from]. by rewrite Hm.
  - change (str "NCT" ++ digits) with (0x4E :: 0x43 :: 0x54 :: digits)%N.
    repeat (constructor; [by vm_compute |]).
    eapply Forall_impl; [exact Hd |]. intros c Hc. by apply isdecimal_plain.
Qed.

(** The cases of the function: absent when nothing is left of the input
    after cleaning; otherwise "NCT" and the digits of an identifier that
    stands in the cleaned text (after a word boundary the letters in
    either case, white space or none, four or more digits up to a word
    boundary) when there is one, and the cleaned text itself when there
    is none. *)
Lemma canonical_nct_cases val :
  match _canonical_nct val with
  | None => _clean_text val = None ∨ _clean_text val = Some []
  | Some r =>
      ∃ t, _clean_text val = Some t ∧ t ≠ [] ∧
           ((∃ digits, nct_occurrence t digits ∧ r = str "NCT" ++ digits) ∨
            ((∀ digits, ¬ nct_occurrence t digits) ∧ r = t))
  end.
Proof.
  unfold _canonical_nct. destruct (_clean_text val) as [t |]; [| by left].
  destruct t as [| a t]; [by right |]. cbn [py.truthy negb].
  destruct (search NCT_PATTERN (a :: t)) as [m |] eqn:Hsearch.
  - exists (a :: t). split_and!; [done.. |]. left. exists (group1 m).
    split; [by apply search_nct_Some | done].
  - exists (a :: t). split_and!; [done.. |]. right.
    split; [| done]. intros digits. by apply search_nct_None.
Qed.

(** C2 fails as stated: on "study NCT123" the rule of the claim gives
    "NCT123", the code gives the cleaned text, which is not of the form
    NCT and digits, and a run emits it as an nctId. *)
Lemma canonical_nct_differs_from_stated :
  _canonical_nct (Some (str "study NCT123")) = Some (str "study NCT123") ∧
  canonical_nct_as_stated (Some (str "study NCT123")) = Some (str "NCT123") ∧
  ¬ nct_form (str "study NCT123") ∧
  ∃ out, scrape 5 1 samples.odd_identifier = Some (Returned out) ∧
         nctId <$> artifact out = [str "study NCT123"].
Proof.
  split_and!; [by vm_compute | by vm_compute | |].
  - intros (digits & H & _). vm_compute in H. discriminate.
  - eexists. split; by vm_compute.
Qed.

(** C8: canonicalising a canonical identifier changes nothing. *)
Theorem canonical_nct_idempotent val :
  _canonical_nct (_canonical_nct val) = _canonical_nct val.
Proof.
  destruct (_canonical_nct val) as [r |] eqn:Hr; [| done].
  unfold _canonical_nct in Hr.
  destruct val as [s |]; [| done].
  destruct (_clean_text (Some s)) as [t |] eqn:Hclean; [| done].
  destruct t as [| a t]; [done |]. cbn [py.truthy negb] in Hr.
  destruct (search NCT_PATTERN (a :: t)) as [m |] eqn:Hsearch.
  - injection Hr as <-.
    destruct (search_nct_Some _ _ Hsearch)
      as (pre & n & c & t' & ws & post & _ & _ & _ & _ & _ & Hd & Hlen & _).
    by apply canonical_nct_of_form.
  - injection Hr as <-. unfold _canonical_nct.
    by rewrite (clean_text_clean _ _ Hclean), Hsearch.
Qed.

End canonical.

(** ** Year extraction *)
Section years.
Import re spec.

Lemma matcher_four prev s :
  matcher api_client.FOUR_DIGITS false prev s =
  match s with
  | a :: b :: c :: d :: _ =>
      if d_ a && d_ b && d_ c && d_ d then Some (Match [a; b; c; d] [a; b; c; d]) else None
  | _ => None
  end.
Proof.
  destruct s as [| a [| b [| c [| d s]]]]; simpl.
  - done.
  - by destruct (d_ a).
  - by destruct (d_ a), (d_ b).
  - by destruct (d_ a), (d_ b), (d_ c).
  - by destruct (d_ a), (d_ b), (d_ c), (d_ d).
Qed.

Lemma search_four s : ∀ prev,
  search_from api_client.FOUR_DIGITS prev s = (λ w, Match w w) <$> first_four_digits s.
Proof.
  induction s as [| a s IH]; intros prev; [done |].
  cbn [search_from]. rewrite matcher_four, IH.
  destruct s as [| b [| c [| d s]]]; [done.. |].
  cbn [first_four_digits]. by destruct (d_ a && d_ b && d_ c && d_ d).
Qed.

Lemma str_19 : str "19" = [49; 57]%N.
Proof. by vm_compute. Qed.

Lemma str_20 : str "20" = [50; 48]%N.
Proof. by vm_compute. Qed.

Lemma alts_year ing k prev s :
  alts ing k prev s [str "19"; str "20"] =
  match s with
  | a :: b :: s' =>
      if bool_decide ([a; b] = str "19") || bool_decide ([a; b] = str "20")
      then consume ing [a; b] <$> k (Some b) s' else None
  | _ => None
  end.
Proof.
  rewrite str_19, str_20. destruct s as [| a [| b s']].
  - done.
  - cbn. by destruct (a =? 49)%N, (a =? 50)%N.
  - cbn [alts strip_prefix].
    destruct (a =? 49)%N eqn:Ha1; [apply N.eqb_eq in Ha1 as -> |].
    + destruct (b =? 57)%N eqn:Hb1; [apply N.eqb_eq in Hb1 as -> |].
      * cbn. by destruct (k (Some 57%N) s').
      * rewrite bool_decide_false by (intros [= ->]; by rewrite N.eqb_refl in Hb1).
        by rewrite bool_decide_false by (intros [= ?]).
    + rewrite bool_decide_false by (intros [= -> ?]; by rewrite N.eqb_refl in Ha1).
      destruct (a =? 50)%N eqn:Ha2; [apply N.eqb_eq in Ha2 as -> |].
      * destruct (b =? 48)%N eqn:Hb2; [apply N.eqb_eq in Hb2 as -> |].
        -- cbn. by destruct (k (Some 48%N) s').
        -- by rewrite bool_decide_false by (intros [= ->]; by rewrite N.eqb_refl in Hb2).
      * by rewrite bool_decide_false by (intros [= -> ?]; by rewrite N.eqb_refl in Ha2).
Qed.

Lemma year_start a b :
  bool_decide ([a; b] = str "19") || bool_decide ([a; b] = str "20") = true →
  unicode.isword a = true.
Proof.
  intros [H | H]%orb_true_iff; apply bool_decide_eq_true in H; injection H as -> ->; by vm_compute.
Qed.

Lemma matcher_plausible prev s :
  matcher playwright_scraper.PLAUSIBLE_YEAR false prev s =
  match s with
  | a :: b :: c :: d :: rest =>
      if stands_alone prev a b c d rest then Some (Match [a; b; c; d] [a; b]) else None
  | _ => None
  end.
Proof.
  change (matcher playwright_scraper.PLAUSIBLE_YEAR false prev s) with
    (if boundary prev s
     then alts true (matcher [GClose; Class d_; Class d_; Bound] true) prev s
                [str "19"; str "20"]
     else None).
  rewrite alts_year. unfold stands_alone.
  destruct s as [| a [| b s']]; [by destruct (boundary prev _).. |].
  destruct (bool_decide _ || bool_decide _) eqn:Hyear.
  2:{ destruct (boundary prev _); destruct s' as [| c [| d rest]]; try done;
        by rewrite andb_false_r. }
  unfold boundary at 1. cbn [head word_at]. rewrite (year_start _ _ Hyear).
  rewrite andb_true_r.
  destruct (word_at prev); cbn [xorb negb andb].
  { by destruct s' as [| c [| d rest]]. }
  destruct s' as [| c [| d rest]]; [done | cbn; by destruct (d_ c) |].
  cbn [matcher fmap option_fmap option_map].
  destruct (d_ c); [| done]. destruct (d_ d) eqn:Hd; [| done].
  unfold boundary. cbn [word_at]. rewrite (isdecimal_isword d Hd).
  cbn. by destruct (word_at (head rest)).
Qed.

Lemma search_plausible s : ∀ prev,
  search_from playwright_scraper.PLAUSIBLE_YEAR prev s
    = (λ w, Match w (take 2 w)) <$> standalone_year prev s.
Proof.
  induction s as [| a s IH]; intros prev.
  { cbn [search_from]. by rewrite matcher_plausible. }
  cbn [search_from]. rewrite matcher_plausible, IH.
  destruct s as [| b [| c [| d rest]]]; [by cbn.. |].
  cbn [standalone_year]. fold (stands_alone prev a b c d rest).
  by destruct (stands_alone prev a b c d rest).
Qed.

End years.

Section extract_year.
Import re spec.

Lemma api_extract_year_eq s :
  api_client._extract_year (api_client.VStr s) = py.int <$> first_four_digits s.
Proof.
  unfold api_client._extract_year, search. cbn [api_client.to_str].
  rewrite search_four. by destruct (first_four_digits s).
Qed.

Lemma scraper_extract_year_eq s :
  playwright_scraper._extract_year (Some s) =
  py.int <$> from_option Some (first_four_digits s) (standalone_year None s).
Proof.
  unfold playwright_scraper._extract_year, search.
  destruct s as [| a s]; [done |]. cbn [py.truthy negb].
  rewrite search_plausible.
  destruct (standalone_year None (a :: s)) as [w |]; [done |]. cbn [fmap option_fmap option_map].
  change playwright_scraper.FOUR_DIGITS with api_client.FOUR_DIGITS.
  rewrite search_four. by destruct (first_four_digits (a :: s)).
Qed.

Lemma first_four_digits_cons a b c d rest :
  first_four_digits (a :: b :: c :: d :: rest) =
  if d_ a && d_ b && d_ c && d_ d then Some [a; b; c; d]
  else first_four_digits (b :: c :: d :: rest).
Proof. done. Qed.

Lemma standalone_year_cons prev a b c d rest :
  standalone_year prev (a :: b :: c :: d :: rest) =
  if stands_alone prev a b c d rest then Some [a; b; c; d]
  else standalone_year (Some a) (b :: c :: d :: rest).
Proof. done. Qed.

Lemma first_four_digits_None s :
  Forall (λ c, unicode.isdecimal c = false) s → first_four_digits s = None.
Proof.
  induction 1 as [| a s Ha _ IH]; [done |].
  destruct s as [| b [| c [| d s]]]; [done.. |].
  rewrite first_four_digits_cons, IH. unfold d_ at 1. by rewrite Ha.
Qed.

Lemma standalone_year_None s : ∀ prev,
  Forall (λ c, unicode.isdecimal c = false) s → standalone_year prev s = None.
Proof.
  induction s as [| a s IH]; intros prev Hs; [done |].
  apply Forall_cons in Hs as [Ha Hs].
  destruct s as [| b [| c [| d s]]]; [done.. |].
  rewrite standalone_year_cons, (IH _ Hs).
  apply Forall_cons in Hs as [_ Hs]. apply Forall_cons in Hs as [Hc _].
  unfold stands_alone, d_ at 1. by rewrite Hc, !andb_false_r.
Qed.

Lemma standalone_year_Some s : ∀ prev w,
  standalone_year prev s = Some w →
  ∃ c d, (w = str "19" ++ [c; d] ∨ w = str "20" ++ [c; d]) ∧
         unicode.isdecimal c = true ∧ unicode.isdecimal d = true.
Proof.
  induction s as [| a s IH]; intros prev w; [done |].
  destruct s as [| b [| c [| d s]]]; [done.. |].
  rewrite standalone_year_cons.
  destruct (stands_alone prev a b c d s) eqn:Hcond; [| apply IH].
  intros [= <-]. unfold stands_alone in Hcond.
  apply andb_true_iff in Hcond as [Hcond _].
  apply andb_true_iff in Hcond as [Hcond Hd].
  apply andb_true_iff in Hcond as [Hcond Hc].
  apply andb_true_iff in Hcond as [_ Hab].
  exists c, d. split; [| done].
  apply orb_true_iff in Hab as [Hab | Hab]; apply bool_decide_eq_true in Hab;
    injection Hab as -> ->; [by left | by right].
Qed.

Lemma int_year a b c d vc vd :
  unicode.decimal c = Some vc → unicode.decimal d = Some vd →
  py.int ([a; b] ++ [c; d])
  = (((Z.of_N (default 0%N (unicode.decimal a)) * 10
       + Z.of_N (default 0%N (unicode.decimal b))) * 10 + Z.of_N vc) * 10 + Z.of_N vd)%Z.
Proof. intros Hc Hd. unfold py.int. simpl. by rewrite Hc, Hd. Qed.

Lemma standalone_year_range prev s w :
  standalone_year prev s = Some w → (1900 ≤ py.int w ≤ 2099)%Z.
Proof.
  intros (c & d & Hw & Hc & Hd)%standalone_year_Some.
  unfold unicode.isdecimal in Hc, Hd.
  destruct (unicode.decimal c) as [vc |] eqn:Hvc; [| done].
  destruct (unicode.decimal d) as [vd |] eqn:Hvd; [| done].
  pose proof (decimal_value_small _ _ Hvc). pose proof (decimal_value_small _ _ Hvd).
  destruct Hw as [-> | ->].
  - rewrite str_19, (int_year _ _ _ _ _ _ Hvc Hvd).
    change (unicode.decimal 49) with (Some 1%N). change (unicode.decimal 57) with (Some 9%N).
    simpl. lia.
  - rewrite str_20, (int_year _ _ _ _ _ _ Hvc Hvd).
    change (unicode.decimal 50) with (Some 2%N). change (unicode.decimal 48) with (Some 0%N).
    simpl. lia.
Qed.

(** C7, as the code has it: the API client returns the value of the
    first four consecutive digits; the pipeline returns the value of the
    first token 19xx or 20xx between word boundaries when there is one,
    and of the first four consecutive digits otherwise.  Both return
    2014 on the example and nothing on a text without digits. *)
Theorem extract_year_rule :
  (∀ s, api_client._extract_year (api_client.VStr s) = py.int <$> first_four_digits s) ∧
  (∀ s, playwright_scraper._extract_year (Some s)
        = py.int <$> from_option Some (first_four_digits s) (standalone_year None s)) ∧
  api_client._extract_year (api_client.VStr (str "Study start: March 2014 (estimated)"))
    = Some 2014%Z ∧
  playwright_scraper._extract_year (Some (str "Study start: March 2014 (estimated)"))
    = Some 2014%Z ∧
  (∀ s, Forall (λ c, unicode.isdecimal c = false) s →
        api_client._extract_year (api_client.VStr s) = None ∧
        playwright_scraper._extract_year (Some s) = None).
Proof.
  split_and!.
  - apply api_extract_year_eq.
  - apply scraper_extract_year_eq.
  - by vm_compute.
  - by vm_compute.
  - intros s Hs. rewrite api_extract_year_eq, scraper_extract_year_eq.
    by rewrite (standalone_year_None _ _ Hs), (first_four_digits_None _ Hs).
Qed.

Lemma extract_year_rule_witness :
  api_client._extract_year (api_client.VStr (str "to be announced")) = None ∧
  playwright_scraper._extract_year (Some (str "to be announced")) = None.
Proof.
  apply (proj2 (proj2 (proj2 (proj2 extract_year_rule)))).
  repeat constructor.
Defined.

(** C7 fails as stated for the pipeline: the first 4-digit token of
    "1234 2014" is 1234, and the pipeline returns 2014. *)
Lemma extract_year_not_first_token :
  first_four_digits (str "1234 2014") = Some (str "1234") ∧
  py.int (str "1234") = 1234%Z ∧
  playwright_scraper._extract_year (Some (str "1234 2014")) = Some 2014%Z.
Proof. split_and!; by vm_compute. Qed.




End extract_year.

(** ** Further properties of the text functions *)
Section text_extras.
Import re playwright_scraper spec.

Lemma clean_text_again val :
  _clean_text (_clean_text val) = _clean_text val.
Proof.
  destruct val as [s |]; [| done].
  destruct (_clean_text (Some s)) as [t |] eqn:Hclean; [| done].
  by eapply clean_text_clean.
Qed.

(** X1: cleaning a cleaned text changes nothing. *)
Theorem clean_text_idempotent val :
  _clean_text (_clean_text val) = _clean_text val.
Proof.
  destruct val as [s |]; [| done].
  destruct (_clean_text (Some s)) as [t |] eqn:Hclean; [| done].
  by eapply clean_text_clean.
Qed.

Lemma strip_ends t :
  py.strip t = t →
  (∀ c, head t = Some c → unicode.isspace c = false) ∧
  (∀ c, last t = Some c → unicode.isspace c = false).
Proof.
  intros Hstrip. split.
  - intros c Hc. rewrite <- Hstrip in Hc. unfold py.strip in Hc.
    destruct (rstrip_head (py.lstrip t)) as [E | E]; rewrite E in Hc; [done |].
    by eapply lstrip_head.
  - rewrite <- Hstrip. unfold py.strip. generalize (py.lstrip t). clear.
    intros s. induction s as [| a s IH]; [done |]. intros c. simpl.
    destruct (py.rstrip s) as [| b r] eqn:Hr.
    + destruct (unicode.isspace a) eqn:Ha; [done |]. by intros [= <-].
    + rewrite last_cons_cons. apply IH.
Qed.

(** X2: a cleaned text holds no zero-width character, byte-order mark or
    no-break space; its only white space is the space, never two in a
    row, and neither its first nor its last character. *)
Theorem clean_text_shape val t :
  _clean_text val = Some t →
  Forall (λ c, range 0x200B 0x200F c = false ∧ c ≠ 0xFEFF%N ∧ c ≠ 0xA0%N ∧
               (unicode.isspace c = true → c = 0x20%N)) t ∧
  isolated false t = true ∧
  (∀ c, head t = Some c → unicode.isspace c = false) ∧
  (∀ c, last t = Some c → unicode.isspace c = false).
Proof.
  destruct val as [s |]; [| done]. intros (Hs & Hiso & Hstrip)%clean_text_tidy.
  split_and!; [| done | by apply strip_ends | by apply strip_ends].
  eapply Forall_impl; [exact Hs |]. intros c Hc. unfold settled, kept in Hc.
  apply andb_true_iff in Hc as [[Hzw Hbom]%andb_true_iff Hsp].
  apply negb_true_iff in Hzw, Hbom. apply N.eqb_neq in Hbom.
  split; [done |]. split; [done |]. split.
  - intros ->. by vm_compute in Hsp.
  - intros Hc. rewrite Hc in Hsp. simpl in Hsp. by apply N.eqb_eq in Hsp.
Qed.

Lemma clean_text_shape_witness :
  ∃ t, _clean_text (Some ([0x200B; 0xA0]%N ++ str " a  b " ++ [0x3000; 0xFEFF]%N)) = Some t ∧
       t = str "a b" ∧ isolated false t = true.
Proof.
  assert (H : _clean_text (Some ([0x200B; 0xA0]%N ++ str " a  b " ++ [0x3000; 0xFEFF]%N))
              = Some (str "a b")) by (vm_compute; reflexivity).
  exists (str "a b"). split; [exact H |]. split; [reflexivity |].
  exact (proj1 (proj2 (clean_text_shape _ _ H))).
Defined.

End text_extras.

Section identifier_extras.
Import re playwright_scraper spec.

Lemma isspace_kept c : unicode.isspace c = true → kept c = true.
Proof.
  intros (r & Hr & Hin)%in_ranges_true. unfold kept, range.
  apply andb_true_iff. split; apply negb_true_iff, not_true_is_false.
  - intros [H1%N.leb_le H2%N.leb_le]%andb_true_iff. revert Hin.
    unfold unicode.whitespace_ranges in Hr.
    repeat (apply elem_of_cons in Hr as [-> | Hr]; [simpl; lia |]). inversion Hr.
  - intros ->%N.eqb_eq. revert Hin.
    unfold unicode.whitespace_ranges in Hr.
    repeat (apply elem_of_cons in Hr as [-> | Hr]; [simpl; lia |]). inversion Hr.
Qed.

Lemma stage1_app u v : stage1 (u ++ v) = stage1 u ++ stage1 v.
Proof. unfold stage1, py.replace. by rewrite !bind_app, filter_app. Qed.

Lemma stage1_space ws :
  Forall (λ x, unicode.isspace x = true) ws →
  Forall (λ x, unicode.isspace x = true) (stage1 ws) ∧ (ws = [] ↔ stage1 ws = []).
Proof.
  induction 1 as [| x ws Hx _ [IH1 IH2]]; [done |].
  change (x :: ws) with ([x] ++ ws). rewrite stage1_app.
  assert (∃ y, stage1 [x] = [y] ∧ unicode.isspace y = true) as (y & -> & Hy).
  { pose proof (isspace_kept x Hx) as [Hzw Hbom]%andb_true_iff.
    apply negb_true_iff in Hzw, Hbom. unfold stage1, py.replace. cbn [mbind list_bind app].
    destruct (x =? 160)%N eqn:Hnb.
    - exists 32%N. by vm_compute.
    - cbn [mbind list_bind app]. rewrite Hbom. cbn [app].
      rewrite filter_cons_True by done. by exists x. }
  split; [by constructor | done].
Qed.

Lemma squeeze_nonspace l : ∀ b rest,
  Forall (λ x, unicode.isspace x = false) l → l ≠ [] →
  squeeze b (l ++ rest) = l ++ squeeze false rest.
Proof.
  induction l as [| a l IH]; intros b rest Hl Hne; [done |].
  apply Forall_cons in Hl as [Ha Hl]. simpl. rewrite Ha. f_equal.
  destruct l as [| a' l]; [done |]. by apply IH.
Qed.

Lemma squeeze_space ws : ∀ rest,
  Forall (λ x, unicode.isspace x = true) ws →
  squeeze true (ws ++ rest) = squeeze true rest.
Proof.
  induction ws as [| a ws IH]; intros rest Hws; [done |].
  apply Forall_cons in Hws as [Ha Hws]. simpl. rewrite Ha. by apply IH.
Qed.

Lemma squeeze_gap ws l :
  Forall (λ x, unicode.isspace x = true) ws →
  Forall (λ x, unicode.isspace x = false) l → l ≠ [] →
  ∃ gap, squeeze false (ws ++ l) = gap ++ l ∧ Forall (λ x, unicode.isspace x = true) gap.
Proof.
  intros Hws Hl Hne.
  assert (Hl' : ∀ b, squeeze b l = l).
  { intros b. rewrite <- (app_nil_r l) at 1. by rewrite squeeze_nonspace, app_nil_r. }
  destruct Hws as [| a ws Ha Hws].
  - exists []. by rewrite !app_nil_l, Hl'.
  - exists [32%N]. simpl. rewrite Ha, (squeeze_space _ _ Hws), Hl'.
    split; [done |]. by repeat constructor.
Qed.

Lemma rstrip_app l d :
  Forall (λ x, unicode.isspace x = false) d → d ≠ [] → py.rstrip (l ++ d) = l ++ d.
Proof.
  intros Hd Hne. induction l as [| a l IH]; [by apply rstrip_fixed |].
  simpl. rewrite IH. destruct (l ++ d) eqn:E; [| done].
  apply app_eq_nil in E as [_ ->]. done.
Qed.

(** X3: the letters in either case, white space or none between them
    and the number, and four or more digits are brought to the form
    "NCT" and the digits. *)
Theorem canonical_nct_normalises n c t ws digits :
  ilit 0x4E n = true → ilit 0x43 c = true → ilit 0x54 t = true →
  Forall (λ x, unicode.isspace x = true) ws →
  Forall (λ x, unicode.isdecimal x = true) digits →
  4 ≤ length digits →
  _canonical_nct (Some ([n; c; t] ++ ws ++ digits)) = Some (str "NCT" ++ digits).
Proof.
  intros Hn Hc Ht Hws Hd Hlen.
  assert (Hne : digits ≠ []) by (intros ->; simpl in Hlen; lia).
  assert (Hletters : Forall (λ x, plain x = true) [n; c; t]).
  { repeat constructor; eapply ilit_plain; try done; lia. }
  assert (Hdigits : Forall (λ x, plain x = true) digits).
  { eapply Forall_impl; [exact Hd |]. intros x. apply isdecimal_plain. }
  assert (Hplain : ∀ l, Forall (λ x, plain x = true) l →
            Forall (λ x, settled x = true) l ∧ Forall (λ x, unicode.isspace x = false) l).
  { intros l Hl. split; (eapply Forall_impl; [exact Hl |]); intros x Hx; by apply plain_settled. }
  destruct (stage1_space ws Hws) as [Hws' _].
  destruct (squeeze_gap (stage1 ws) digits Hws' (proj2 (Hplain _ Hdigits)) Hne)
    as (gap & Hgap & Hgap_space).
  assert (Hclean : _clean_text (Some ([n; c; t] ++ ws ++ digits))
                   = Some ([n; c; t] ++ gap ++ digits)).
  { rewrite clean_text_eq. f_equal.
    rewrite !stage1_app, (stage1_settled _ (proj1 (Hplain _ Hletters))),
      (stage1_settled _ (proj1 (Hplain _ Hdigits))).
    rewrite (squeeze_nonspace _ _ _ (proj2 (Hplain _ Hletters))) by done.
    rewrite Hgap. unfold py.strip.
    rewrite lstrip_fixed.
    - rewrite !app_assoc. rewrite rstrip_app; [done | by apply Hplain | done].
    - intros x [= <-]. apply Forall_cons in Hletters as [Hx _]. by apply plain_settled. }
  unfold _canonical_nct. rewrite Hclean. cbn [app py.truthy negb].
  assert (Hm : matcher NCT_PATTERN false None (n :: c :: t :: gap ++ digits)
               = Some (Match ([n; c; t] ++ gap ++ digits) digits)).
  { rewrite matcher_nct.
    pose proof (nct_at_occurrence None n c t gap digits []) as H.
    rewrite app_nil_r in H. by apply H. }
  unfold search. cbn [search_from]. by rewrite Hm.
Qed.

Lemma canonical_nct_normalises_witness :
  _canonical_nct (Some (str "nCt" ++ [0x20; 0xA0; 0x09]%N ++ str "01234567"))
  = Some (str "NCT01234567").
Proof.
  apply (canonical_nct_normalises 0x6E 0x43 0x74 [0x20; 0xA0; 0x09]%N (str "01234567"));
    [reflexivity | reflexivity | reflexivity | repeat constructor | repeat constructor
    | vm_compute; lia].
Defined.

(** A result of the canonicalisation is canonical. *)
Lemma canonical_nct_fixed val r :
  _canonical_nct val = Some r → _canonical_nct (Some r) = Some r.
Proof.
  unfold _canonical_nct at 1. destruct val as [s |]; [| done].
  destruct (_clean_text (Some s)) as [t |] eqn:Hclean; [| done].
  destruct t as [| a t]; [done |]. cbn [py.truthy negb].
  destruct (search NCT_PATTERN (a :: t)) as [m |] eqn:Hsearch; intros [= <-].
  - destruct (search_nct_Some _ _ Hsearch)
      as (pre & n & c & t' & ws & post & _ & _ & _ & _ & _ & Hd & Hlen & _).
    by apply canonical_nct_of_form.
  - unfold _canonical_nct. by rewrite (clean_text_clean _ _ Hclean), Hsearch.
Qed.

End identifier_extras.

Section year_extras.
Import re spec.

Lemma first_four_digits_Some s w :
  first_four_digits s = Some w →
  ∃ a b c d, w = [a; b; c; d] ∧ d_ a = true ∧ d_ b = true ∧ d_ c = true ∧ d_ d = true.
Proof.
  induction s as [| a s IH]; [done |].
  destruct s as [| b [| c [| d s]]]; [done.. |].
  rewrite first_four_digits_cons.
  destruct (d_ a && d_ b && d_ c && d_ d) eqn:Hcond; [| apply IH].
  intros [= <-].
  apply andb_true_iff in Hcond as [[[? ?]%andb_true_iff ?]%andb_true_iff ?].
  exists a, b, c, d. done.
Qed.

Lemma int_four_range a b c d :
  d_ a = true → d_ b = true → d_ c = true → d_ d = true →
  (0 ≤ py.int [a; b; c; d] ≤ 9999)%Z.
Proof.
  unfold d_, unicode.isdecimal. intros Ha Hb Hc Hd.
  destruct (unicode.decimal a) as [va |] eqn:Hva; [| done].
  destruct (unicode.decimal b) as [vb |] eqn:Hvb; [| done].
  destruct (unicode.decimal c) as [vc |] eqn:Hvc; [| done].
  destruct (unicode.decimal d) as [vd |] eqn:Hvd; [| done].
  pose proof (decimal_value_small _ _ Hva). pose proof (decimal_value_small _ _ Hvb).
  pose proof (decimal_value_small _ _ Hvc). pose proof (decimal_value_small _ _ Hvd).
  unfold py.int. simpl. rewrite Hva, Hvb, Hvc, Hvd. simpl. lia.
Qed.

Lemma first_four_digits_bounds s y :
  py.int <$> first_four_digits s = Some y → (0 ≤ y ≤ 9999)%Z.
Proof.
  destruct (first_four_digits s) as [w |] eqn:Hw; [| done]. intros [= <-].
  destruct (first_four_digits_Some _ _ Hw) as (a & b & c & d & -> & ? & ? & ? & ?).
  by apply int_four_range.
Qed.

Lemma api_year_bounds v y :
  api_client._extract_year v = Some y → (0 ≤ y ≤ 9999)%Z.
Proof.
  unfold api_client._extract_year, search. rewrite search_four.
  destruct v as [| s | xs]; [done | |];
    (destruct (first_four_digits _) as [w |] eqn:E; [| done]);
    intros [= <-]; eapply first_four_digits_bounds; by rewrite E.
Qed.

Lemma scraper_year_bounds text y :
  playwright_scraper._extract_year text = Some y → (0 ≤ y ≤ 9999)%Z.
Proof.
  destruct text as [s |]; [| done]. rewrite scraper_extract_year_eq.
  destruct (standalone_year None s) as [w |] eqn:Hw; simpl.
  - intros [= <-]. pose proof (standalone_year_range _ _ _ Hw). lia.
  - apply first_four_digits_bounds.
Qed.

(** X4: a start year, from either extraction and whatever the input,
    is a number of at most four digits. *)
Theorem extract_year_range :
  (∀ v y, api_client._extract_year v = Some y → (0 ≤ y ≤ 9999)%Z) ∧
  (∀ text y, playwright_scraper._extract_year text = Some y → (0 ≤ y ≤ 9999)%Z).
Proof. split; [exact api_year_bounds | exact scraper_year_bounds]. Qed.

Lemma extract_year_range_witness :
  playwright_scraper._extract_year (Some (str "Start: 2014-03")) = Some 2014%Z ∧
  (0 ≤ 2014 ≤ 9999)%Z ∧
  api_client._extract_year (api_client.VList [str "id 0123456"; str "2020"]) = Some 123%Z ∧
  (0 ≤ 123 ≤ 9999)%Z.
Proof.
  assert (H1 : playwright_scraper._extract_year (Some (str "Start: 2014-03")) = Some 2014%Z)
    by (vm_compute; reflexivity).
  assert (H2 : api_client._extract_year (api_client.VList [str "id 0123456"; str "2020"])
               = Some 123%Z) by (vm_compute; reflexivity).
  split; [exact H1 |]. split; [exact (proj2 extract_year_range _ _ H1) |].
  split; [exact H2 | exact (proj1 extract_year_range _ _ H2)].
Defined.

End year_extras.

(** ** Further properties of the pagination loop *)
Section pagination_extras.
Import playwright_scraper spec vocabulary.

Lemma len_app {A} (xs ys : list A) : len (xs ++ ys) = (len xs + len ys)%Z.
Proof. unfold len. rewrite length_app. lia. Qed.

Lemma scan_bounded max_results items : ∀ pairs seen pairs' seen',
  (len pairs < max_results)%Z →
  scan max_results items pairs seen = (pairs', seen') →
  (len pairs' ≤ max_results)%Z.
Proof.
  induction items as [| it items IH]; intros pairs seen pairs' seen' Hlen Hscan; simpl in Hscan.
  - inversion Hscan; subst. lia.
  - destruct (it_nctId it) as [nct |]; [| by eapply IH].
    destruct (negb (py.truthy nct) || bool_decide (nct ∈ seen)); [by eapply IH |].
    destruct (Z.leb_spec max_results (len (pairs ++ [it]))) as [Hfull | Hroom].
    + inversion Hscan; subst. rewrite len_app in *. unfold len in *. simpl in *. lia.
    + by eapply IH.
Qed.

Lemma scan_scanned b max_results items : ∀ pairs seen pairs' seen',
  (∀ it, it ∈ items → ∃ n, it ∈ _pairs_from_search_page (results b n)) →
  Forall (scanned b) pairs →
  scan max_results items pairs seen = (pairs', seen') →
  Forall (scanned b) pairs'.
Proof.
  induction items as [| it items IH]; intros pairs seen pairs' seen' Hitems Hinv Hscan;
    simpl in Hscan.
  - by inversion Hscan; subst.
  - assert (Hrest : ∀ it', it' ∈ items → ∃ n, it' ∈ _pairs_from_search_page (results b n)).
    { intros it' Hit'. apply Hitems. by right. }
    destruct (it_nctId it) as [nct |] eqn:Hnct; [| by eapply IH].
    destruct (negb (py.truthy nct) || bool_decide (nct ∈ seen)) eqn:Hskip; [by eapply IH |].
    apply orb_false_elim in Hskip as [Htruthy%negb_false_iff _].
    assert (Hinv' : Forall (scanned b) (pairs ++ [it])).
    { apply Forall_app. split; [done |]. constructor; [| done]. split.
      - apply Hitems. by left.
      - exists nct. split; [done |]. by destruct nct. }
    destruct (max_results <=? len (pairs ++ [it]))%Z; [by inversion Hscan; subst | by eapply IH].
Qed.

Lemma paginate_bounded fuel max_results b : ∀ n pairs seen pairs',
  (len pairs ≤ Z.max 0 max_results)%Z → Forall (scanned b) pairs →
  paginate fuel max_results b n pairs seen = Some pairs' →
  (len pairs' ≤ Z.max 0 max_results)%Z ∧ Forall (scanned b) pairs'.
Proof.
  induction fuel as [| fuel IH]; intros n pairs seen pairs' Hlen Hinv Hrun; simpl in Hrun; [done |].
  destruct (Z.ltb_spec (len pairs) max_results) as [Hroom | Hfull];
    [| by inversion Hrun; subst].
  destruct (scan _ _ pairs seen) as [pairs1 seen1] eqn:Hscan.
  pose proof (scan_bounded _ _ _ _ _ _ Hroom Hscan) as Hlen1.
  assert (Hinv1 : Forall (scanned b) pairs1).
  { eapply scan_scanned; [| exact Hinv | exact Hscan]. eauto. }
  assert (Hdone : (len pairs1 ≤ Z.max 0 max_results)%Z ∧ Forall (scanned b) pairs1)
    by (split; [lia | done]).
  destruct (max_results <=? len pairs1)%Z; [by inversion Hrun; subst |].
  destruct (next_btn _) as [| aria click_ok]; [by inversion Hrun; subst |].
  destruct (reports_disabled aria); [by inversion Hrun; subst |].
  destruct click_ok; [| by inversion Hrun; subst].
  eapply IH; [| exact Hinv1 | exact Hrun]. lia.
Qed.

Lemma slice_to_all {A} (xs : list A) (m : Z) :
  (len xs ≤ Z.max 0 m)%Z → py.slice_to xs m = xs.
Proof.
  unfold py.slice_to, len. intros Hlen. destruct (Z.leb_spec 0 m).
  - apply take_ge. lia.
  - assert (length xs = 0) as Hnil by lia. apply nil_length_inv in Hnil as ->. by rewrite take_nil.
Qed.

Lemma collect_invariant fuel max_results b pairs :
  collect fuel max_results b = Some pairs →
  (len pairs ≤ Z.max 0 max_results)%Z ∧
  py.slice_to pairs max_results = pairs ∧
  Forall (scanned b) pairs.
Proof.
  intros Hrun. unfold collect in Hrun.
  assert (Hempty : (len (@nil candidate) ≤ Z.max 0 max_results)%Z) by (unfold len; simpl; lia).
  destruct (paginate_bounded _ _ _ _ _ _ _ Hempty (Forall_nil_2 _) Hrun) as [Hlen Hinv].
  split_and!; [done | by apply slice_to_all | done].
Qed.

(** X5: the loop collects at most [max_results] candidates (none for a
    bound that is not positive), so the slice taken of them afterwards is
    all of them; each one was given by a scanned snapshot and has a
    non-empty identifier. *)
Theorem collect_bounded fuel max_results b pairs :
  collect fuel max_results b = Some pairs →
  (len pairs ≤ Z.max 0 max_results)%Z ∧
  py.slice_to pairs max_results = pairs ∧
  Forall (scanned b) pairs.
Proof.
  intros Hrun. unfold collect in Hrun.
  assert (Hempty : (len (@nil candidate) ≤ Z.max 0 max_results)%Z) by (unfold len; simpl; lia).
  destruct (paginate_bounded _ _ _ _ _ _ _ Hempty (Forall_nil_2 _) Hrun) as [Hlen Hinv].
  split_and!; [done | by apply slice_to_all | done].
Qed.

Lemma collect_bounded_witness :
  ∃ pairs, collect 5 2 samples.listing = Some pairs ∧
           (len pairs ≤ Z.max 0 2)%Z ∧ py.slice_to pairs 2 = pairs ∧
           Forall (scanned samples.listing) pairs.
Proof.
  assert (H : ∃ pairs, collect 5 2 samples.listing = Some pairs)
    by (eexists; vm_compute; reflexivity).
  destruct H as [pairs H]. exists pairs. split; [exact H |].
  exact (collect_bounded 5 2 samples.listing pairs H).
Defined.

Lemma paginate_ends max_results b k : ∀ fuel n pairs seen,
  last_page (results b k) → n ≤ k → k - n < fuel →
  ∃ pairs', paginate fuel max_results b n pairs seen = Some pairs'.
Proof.
  induction fuel as [| fuel IH]; intros n pairs seen Hlast Hn Hfuel; [lia |]. simpl.
  destruct (len pairs <? max_results)%Z; [| eauto].
  destruct (scan _ _ pairs seen) as [pairs1 seen1].
  destruct (max_results <=? len pairs1)%Z; [eauto |].
  destruct (next_btn (results b n)) as [| aria click_ok] eqn:Hnext; [eauto |].
  destruct (reports_disabled aria) eqn:Haria; [eauto |].
  destruct click_ok; [| eauto].
  destruct (decide (n = k)) as [-> | Hne].
  - unfold last_page in Hlast. rewrite Hnext in Hlast. destruct Hlast; congruence.
  - apply IH; [done | lia | lia].
Qed.

Lemma paginate_more_fuel max_results b : ∀ fuel n pairs seen pairs',
  paginate fuel max_results b n pairs seen = Some pairs' →
  paginate (S fuel) max_results b n pairs seen = Some pairs'.
Proof.
  induction fuel as [| fuel IH]; intros n pairs seen pairs' Hrun; [done |].
  cbn [paginate] in Hrun |- *.
  destruct (len pairs <? max_results)%Z; [| done].
  destruct (scan _ _ pairs seen) as [pairs1 seen1].
  destruct (max_results <=? len pairs1)%Z; [done |].
  destruct (next_btn (results b n)) as [| aria click_ok]; [done |].
  destruct (reports_disabled aria); [done |].
  destruct click_ok; [| done]. by apply IH.
Qed.

(** X6: the pagination ends at the latest on the first snapshot whose
    next-page control is absent, reports itself disabled or cannot be
    clicked: the loop returns within one round more than the number of
    that snapshot, and what it returns does not change with further
    rounds. *)
Theorem collect_ends max_results b k fuel :
  last_page (results b k) → k < fuel →
  ∃ pairs, collect fuel max_results b = Some pairs ∧
           ∀ more, collect (fuel + more) max_results b = Some pairs.
Proof.
  intros Hlast Hfuel. unfold collect.
  destruct (paginate_ends max_results b k fuel 0 [] ∅ Hlast) as [pairs Hrun]; [lia | lia |].
  exists pairs. split; [done |]. intros more.
  induction more as [| more IH]; [by rewrite Nat.add_0_r |].
  rewrite Nat.add_succ_r. by apply paginate_more_fuel.
Qed.

Lemma collect_ends_witness :
  ∃ pairs, collect 1 10 samples.listing = Some pairs ∧
           ∀ more, collect (1 + more) 10 samples.listing = Some pairs.
Proof. apply (collect_ends 10 samples.listing 0 1); [exact I | lia]. Defined.



End pagination_extras.

(** ** Further properties of the detail loop and of the run *)
Section run_extras.
Import playwright_scraper spec vocabulary.

Lemma visit_raises b its : ∀ n records out i it url,
  its !! i = Some it → linked it → it_url it = Some url →
  detail b (n + i) url = DetailRaises →
  visit b n its records out = Raised.
Proof.
  induction its as [| it0 its IH]; intros n records out i it url Hi [Hnct Hlink] Hurl Hdetail;
    [done |].
  destruct i as [| i].
  - injection Hi as ->. simpl. rewrite Nat.add_0_r in Hdetail.
    destruct (it_nctId it) as [nct |]; [| done]. rewrite Hurl in *. simpl in Hnct, Hlink.
    by rewrite Hnct, Hlink, Hdetail.
  - simpl in Hi. replace (n + S i) with (S n + i) in Hdetail by lia.
    pose proof (λ records out, IH (S n) records out i it url Hi (conj Hnct Hlink) Hurl Hdetail)
      as Hrest.
    simpl. destruct (it_nctId it0) as [nct0 |]; [| apply Hrest].
    destruct (it_url it0) as [url0 |]; [| apply Hrest].
    destruct (negb (py.truthy nct0) || negb (py.truthy url0)); [apply Hrest |].
    destruct (detail b n url0) as [| brief_title overview]; [done |].
    destruct (unknown_status brief_title); apply Hrest.
Qed.

(** X8: a detail view that raises ends the whole run: nothing is
    written, whatever the other candidates are. *)
Theorem detail_raise_aborts fuel max_results b pairs i it url :
  collect fuel max_results b = Some pairs →
  pairs !! i = Some it → linked it → it_url it = Some url →
  detail b i url = DetailRaises →
  scrape fuel max_results b = Some Raised.
Proof.
  intros Hcollect Hi Hlinked Hurl Hdetail. unfold scrape. rewrite Hcollect.
  destruct (collect_invariant _ _ _ _ Hcollect) as (_ & -> & _).
  by rewrite (visit_raises b pairs 0 [] [] i it url).
Qed.

Lemma detail_raise_aborts_witness :
  scrape 5 10 more_samples.third_raises = Some Raised.
Proof.
  eapply (detail_raise_aborts 5 10 more_samples.third_raises _ 2);
    [vm_compute; reflexivity | reflexivity | split; reflexivity | reflexivity | reflexivity].
Defined.

Lemma record_from_cons it its r : record_from its r → record_from (it :: its) r.
Proof. intros [(it' & ? & ?) ?]. split; [| done]. exists it'. split; [by right | done]. Qed.

Lemma visit_records b its : ∀ n records out records' out',
  visit b n its records out = Returned (records', out') →
  ∃ added warned,
    records' = records ++ added ∧ out' = out ++ warned ∧
    Forall (record_from its) added ∧
    (∀ r, r ∈ added → untitled r → ∃ url, WARN_TITLE_NONE (nctId r) url ∈ warned) ∧
    (∀ nct url, WARN_TITLE_NONE nct url ∈ warned → ∃ r, r ∈ added ∧ nctId r = nct ∧ untitled r).
Proof.
  induction its as [| it its IH]; intros n records out records' out' Hrun; simpl in Hrun.
  - inversion Hrun; subst. exists [], []. rewrite !app_nil_r.
    split_and!; [done | done | done | |]; intros; by set_solver.
  - assert (Hskip : visit b (S n) its records out = Returned (records', out') →
      ∃ added warned,
        records' = records ++ added ∧ out' = out ++ warned ∧
        Forall (record_from (it :: its)) added ∧
        (∀ r, r ∈ added → untitled r → ∃ url, WARN_TITLE_NONE (nctId r) url ∈ warned) ∧
        (∀ nct url, WARN_TITLE_NONE nct url ∈ warned →
                    ∃ r, r ∈ added ∧ nctId r = nct ∧ untitled r)).
    { intros Hrest.
      destruct (IH _ _ _ _ _ Hrest) as (added & warned & -> & -> & Hfrom & Hw1 & Hw2).
      exists added, warned. split_and!; [done | done | | done | done].
      eapply Forall_impl; [exact Hfrom | intros r; apply record_from_cons]. }
    destruct (it_nctId it) as [nct_id |] eqn:Hnct; [| by apply Hskip].
    destruct (it_url it) as [url |] eqn:Hurl; [| by apply Hskip].
    destruct (negb (py.truthy nct_id) || negb (py.truthy url)); [by apply Hskip |].
    destruct (detail b n url) as [| brief_title overview]; [done |].
    destruct (unknown_status brief_title); [by apply Hskip |].
    destruct (IH _ _ _ _ _ Hrun) as (added & warned & -> & -> & Hfrom & Hw1 & Hw2).
    set (final_title := or_else brief_title (it_briefTitle it)) in *.
    set (start_year := overview ≫= (λ t, _extract_year (_clean_text (Some t)))) in *.
    set (r := Record_ nct_id final_title start_year (it_country it)) in *.
    exists (r :: added),
      ((if negb (py.truthy_opt final_title) then [WARN_TITLE_NONE nct_id url] else []) ++ warned).
    split_and!.
    + by rewrite <- app_assoc.
    + destruct (negb (py.truthy_opt final_title)); [by rewrite <- app_assoc | done].
    + constructor.
      * split; [exists it; split_and!; [by left | done | done] |].
        subst start_year. destruct overview as [t |]; [right; eauto | by left].
      * eapply Forall_impl; [exact Hfrom | intros r'; apply record_from_cons].
    + intros r' [-> | Hr']%elem_of_cons Hno.
      * exists url. unfold untitled in Hno. simpl in Hno. rewrite Hno. simpl. by left.
      * destruct (Hw1 r' Hr' Hno) as [url' Hin]. exists url'. apply elem_of_app. by right.
    + intros nct url' [Hin | Hin]%elem_of_app.
      * destruct (negb (py.truthy_opt final_title)) eqn:Hno; [| by inversion Hin].
        apply list_elem_of_singleton in Hin. injection Hin as -> ->.
        exists r. split_and!; [by left | done | by apply negb_true_iff in Hno].
      * destruct (Hw2 nct url' Hin) as (r' & ? & ? & ?). exists r'. split_and!; [by right | done..].
Qed.

(** A returned run, with the truncations gone. *)
Lemma scrape_records fuel max_results b out :
  scrape fuel max_results b = Some (Returned out) →
  ∃ pairs,
    collect fuel max_results b = Some pairs ∧
    visit b 0 pairs [] [] = Returned (artifact out, printed out).
Proof.
  intros Hrun.
  destruct (scrape_returned _ _ _ _ Hrun) as (pairs & records & Hcollect & Hvisit & Hart & _).
  destruct (collect_invariant _ _ _ _ Hcollect) as (Hlen & Hslice & _).
  rewrite Hslice in Hvisit. exists pairs. split; [done |].
  destruct (visit_emits _ _ _ _ _ _ _ Hvisit) as (added & warned & Hrec & _ & Hsub & _).
  simpl in Hrec. subst records.
  apply sublist_length in Hsub. rewrite !length_fmap in Hsub.
  rewrite Hart, slice_to_all; [done |]. unfold len in *. lia.
Qed.

(** X9: the truncation to [max_results] never cuts a record: what is
    written is every record that the detail loop built, one for each
    candidate at most, in the order of the candidates. *)
Theorem artifact_untruncated fuel max_results b out :
  scrape fuel max_results b = Some (Returned out) →
  ∃ pairs,
    collect fuel max_results b = Some pairs ∧
    visit b 0 pairs [] [] = Returned (artifact out, printed out) ∧
    (Some ∘ nctId <$> artifact out) `sublist_of` (it_nctId <$> pairs) ∧
    (count out ≤ len pairs)%Z.
Proof.
  intros Hrun. destruct (scrape_records _ _ _ _ Hrun) as (pairs & Hcollect & Hvisit).
  exists pairs. split_and!; [done | done | |].
  - destruct (visit_emits _ _ _ _ _ _ _ Hvisit) as (added & warned & Hrec & _ & Hsub & _).
    simpl in Hrec. by subst added.
  - destruct (scrape_returned _ _ _ _ Hrun) as (_ & _ & _ & _ & _ & ->).
    destruct (visit_emits _ _ _ _ _ _ _ Hvisit) as (added & warned & Hrec & _ & Hsub & _).
    simpl in Hrec. subst added. apply sublist_length in Hsub.
    rewrite !length_fmap in Hsub. unfold len. lia.
Qed.

Lemma artifact_untruncated_witness :
  ∃ pairs, collect 5 2 samples.listing = Some pairs ∧ length pairs = 2 ∧
           ∃ out, scrape 5 2 samples.listing = Some (Returned out) ∧
                  visit samples.listing 0 pairs [] [] = Returned (artifact out, printed out).
Proof.
  assert (H : ∃ out, scrape 5 2 samples.listing = Some (Returned out))
    by (eexists; vm_compute; reflexivity).
  destruct H as [out H].
  destruct (artifact_untruncated 5 2 samples.listing out H) as (pairs & Hc & Hv & _).
  exists pairs. split; [exact Hc |]. split.
  - vm_compute in Hc. injection Hc as <-. reflexivity.
  - exists out. split; [exact H | exact Hv].
Defined.



Lemma pairs_canonical page it :
  it ∈ _pairs_from_search_page page →
  ∃ raw, it_nctId it = _canonical_nct (r_nct raw) ∧
         it_briefTitle it = _clean_text (r_briefTitle raw) ∧
         it_country it = _clean_text (r_country raw).
Proof.
  unfold _pairs_from_search_page. destruct (negb (nct_id_visible page)); [by intros ?%elem_of_nil |].
  intros (raw & -> & _)%list_elem_of_fmap. by exists raw.
Qed.

(** X11: every written record carries a non-empty identifier that the
    canonicalisation leaves as it is, a country that is a cleaned text or
    absent, and a start year of at most four digits or none. *)
Theorem records_canonical fuel max_results b out r :
  scrape fuel max_results b = Some (Returned out) → r ∈ artifact out →
  nctId r ≠ [] ∧ _canonical_nct (Some (nctId r)) = Some (nctId r) ∧
  _clean_text (country r) = country r ∧
  (∀ y, startYear r = Some y → (0 ≤ y ≤ 9999)%Z).
Proof.
  intros Hrun Hr. destruct (scrape_records _ _ _ _ Hrun) as (pairs & Hcollect & Hvisit).
  destruct (collect_invariant _ _ _ _ Hcollect) as (_ & _ & Hscanned).
  destruct (visit_records _ _ _ _ _ _ _ Hvisit) as (added & warned & Hrec & _ & Hfrom & _).
  simpl in Hrec. subst added. rewrite Forall_forall in Hfrom.
  destruct (Hfrom r Hr) as [(it & Hit & Hnct & Hcountry) Hyear].
  rewrite Forall_forall in Hscanned.
  destruct (Hscanned it Hit) as [[n Hpage] (nct & Hnct' & Hne)].
  destruct (pairs_canonical _ _ Hpage) as (raw & Hcanon & _ & Hclean).
  assert (nct = nctId r) as -> by congruence.
  split_and!; [done | | |].
  - eapply canonical_nct_fixed. by rewrite <- Hcanon.
  - rewrite Hcountry, Hclean. apply clean_text_again.
  - intros y Hy. destruct Hyear as [Hnone | [text Htext]]; [congruence |].
    rewrite Htext in Hy. by eapply scraper_year_bounds.
Qed.

Lemma records_canonical_witness :
  ∃ out r, scrape 5 2 samples.listing = Some (Returned out) ∧ r ∈ artifact out ∧
           nctId r = str "NCT00000001" ∧
           _canonical_nct (Some (nctId r)) = Some (nctId r).
Proof.
  assert (H : ∃ out, scrape 5 2 samples.listing = Some (Returned out))
    by (eexists; vm_compute; reflexivity).
  destruct H as [out H].
  assert (Hr : ∃ r, r ∈ artifact out ∧ nctId r = str "NCT00000001").
  { vm_compute in H. injection H as <-. eexists. split; [by left | reflexivity]. }
  destruct Hr as (r & Hr & Hid). exists out, r. split; [exact H |]. split; [exact Hr |].
  split; [exact Hid |].
  exact (proj1 (proj2 (records_canonical 5 2 samples.listing out r H Hr))).
Defined.

End run_extras.

(** ** The count and the identifiers of the written records *)
Section written_records.
Import playwright_scraper spec vocabulary.

Lemma artifact_length fuel max_results b out :
  scrape fuel max_results b = Some (Returned out) →
  count out = len (artifact out) ∧ (len (artifact out) ≤ Z.max 0 max_results)%Z.
Proof.
  intros Hrun.
  destruct (scrape_returned _ _ _ _ Hrun) as (pairs & records & Hcollect & Hvisit & Hart & Hcount).
  split; [done |].
  destruct (collect_invariant _ _ _ _ Hcollect) as (Hlen & Hslice & _).
  rewrite Hslice in Hvisit.
  destruct (visit_emits _ _ _ _ _ _ _ Hvisit) as (added & warned & Hrec & _ & Hsub & _).
  simpl in Hrec. subst records. apply sublist_length in Hsub. rewrite !length_fmap in Hsub.
  pose proof (sublist_length _ _ (slice_to_sublist added max_results)) as Hcut.
  rewrite Hart. unfold len in *. lia.
Qed.

(** C4, as the code has it: the count that a run returns is the number
    of record lines written, and both are at most [max_results] when that
    is not negative; for a negative [max_results] nothing is written and
    the count is 0. *)
Theorem scrape_count_bounded fuel max_results b out :
  scrape fuel max_results b = Some (Returned out) →
  count out = len (artifact out) ∧
  (count out ≤ Z.max 0 max_results)%Z ∧ (len (artifact out) ≤ Z.max 0 max_results)%Z ∧
  ((max_results < 0)%Z → artifact out = [] ∧ count out = 0%Z).
Proof.
  intros Hrun. destruct (artifact_length _ _ _ _ Hrun) as [Hcount Hlen].
  split_and!; [done | by rewrite Hcount | done |].
  intros Hneg. assert (Hnil : length (artifact out) = 0) by (unfold len in Hlen; lia).
  apply nil_length_inv in Hnil. by rewrite Hcount, Hnil.
Qed.

Lemma scrape_count_bounded_witness :
  ∃ out, scrape 5 2 samples.listing = Some (Returned out) ∧
         (count out ≤ 2)%Z ∧ (len (artifact out) ≤ 2)%Z.
Proof.
  assert (H : ∃ out, scrape 5 2 samples.listing = Some (Returned out))
    by (eexists; vm_compute; reflexivity).
  destruct H as [out H]. exists out. split; [exact H |].
  destruct (scrape_count_bounded 5 2 samples.listing out H) as (_ & Hcount & Hlen & _).
  split; [exact Hcount | exact Hlen].
Defined.

(** C4 fails as stated: asked for at most -1 records, the run returns
    the count 0, which is more. *)
Lemma scrape_count_exceeds_negative_bound :
  ∃ out, scrape 5 (-1) samples.listing = Some (Returned out) ∧
         artifact out = [] ∧ count out = 0%Z ∧ ¬ (count out ≤ -1)%Z.
Proof. eexists. split_and!; [vm_compute; reflexivity | reflexivity | reflexivity | by vm_compute]. Qed.

(** A candidate of a scanned snapshot has the canonical form of the
    text of an identifier element. *)
Lemma pairs_from_element b n it :
  it ∈ _pairs_from_search_page (results b n) →
  ∃ val, identifier_element b val ∧ it_nctId it = _canonical_nct val.
Proof.
  unfold _pairs_from_search_page.
  destruct (nct_id_visible (results b n)) eqn:Hvisible; simpl; [| by intros ?%elem_of_nil].
  intros (raw & -> & Hraw)%list_elem_of_fmap. exists (r_nct raw). split; [| done].
  by exists n, raw.
Qed.

Lemma nct_occurrence_digits t digits : nct_occurrence t digits → four_or_more_digits digits.
Proof. intros (pre & n & c & t' & ws & post & _ & _ & _ & _ & _ & Hd & Hlen & _). by split. Qed.

(** The identifier of a written record is the canonical form of the
    text of an identifier element. *)
Lemma artifact_identifier fuel max_results b out r :
  scrape fuel max_results b = Some (Returned out) → r ∈ artifact out →
  ∃ val, identifier_element b val ∧ _canonical_nct val = Some (nctId r).
Proof.
  intros Hrun Hr. destruct (scrape_records _ _ _ _ Hrun) as (pairs & Hcollect & Hvisit).
  destruct (collect_invariant _ _ _ _ Hcollect) as (_ & _ & Hscanned).
  destruct (visit_records _ _ _ _ _ _ _ Hvisit) as (added & warned & Hrec & _ & Hfrom & _).
  simpl in Hrec. subst added. rewrite Forall_forall in Hfrom.
  destruct (Hfrom r Hr) as [(it & Hit & Hnct & _) _].
  rewrite Forall_forall in Hscanned.
  destruct (Hscanned it Hit) as [[n Hpage] _].
  destruct (pairs_from_element _ _ _ Hpage) as (val & Hval & Hcanon).
  exists val. split; [done | congruence].
Qed.

(** C2, as the code has it.  The function: absent when nothing is left
    of the input after cleaning; otherwise "NCT" and the digits of an
    identifier that stands in the cleaned text (after a word boundary the
    letters in either case, white space or none, four or more digits up
    to a word boundary) when there is one, and the cleaned text itself
    when there is none.  The pipeline: the nctId of every written record
    comes in this way from the text of an identifier element of the
    result list, so it is "NCT" and four or more digits, or the non-empty
    cleaned text of an element in which no identifier stands. *)
Theorem canonical_nct_rule :
  (∀ val,
     match _canonical_nct val with
     | None => _clean_text val = None ∨ _clean_text val = Some []
     | Some r =>
         ∃ t, _clean_text val = Some t ∧ t ≠ [] ∧
              ((∃ digits, nct_occurrence t digits ∧ r = str "NCT" ++ digits) ∨
               ((∀ digits, ¬ nct_occurrence t digits) ∧ r = t))
     end) ∧
  (∀ fuel max_results b out r,
     scrape fuel max_results b = Some (Returned out) → r ∈ artifact out →
     ∃ val t,
       identifier_element b val ∧ _clean_text val = Some t ∧ t ≠ [] ∧
       ((∃ digits, nct_occurrence t digits ∧ four_or_more_digits digits ∧
                   nctId r = str "NCT" ++ digits) ∨
        ((∀ digits, ¬ nct_occurrence t digits) ∧ nctId r = t))).
Proof.
  split; [exact canonical_nct_cases |].
  intros fuel max_results b out r Hrun Hr.
  destruct (artifact_identifier _ _ _ _ _ Hrun Hr) as (val & Hval & Hcanon).
  pose proof (canonical_nct_cases val) as Hcases. rewrite Hcanon in Hcases.
  destruct Hcases as (t & Hclean & Hne & [(digits & Hocc & Hr') | [Hnone Hr']]).
  - exists val, t. split_and!; [done.. |]. left. exists digits.
    split_and!; [done | by eapply nct_occurrence_digits | done].
  - exists val, t. split_and!; [done.. |]. by right.
Qed.

Lemma canonical_nct_rule_witness :
  ∃ out r, scrape 5 2 samples.listing = Some (Returned out) ∧ r ∈ artifact out ∧
    ∃ val t,
      identifier_element samples.listing val ∧ _clean_text val = Some t ∧ t ≠ [] ∧
      ((∃ digits, nct_occurrence t digits ∧ four_or_more_digits digits ∧
                  nctId r = str "NCT" ++ digits) ∨
       ((∀ digits, ¬ nct_occurrence t digits) ∧ nctId r = t)).
Proof.
  assert (H : ∃ out, scrape 5 2 samples.listing = Some (Returned out))
    by (eexists; vm_compute; reflexivity).
  destruct H as [out H].
  assert (Hr : ∃ r, r ∈ artifact out).
  { vm_compute in H. injection H as <-. eexists. by left. }
  destruct Hr as [r Hr]. exists out, r. split; [exact H |]. split; [exact Hr |].
  exact (proj2 canonical_nct_rule 5 2%Z samples.listing out r H Hr).
Defined.

End written_records.

(** ** Further properties of the runner *)
Section runner_extras.
Import playwright_runner vocabulary.

Lemma expired_falsy timeout now : falsy timeout → expired timeout now = false.
Proof. by intros [-> | ->]. Qed.

Lemma falsy_on_time timeout lines : falsy timeout → on_time timeout lines.
Proof. intros Hfalsy. apply Forall_forall. intros l _. by apply expired_falsy. Qed.

(** The test of the timeout, once it holds, holds from then on. *)
Lemma expired_later timeout now now' :
  (now ≤ now')%Z → expired timeout now' = false → expired timeout now = false.
Proof.
  unfold expired. destruct timeout as [t |]; [| done]. intros Hle.
  destruct (negb (t =? 0)%Z); [| done]. cbn [andb].
  intros Hlate%Z.ltb_ge. apply Z.ltb_ge. lia.
Qed.

Lemma read_lines_on_time timeout lines : ∀ now logs,
  Forall (λ l, expired timeout (Z.max now l.1) = false) lines →
  read_lines timeout now lines logs
  = (false, read_until now lines, logs ++ (rstrip_newline ∘ snd <$> lines)).
Proof.
  induction lines as [| [at_ line] lines IH]; intros now logs Hlines; simpl.
  - by rewrite app_nil_r.
  - apply Forall_cons in Hlines as [Hhead Hlines]. simpl in Hhead. rewrite Hhead, IH.
    + by rewrite <- app_assoc.
    + eapply Forall_impl; [exact Hlines |]. intros l Hl. simpl in Hl.
      destruct (Z.max_spec (Z.max now at_) l.1) as [[_ ->] | [_ ->]]; [| done].
      eapply expired_later; [| exact Hl]. lia.
Qed.

Lemma read_lines_to_the_end c timeout :
  falsy timeout ∨ on_time timeout (stdout c) →
  read_lines timeout 0 (stdout c) []
  = (false, read_until 0 (stdout c), rstrip_newline ∘ snd <$> stdout c).
Proof.
  intros Hon. rewrite read_lines_on_time; [done |].
  destruct Hon as [Hfalsy | Hon]; [by apply falsy_on_time | done].
Qed.

(** X12: when no line is read late (so always without a timeout, none
    or 0) the loop reads the child's output to its end and is not left
    by the kill; when the child then exits within five seconds of the end
    of its output, the result is the child's exit status, the time of its
    exit and its lines, without their line ends, in order. *)
Theorem on_time_reads_all c timeout :
  falsy timeout ∨ on_time timeout (stdout c) →
  let done := Z.max (read_until 0 (stdout c)) (closes_at c) in
  read_lines timeout 0 (stdout c) []
  = (false, read_until 0 (stdout c), rstrip_newline ∘ snd <$> stdout c) ∧
  ((exits_at c ≤ done + 5000)%Z →
   run_playwright_subprocess c timeout
   = (exit_code c, Z.max done (exits_at c), rstrip_newline ∘ snd <$> stdout c)).
Proof.
  intros Hon done. pose proof (read_lines_to_the_end c timeout Hon) as Hread.
  split; [done |]. intros Hexit. unfold run_playwright_subprocess.
  rewrite Hread. fold done.
  destruct (Z.leb_spec (exits_at c) (done + 5000)); [done | lia].
Qed.

Lemma on_time_reads_all_witness :
  run_playwright_subprocess samples.chatty (Some 10%Z)
  = (0%Z, 10000%Z, replicate 20 (str "tick")).
Proof.
  assert (Hon : falsy (Some 10%Z) ∨ on_time (Some 10%Z) (stdout samples.chatty))
    by (right; repeat constructor).
  assert (Hexit : (exits_at samples.chatty
                   ≤ Z.max (read_until 0 (stdout samples.chatty)) (closes_at samples.chatty)
                     + 5000)%Z) by (vm_compute; discriminate).
  rewrite (proj2 (on_time_reads_all samples.chatty (Some 10%Z) Hon) Hexit). reflexivity.
Defined.

Lemma read_lines_early timeout t early : ∀ now logs rest,
  timeout = Some t → (now ≤ t * 1000)%Z →
  Forall (λ l, (l.1 ≤ t * 1000)%Z) early →
  read_lines timeout now (early ++ rest) logs
  = read_lines timeout (read_until now early) rest (logs ++ (rstrip_newline ∘ snd <$> early)) ∧
    (read_until now early ≤ t * 1000)%Z.
Proof.
  induction early as [| [at_ line] early IH]; intros now logs rest -> Hnow Hearly.
  - simpl. by rewrite app_nil_r.
  - apply Forall_cons in Hearly as [Hat Hearly]. simpl in Hat. cbn [app read_lines].
    assert (Hnow' : (Z.max now at_ ≤ t * 1000)%Z) by lia.
    assert (expired (Some t) (Z.max now at_) = false) as ->.
    { unfold expired. destruct (Z.ltb_spec (t * 1000) (Z.max now at_)); [lia |].
      apply andb_false_r. }
    destruct (IH (Z.max now at_) (logs ++ [rstrip_newline line]) rest eq_refl Hnow' Hearly)
      as [-> Hle].
    split; [| done]. simpl. by rewrite <- app_assoc.
Qed.

(** X13: with a timeout of [t] seconds the child is killed when the
    first line that can only be read after [t] has been read, and not
    before: the elapsed time is the time of that line, the log ends with
    that line and the line of the kill, and the status is the negated
    kill signal unless the child had exited by then. *)
Theorem killed_at_first_late_line c t early at_ line rest :
  (0 < t)%Z → stdout c = early ++ (at_, line) :: rest →
  Forall (λ l, (l.1 ≤ t * 1000)%Z) early → (t * 1000 < at_)%Z →
  run_playwright_subprocess c (Some t)
  = (if (exits_at c <=? at_)%Z then exit_code c else (- SIGKILL)%Z,
     at_,
     (rstrip_newline ∘ snd <$> early) ++ [rstrip_newline line; KILLED]).
Proof.
  intros Ht Hout Hearly Hlate. unfold run_playwright_subprocess. rewrite Hout.
  destruct (read_lines_early (Some t) t early 0 [] ((at_, line) :: rest) eq_refl
              ltac:(lia) Hearly) as [-> Hle].
  cbn [read_lines].
  assert (Z.max (read_until 0 early) at_ = at_) as -> by lia.
  assert (expired (Some t) at_ = true) as ->.
  { unfold expired. destruct (Z.ltb_spec (t * 1000) at_); [| lia].
    destruct (Z.eqb_spec t 0); [lia | done]. }
  rewrite app_nil_l, <- app_assoc. by destruct (exits_at c <=? at_)%Z.
Qed.

Lemma killed_at_first_late_line_witness :
  run_playwright_subprocess samples.chatty (Some 1%Z)
  = ((-9)%Z, 1500%Z, [str "tick"; str "tick"; str "tick"; KILLED]).
Proof.
  rewrite (killed_at_first_late_line samples.chatty 1
             [(500%Z, str "tick" ++ [0x0A%N]); (1000%Z, str "tick" ++ [0x0A%N])]
             1500 (str "tick" ++ [0x0A%N])
             ((λ n, (500 * Z.of_nat n, str "tick" ++ [0x0A%N])%Z) <$> seq 4 17));
    [reflexivity | lia | reflexivity | repeat constructor; simpl; lia | lia].
Defined.

(** X22: when the loop was not left by the kill (no line was read
    late, with or without a timeout) and the child is still running five
    seconds after the end of its output, the wait is given up: the status
    is the sentinel -1, the elapsed time is five seconds past the end of
    the output, and the text of the exception ends the log. *)
Theorem wait_gives_up c timeout :
  falsy timeout ∨ on_time timeout (stdout c) →
  let done := Z.max (read_until 0 (stdout c)) (closes_at c) in
  (done + 5000 < exits_at c)%Z →
  run_playwright_subprocess c timeout
  = ((-1)%Z, (done + 5000)%Z,
     (rstrip_newline ∘ snd <$> stdout c)
       ++ [str "Exception while running playwright scraper: " ++ wait_error c]).
Proof.
  intros Hon done Hexit. unfold run_playwright_subprocess.
  rewrite (read_lines_to_the_end c timeout Hon). fold done.
  destruct (Z.leb_spec (exits_at c) (done + 5000)); [lia | done].
Qed.

Lemma wait_gives_up_witness :
  run_playwright_subprocess
    (Child [(100%Z, str "started" ++ [0x0A%N])] 200 60000 0 (str "timed out")) (Some 1%Z)
  = ((-1)%Z, 5200%Z,
     [str "started"; str "Exception while running playwright scraper: timed out"]).
Proof.
  rewrite (wait_gives_up _ (Some 1%Z));
    [reflexivity | right; repeat constructor | vm_compute; reflexivity].
Defined.

(** X14: [rstrip_newline] takes the line ends off the end of the line,
    and nothing else. *)
Theorem rstrip_newline_spec line :
  ∃ k, line = rstrip_newline line ++ replicate k 0x0A%N ∧
       last (rstrip_newline line) ≠ Some 0x0A%N.
Proof.
  induction line as [| c line (k & Hk & Hlast)].
  - by exists 0.
  - simpl. destruct (rstrip_newline line) as [| a r] eqn:Hr.
    + destruct (N.eqb_spec c 10) as [-> | Hc].
      * exists (S k). simpl in *. by rewrite Hk at 1.
      * exists k. simpl in *. split; [by rewrite Hk at 1 | congruence].
    + exists k. split; [simpl in *; by rewrite Hk at 1 |].
      by rewrite last_cons_cons.
Qed.

End runner_extras.

(** ** Further properties of the country canonicalisation *)
Section country_extras.
Import geo.

Lemma lstrip_blank s : Forall (λ x, unicode.isspace x = true) s → py.lstrip s = [].
Proof. induction 1 as [| c s Hc _ IH]; [done |]. simpl. by rewrite Hc. Qed.

(** X15: an absent, empty or blank name gives an absent country,
    without a look at pycountry. *)
Theorem canonicalize_country_blank env s :
  Forall (λ x, unicode.isspace x = true) s →
  canonicalize_country env None = Ret None ∧
  canonicalize_country env (Some s) = Ret None.
Proof.
  intros Hs. split; [done |]. unfold canonicalize_country, py.strip.
  rewrite (lstrip_blank _ Hs). simpl. by destruct (negb (py.truthy s)).
Qed.

Lemma canonicalize_country_blank_witness :
  canonicalize_country samples.pycountry_excerpt (Some (str "   ")) = Ret None.
Proof.
  apply (proj2 (canonicalize_country_blank samples.pycountry_excerpt (str "   ")
                  ltac:(repeat constructor))).
Defined.

(** X16: white space around the name does not matter. *)
Theorem canonicalize_country_strips env s :
  canonicalize_country env (Some s) = canonicalize_country env (Some (py.strip s)).
Proof.
  unfold canonicalize_country. rewrite strip_strip.
  destruct (py.strip s) as [| a n] eqn:Hn.
  - simpl. by destruct (negb (py.truthy s)).
  - simpl. destruct s; [done |]. done.
Qed.

Lemma alias_entry k v :
  _MANUAL_COUNTRY_MAP !! k = Some v →
  k ≠ [] ∧ py.strip k = k ∧ v ≠ [] ∧ py.strip v = v ∧ _MANUAL_COUNTRY_MAP !! v = None.
Proof.
  unfold _MANUAL_COUNTRY_MAP. intros H%elem_of_list_to_map_2.
  repeat (apply elem_of_cons in H as [[= -> ->] | H]; [by vm_compute |]).
  inversion H.
Qed.

(** X17: an alias is rewritten without a look at pycountry, and its
    target, which is no alias itself, stays as it is when pycountry's
    lookup resolves it to itself. *)
Theorem canonicalize_country_alias env k v :
  _MANUAL_COUNTRY_MAP !! k = Some v →
  canonicalize_country env (Some k) = Ret (Some v) ∧
  (lookup env v = Ret v → canonicalize_twice env (Some k) = Ret (Some v)).
Proof.
  intros Hk. destruct (alias_entry _ _ Hk) as (Hne & Hstrip & Hvne & Hvstrip & Hv).
  assert (Hfirst : canonicalize_country env (Some k) = Ret (Some v)).
  { unfold canonicalize_country. rewrite Hstrip, Hk. by destruct k. }
  split; [done |]. intros Hlookup. unfold canonicalize_twice. rewrite Hfirst. simpl.
  by apply canonicalize_country_fixes.
Qed.

Lemma canonicalize_country_alias_witness :
  canonicalize_country samples.pycountry_excerpt (Some (str "England"))
    = Ret (Some (str "United Kingdom")) ∧
  canonicalize_twice samples.pycountry_excerpt (Some (str "England"))
    = Ret (Some (str "United Kingdom")).
Proof.
  assert (H : _MANUAL_COUNTRY_MAP !! str "England" = Some (str "United Kingdom"))
    by (vm_compute; reflexivity).
  split.
  - exact (proj1 (canonicalize_country_alias samples.pycountry_excerpt _ _ H)).
  - apply (proj2 (canonicalize_country_alias samples.pycountry_excerpt _ _ H)).
    vm_compute. reflexivity.
Defined.

End country_extras.

Section api_extras.
Import geo api_records vocabulary.
Variable py_str : json → pystr.

Lemma first_country_returns locs : ∃ v, first_country locs = Ret v.
Proof. destruct locs as [| | | | [| [] ?] |]; cbn; eauto. Qed.

Ltac simp := unfold or_; cbn [get bind from_option id EMPTY absent_or_dict].

Ltac step :=
  simp;
  repeat match goal with
    | |- context [truthy ?v] => destruct (truthy v); simp
    | |- context [first_country ?l] =>
        let v := fresh "v" in
        destruct (first_country_returns l) as [v ->]; simp
    end.

Ltac raises := step; (split; [intros [r H]; by inversion H | (done || tauto)]).
Ltac returns := step; (split; [done | intros _; eauto]).

Lemma study_record_nested s :
  (∃ r, study_record py_str s = Ret r) ↔ well_nested s.
Proof.
  unfold study_record, section, well_nested.
  destruct s as [| | | | | items]; try raises.
  cbn [get bind].
  destruct (item (str "protocolSection") items) as [[| | | | | ps] |]; try raises.
  2:{ cbn [from_option id EMPTY get bind item]. returns. }
  cbn [from_option id EMPTY get bind].
  destruct (item (str "identificationModule") ps) as [[| | | | | ident] |]; try raises;
  (destruct (item (str "contactsLocationsModule") ps) as [[| | | | | clm] |]; try raises;
   (destruct (item (str "statusModule") ps) as [[| | | | | sm] |]; try raises;
    try returns;
    try (step;
         match goal with
         | |- context [item (str "startDateStruct") ?m] =>
             destruct (item (str "startDateStruct") m) as [[| | | | | sds] |]
         end; simp;
         (split; [first [done | intros [r H]; by inversion H]
                 | first [tauto | intros _; solve [eauto]]])))).
Qed.

(** X18: a study gives a record exactly when it is an object whose
    protocolSection, identificationModule, contactsLocationsModule,
    statusModule and startDateStruct are objects where they are present;
    a section that is null or of another kind makes the call raise. *)
Theorem study_record_returns s :
  (∃ r, study_record py_str s = Ret r) ↔ well_nested s.
Proof. exact (study_record_nested s). Qed.

Lemma bind_Ret {A B} (m : raising A) (k : A → raising B) r :
  bind m k = Ret r → ∃ a, m = Ret a ∧ k a = Ret r.
Proof. destruct m as [a |]; [eauto | done]. Qed.

Lemma get_Ret d key default v :
  get d key default = Ret v →
  ∃ items, d = JDict items ∧ v = from_option id default (item (str key) items).
Proof. destruct d; try done. intros [= <-]. eauto. Qed.

(** What [section] gives: the module of the protocolSection, or [{}]
    where either is missing. *)
Lemma section_Ret s module m :
  section s module = Ret m →
  ∃ items, s = JDict items ∧
    ((item (str "protocolSection") items = None ∧ m = EMPTY) ∨
     ∃ ps, item (str "protocolSection") items = Some (JDict ps) ∧
           m = from_option id EMPTY (item (str module) ps)).
Proof.
  unfold section. intros (ps & (items & -> & ->)%get_Ret & (ps' & Hps & ->)%get_Ret)%bind_Ret.
  exists items. split; [done |].
  destruct (item (str "protocolSection") items) as [v |]; simpl in Hps.
  - right. exists ps'. by subst v.
  - left. split; [done |]. injection Hps as <-. done.
Qed.

Lemma or_Ret a b v : or_ a (Ret b) = Ret v → v = a ∨ v = b.
Proof. unfold or_. destruct (truthy a); intros [= <-]; eauto. Qed.

Lemma first_country_Ret locs v :
  first_country locs = Ret v → v ≠ JNull →
  ∃ first rest, locs = JList (JDict first :: rest) ∧ item (str "country") first = Some v.
Proof.
  unfold first_country.
  destruct locs as [| | | | [| [| | | | | first] rest] |];
    try (intros [= <-] Hv; by destruct Hv).
  unfold get. intros [= <-] Hv. exists first, rest. split; [done |].
  destruct (item (str "country") first) as [c |] eqn:Hc; [done | by destruct Hv].
Qed.

Lemma item_default d key items v :
  v = from_option id d (item key items) → v ≠ d → item key items = Some v.
Proof. destruct (item key items); simpl; intros -> ?; done. Qed.

(** X19: the country of a record is the [country] of the first entry of
    [protocolSection.contactsLocationsModule.locations], when that entry
    is an object; in every other case it is absent. *)
Theorem country_of_first_location s r :
  study_record py_str s = Ret r → country r ≠ JNull →
  ∃ items ps clm first rest,
    s = JDict items ∧
    item (str "protocolSection") items = Some (JDict ps) ∧
    item (str "contactsLocationsModule") ps = Some (JDict clm) ∧
    item (str "locations") clm = Some (JList (JDict first :: rest)) ∧
    item (str "country") first = Some (country r).
Proof.
  unfold study_record. intros H Hcountry.
  apply bind_Ret in H as (ident & _ & H). apply bind_Ret in H as (design & _ & H).
  apply bind_Ret in H as (nct_id & _ & H). apply bind_Ret in H as (brief_title & _ & H).
  apply bind_Ret in H as (locs & Hlocs & H). apply bind_Ret in H as (c & Hc & H).
  apply bind_Ret in H as (start_date & _ & H). injection H as <-. simpl in Hcountry.
  destruct (first_country_Ret _ _ Hc Hcountry) as (first & rest & -> & Hfirst).
  apply bind_Ret in Hlocs as (m & (items & -> & Hm)%section_Ret & Hl).
  apply bind_Ret in Hl as (l & (clm & -> & Hl)%get_Ret & [Hor | Hor]%or_Ret); [| done].
  rewrite Hl in Hor. apply item_default in Hor; [| done].
  destruct Hm as [[_ [= ->]] | (ps & Hps & Hclm)]; [done |].
  apply item_default in Hclm.
  - exists items, ps, clm, first, rest. done.
  - intros [= ->]. done.
Qed.

(** X20: the start year of a record is read from
    [protocolSection.statusModule.startDateStruct.date]; it is a number
    of at most four digits, and there is none when that value is absent
    or null. *)
Theorem start_year_of_date s r y :
  study_record py_str s = Ret r → startYear r = Some y →
  (0 ≤ y ≤ 9999)%Z ∧
  ∃ items ps sm sds date,
    s = JDict items ∧
    item (str "protocolSection") items = Some (JDict ps) ∧
    item (str "statusModule") ps = Some (JDict sm) ∧
    item (str "startDateStruct") sm = Some (JDict sds) ∧
    item (str "date") sds = Some date ∧ date ≠ JNull.
Proof.
  unfold study_record. intros H Hyear.
  apply bind_Ret in H as (ident & _ & H). apply bind_Ret in H as (design & _ & H).
  apply bind_Ret in H as (nct_id & _ & H). apply bind_Ret in H as (brief_title & _ & H).
  apply bind_Ret in H as (locs & _ & H). apply bind_Ret in H as (c & _ & H).
  apply bind_Ret in H as (start_date & Hdate & H). injection H as <-. simpl in Hyear.
  split; [by eapply api_year_bounds |].
  assert (Hne : start_date ≠ JNull) by (intros ->; done).
  apply bind_Ret in Hdate as (m & (items & -> & Hm)%section_Ret & Hd).
  apply bind_Ret in Hd as (d & (sm & -> & Hd)%get_Ret & (sds & -> & Hdate)%get_Ret).
  apply item_default in Hdate; [| done].
  destruct Hm as [[_ [= ->]] | (ps & Hps & Hsm)].
  { cbn [item from_option id] in Hd. unfold EMPTY in Hd. injection Hd as ->. done. }
  assert (Hsds : item (str "startDateStruct") sm = Some (JDict sds)).
  { apply item_default in Hd; [done |]. intros [= ->]. done. }
  assert (Hsm' : item (str "statusModule") ps = Some (JDict sm)).
  { apply item_default in Hsm; [done |]. intros [= ->]. done. }
  exists items, ps, sm, sds, start_date. done.
Qed.

Lemma each_Ret xs : ∀ rs,
  each py_str xs = Ret rs ↔ Forall2 (λ s r, study_record py_str s = Ret r) xs rs.
Proof.
  induction xs as [| s xs IH]; intros rs; simpl.
  - split; [intros [= <-]; constructor | by inversion 1].
  - split.
    + intros (r & Hr & (rs' & Hrs & [= <-])%bind_Ret)%bind_Ret.
      constructor; [done | by apply IH].
    + inversion 1 as [| ? r ? rs' Hr Hrs]; subst. rewrite Hr. simpl.
      apply IH in Hrs. by rewrite Hrs.
Qed.

Lemma each_returns xs :
  (∃ rs, each py_str xs = Ret rs) ↔ Forall well_nested xs.
Proof.
  induction xs as [| s xs IH]; simpl.
  - split; [done | by exists []].
  - split.
    + intros (rs & (r & Hr & (rs' & Hrs & _)%bind_Ret)%bind_Ret).
      constructor; [apply study_record_nested; eauto | apply IH; eauto].
    + intros [[r Hr]%study_record_nested [rs Hrs]%IH]%Forall_cons.
      exists (r :: rs). by rewrite Hr, Hrs.
Qed.

(** X21: the payload gives its records all or none: with a list under
    [studies], one record for each study, in order, when every study is
    well nested, and an exception as soon as one is not. *)
Theorem records_all_or_none payload xs :
  get payload "studies" (JList []) = Ret (JList xs) →
  ((∃ rs, records py_str payload = Ret rs) ↔ Forall well_nested xs) ∧
  (∀ rs, records py_str payload = Ret rs →
         Forall2 (λ s r, study_record py_str s = Ret r) xs rs ∧ length rs = length xs).
Proof.
  intros Hget. unfold records. rewrite Hget. cbn [bind]. split; [apply each_returns |].
  intros rs Hrs%each_Ret. split; [done |]. symmetry. by eapply Forall2_length.
Qed.

End api_extras.

Section api_witnesses.
Import geo api_records vocabulary more_samples.

Lemma study_record_returns_witness :
  (∃ r, study_record str_of bare_study = Ret r) ∧
  ¬ (∃ r, study_record str_of null_study = Ret r).
Proof.
  split.
  - apply (proj2 (study_record_returns str_of bare_study)). vm_compute. tauto.
  - intros H. apply (proj1 (study_record_returns str_of null_study)) in H.
    vm_compute in H. exact H.
Defined.

Lemma country_of_first_location_witness :
  ∃ r, study_record str_of full_study = Ret r ∧ country r = JStr (str "France") ∧
       ∃ items, full_study = JDict items.
Proof.
  assert (H : ∃ r, study_record str_of full_study = Ret r ∧ country r = JStr (str "France"))
    by (eexists; split; vm_compute; reflexivity).
  destruct H as (r & Hr & Hc). exists r. split; [exact Hr |]. split; [exact Hc |].
  destruct (country_of_first_location str_of full_study r Hr) as (items & _ & _ & _ & _ & H & _).
  - rewrite Hc. discriminate.
  - exists items. exact H.
Defined.

Lemma start_year_of_date_witness :
  ∃ r, study_record str_of full_study = Ret r ∧ startYear r = Some 2014%Z ∧
       (0 ≤ 2014 ≤ 9999)%Z.
Proof.
  assert (H : ∃ r, study_record str_of full_study = Ret r ∧ startYear r = Some 2014%Z)
    by (eexists; split; vm_compute; reflexivity).
  destruct H as (r & Hr & Hy). exists r. split; [exact Hr |]. split; [exact Hy |].
  exact (proj1 (start_year_of_date str_of full_study r 2014 Hr Hy)).
Defined.

Lemma records_all_or_none_witness :
  (∃ rs, records str_of (payload [full_study; bare_study]) = Ret rs) ∧
  ¬ (∃ rs, records str_of (payload [full_study; null_study]) = Ret rs).
Proof.
  split.
  - apply (proj2 (proj1 (records_all_or_none str_of (payload [full_study; bare_study])
                           [full_study; bare_study] eq_refl))).
    repeat constructor; vm_compute; tauto.
  - intros H.
    apply (proj1 (proj1 (records_all_or_none str_of (payload [full_study; null_study])
                           [full_study; null_study] eq_refl))) in H.
    apply Forall_cons in H as [_ H]. apply Forall_cons in H as [H _].
    vm_compute in H. exact H.
Defined.

End api_witnesses.
